(** * Energy explain core: generator, window filter, timeline and replay

    A shallow embedding of the TypeScript core of the repository (the time
    helpers of utils/time, data/storyDay.ts, logic/explainEngine.ts, the
    replay engine that imports it and the expected-changes list of
    screens/ExplainScreen.tsx) with the properties its specification states
    and further properties read off the code.

    Number model.  A JavaScript [number] that holds a minute count, an index
    or a timestamp is an integer ([Z]).  A [number] that holds a power, an
    energy or a state of charge is an exact rational ([Q]): the binary64
    rounding of the arithmetic is not modelled, the decimal rounding done by
    [toFixed] is.  A sum or a mean can so differ from the value the
    program computes in its last bits; where a property turns on comparing
    such a value with a threshold it is stated away from the threshold.
    The transcendental parts of the two day curves
    ([Math.sin], [Math.exp], [Math.pow]) are parameters of the generator;
    everything around them (guards, clamps, rounding, control policy,
    integration) is translated from the source. *)

From Stdlib Require Import ZArith QArith Qround Qminmax Qabs Lqa Lia.
From Stdlib Require Import List Bool String Ascii DecimalString.
From Stdlib Require Import Permutation Sorted MSetAVL OrdersEx.
From Equations Require Import Equations.
From Equations.Prop Require Import Logic.
Import ListNotations.

Local Open Scope string_scope.
Local Open Scope Z_scope.

(** ** Numbers *)

Module ZSet := MSetAVL.Make Z_as_OT.

Definition Qltb (x y : Q) : bool := negb (Qle_bool y x).

(** [Math.min(max, Math.max(min, value))], as each source file defines it. *)
Definition clamp (value min max : Q) : Q := Qmin max (Qmax min value).

(** The same function at integer arguments (timestamps and minutes). *)
Definition clampZ (value min max : Z) : Z := Z.min max (Z.max min value).

(** Nearest integer, ties away from zero: the rounding of [toFixed]. *)
Definition nearest (x : Q) : Z :=
  if Qle_bool 0 x then Qfloor (x + 0.5) else - Qfloor (- x + 0.5).

Definition pow10 (decimals : nat) : positive :=
  Nat.iter decimals (Pos.mul 10) 1%positive.

(** [Number(value.toFixed(decimals))]. *)
Definition round (value : Q) (decimals : nat) : Q :=
  nearest (value * (Zpos (pow10 decimals) # 1)) # pow10 decimals.

(** ** The time helpers (utils/time) *)

Module Time.

Definition MINUTES_PER_DAY : Z := 24 * 60.

(** JavaScript [%] truncates toward zero: [Z.rem]. *)
Definition normalizeMinute (minute : Z) : Z :=
  let wrapped := Z.rem minute MINUTES_PER_DAY in
  if wrapped <? 0 then wrapped + MINUTES_PER_DAY else wrapped.

(** [Math.round(minute / step) * step]; [Math.round] is
    [floor (x + 1/2)], here on the exact quotient. *)
Definition clampToStep (minute step : Z) : Z :=
  if step <=? 0 then minute
  else Qfloor ((minute # 1) / (step # 1) + 0.5) * step.

Definition intToString (n : Z) : string := NilZero.string_of_int (Z.to_int n).

Definition padStart2 (s : string) : string :=
  if (String.length s <? 2)%nat then append "0" s else s.

Definition minutesToLabel (minute : Z) : string :=
  let normalized := normalizeMinute minute in
  let hours24 := normalized / 60 in
  let mins := Z.rem normalized 60 in
  let meridiem := if 12 <=? hours24 then "PM" else "AM" in
  let hours12 := if Z.rem hours24 12 =? 0 then 12 else Z.rem hours24 12 in
  let minsLabel := padStart2 (intToString mins) in
  append (intToString hours12)
    (append ":" (append minsLabel (append " " meridiem))).

(** [label.split(" ")], first two fields, for the labels [minutesToLabel]
    produces (one space). *)
Fixpoint splitAtSpace (s : string) : string * string :=
  match s with
  | EmptyString => (EmptyString, EmptyString)
  | String c rest =>
      if Ascii.eqb c " "%char then (EmptyString, rest)
      else let '(time, meridiem) := splitAtSpace rest in
           (String c time, meridiem)
  end.

Definition splitLabel (label : string) : string * string := splitAtSpace label.

(** U+2013, the en dash of the window label, in UTF-8. *)
Definition enDash : string :=
  String (ascii_of_nat 226) (String (ascii_of_nat 128)
    (String (ascii_of_nat 147) EmptyString)).

Definition formatWindow (startMin endMin : Z) : string :=
  let '(startTime, startMeridiem) := splitLabel (minutesToLabel startMin) in
  let '(endTime, endMeridiem) := splitLabel (minutesToLabel endMin) in
  if String.eqb startMeridiem endMeridiem then
    append startTime (append enDash (append endTime (append " " endMeridiem)))
  else
    append startTime (append " " (append startMeridiem
      (append enDash (append endTime (append " " endMeridiem))))).

End Time.

(** ** The day generator (data/storyDay.ts) *)

Module StoryDay.

Definition MINUTES_PER_DAY : Z := 24 * 60.
Definition SAMPLE_STEP_MINUTES : Z := 5.
Definition SAMPLE_COUNT : Z := MINUTES_PER_DAY / SAMPLE_STEP_MINUTES.
Definition BATTERY_CAPACITY_KWH : Q := 13.5.
Definition SOC_START_PCT : Q := 62.

Record TimeWindow := { startMin : Z; endMin : Z }.

Record StorySample := {
  ts : Z;
  solarKw : Q;
  homeKw : Q;
  batteryKw : Q;
  gridKw : Q;
  socPct : Q
}.

Record Context := {
  mode : string;
  backupReservePct : Q;
  peakWindow : TimeWindow;
  stormWatchWindow : TimeWindow;
  stormWatchEnabled : bool
}.

Definition storyDayContext : Context := {|
  mode := "Time-Based Control";
  backupReservePct := 30;
  peakWindow := {| startMin := 17 * 60; endMin := 21 * 60 |};
  stormWatchWindow := {| startMin := 20 * 60 + 30; endMin := 21 * 60 + 15 |};
  stormWatchEnabled := true
|}.

Definition isInWindow (minute : Z) (window : TimeWindow) : bool :=
  (startMin window <=? minute) && (minute <? endMin window).

Section Generator.

Local Open Scope Q_scope.

(** [base * cloudDip + noise] of [solarKwAt] and
    [baseline + morning + midday + evening + late + noise] of [homeKwAt]:
    the sine, exponential and power expressions of the two curves. *)
Variable solarCurve : Z -> Z -> Q.
Variable homeCurve : Z -> Z -> Q.

Definition solarKwAt (minute index : Z) : Q :=
  let sunriseMin := (7 * 60)%Z in
  let sunsetMin := (18 * 60 + 30)%Z in
  if (minute <? sunriseMin)%Z || (sunsetMin <? minute)%Z then 0
  else clamp (solarCurve minute index) 0 7.

Definition homeKwAt (minute index : Z) : Q :=
  clamp (homeCurve minute index) 0.55 3.6.

Definition batteryTargetKw (minute : Z) (socPct solarKw homeKw : Q) : Q :=
  let inPeakWindow := isInWindow minute (peakWindow storyDayContext) in
  let inStormWindow :=
    stormWatchEnabled storyDayContext
    && isInWindow minute (stormWatchWindow storyDayContext) in
  if inStormWindow then
    if Qltb socPct 70 then 2.8
    else if Qltb socPct 77 then 1.9
    else 0.9
  else if inPeakWindow then
    if Qle_bool socPct (backupReservePct storyDayContext + 2) then 0
    else
      let peakDischargeCap : Q := if (minute <? 19 * 60)%Z then 2.9 else 1.7 in
      let netLoadKw : Q := Qmax 0.25 (homeKw - solarKw + 0.25) in
      - Qmin peakDischargeCap netLoadKw
  else
    let solarSurplus : Q := solarKw - homeKw in
    let isSolarChargeWindow := ((9 * 60 <=? minute) && (minute <? 16 * 60 + 30))%Z in
    if isSolarChargeWindow && Qltb 0.2 solarSurplus && Qltb socPct 94 then
      let chargeFactor : Q := if Qltb socPct 88 then 0.9 else 0.35 in
      Qmin 3.6 (solarSurplus * chargeFactor)
    else
      let overnightDischarge :=
        ((minute <? 5 * 60)%Z || (22 * 60 <=? minute)%Z) && Qltb 56 socPct in
      if overnightDischarge then - 0.2
      else
        let preDawnDischarge :=
          (5 * 60 <=? minute)%Z && (minute <? 7 * 60)%Z && Qltb 54 socPct in
        if preDawnDischarge then - 0.1 else 0.

Definition clampBatteryBySoc (targetKw socPct : Q) : Q :=
  let reservePct := backupReservePct storyDayContext in
  let stepHours : Q := (SAMPLE_STEP_MINUTES # 1) / 60 in
  let maxChargeKw : Q := ((100 - socPct) / 100) * BATTERY_CAPACITY_KWH / stepHours in
  let maxDischargeKw : Q :=
    ((socPct - reservePct) / 100) * BATTERY_CAPACITY_KWH / stepHours in
  if Qltb 0 targetKw then Qmin targetKw (Qmax 0 maxChargeKw)
  else if Qltb targetKw 0 then - Qmin (Qabs targetKw) (Qmax 0 maxDischargeKw)
  else 0.

(** One turn of the [for] loop of [buildStoryDaySamples]: the sample pushed
    and the state of charge carried to the next turn. *)
Definition storyStep (index : Z) (socPct : Q) : StorySample * Q :=
  let stepHours : Q := (SAMPLE_STEP_MINUTES # 1) / 60 in
  let minute := (index * SAMPLE_STEP_MINUTES)%Z in
  let solarKw : Q := round (solarKwAt minute index) 2 in
  let homeKw : Q := round (homeKwAt minute index) 2 in
  let targetBatteryKw : Q := batteryTargetKw minute socPct solarKw homeKw in
  let targetBatteryKw : Q :=
    if Qltb 0 targetBatteryKw
       && negb (isInWindow minute (stormWatchWindow storyDayContext))
    then
      let solarOnlyCap : Q := Qmax 0 (solarKw - homeKw) in
      Qmin targetBatteryKw solarOnlyCap
    else targetBatteryKw in
  let batteryKw : Q := round (clampBatteryBySoc targetBatteryKw socPct) 2 in
  let gridKw : Q := round (homeKw - solarKw + batteryKw) 2 in
  let socDelta : Q := ((batteryKw * stepHours) / BATTERY_CAPACITY_KWH) * 100 in
  let socPct : Q := clamp (socPct + socDelta) (backupReservePct storyDayContext) 100 in
  ({| ts := minute; solarKw := solarKw; homeKw := homeKw;
      batteryKw := batteryKw; gridKw := gridKw; socPct := round socPct 1 |},
   socPct).

(** The loop, [count] turns from [index] on. *)
Fixpoint storyLoop (count : nat) (index : Z) (socPct : Q) : list StorySample :=
  match count with
  | O => []
  | S count' =>
      let '(sample, socPct') := storyStep index socPct in
      sample :: storyLoop count' (index + 1)%Z socPct'
  end.

Definition buildStoryDaySamples : list StorySample :=
  storyLoop (Z.to_nat SAMPLE_COUNT) 0 SOC_START_PCT.

(** [getSamplesInWindow] filters the generated day, [storyDaySamples]. *)
Definition getSamplesInWindow (storyDaySamples : list StorySample)
    (startMin endMin : Z) : list StorySample :=
  let roundedStart :=
    clampZ (Time.clampToStep startMin SAMPLE_STEP_MINUTES) 0 MINUTES_PER_DAY in
  let roundedEnd :=
    clampZ (Time.clampToStep endMin SAMPLE_STEP_MINUTES) 0 MINUTES_PER_DAY in
  let safeStart := Z.min roundedStart roundedEnd in
  let safeEnd := Z.max roundedStart roundedEnd in
  filter (fun sample => (safeStart <=? ts sample) && (ts sample <? safeEnd))
    storyDaySamples.

End Generator.

Definition formatStoryTime (minute : Z) : string :=
  Time.minutesToLabel (Time.clampToStep minute SAMPLE_STEP_MINUTES).

End StoryDay.


(** ** The explanation engine (logic/explainEngine.ts) *)

Module Explain.

Import StoryDay.

Local Open Scope Q_scope.

Definition STEP_HOURS : Q := 5 / 60.
Definition MAX_EVENTS : nat := 10.

Inductive ExplainEventType :=
  EvMode | EvRate | EvBattery | EvGrid | EvStorm | EvSolar | EvInfo.

(** The string of the union member, as a template literal prints it. *)
Definition typeName (type : ExplainEventType) : string :=
  match type with
  | EvMode => "mode" | EvRate => "rate" | EvBattery => "battery"
  | EvGrid => "grid" | EvStorm => "storm" | EvSolar => "solar"
  | EvInfo => "info"
  end.

Inductive ReasonCode :=
  | TBC_PEAK_AVOIDANCE
  | SOLAR_SURPLUS_CHARGE
  | BACKUP_RESERVE_PROTECTION
  | STORM_WATCH_PRECHARGE
  | EXPORTING_SURPLUS
  | HOLDING_CHARGE.

Inductive Confidence := High | Medium | Low.

Record ExplainReason := {
  code : ReasonCode;
  reasonTitle : string;
  confidence : Confidence;
  evidence : list string
}.

Record ExplainEvent := {
  id : string;
  tsMin : Z;
  title : string;
  type : ExplainEventType;
  whatHappened : string;
  reasons : list ExplainReason
}.

(** [Omit<ExplainEvent, "id" | "tsMin"> & { proposedTsMin: number }]. *)
Record RawEvent := {
  proposedTsMin : Z;
  rawType : ExplainEventType;
  rawTitle : string;
  rawWhatHappened : string;
  rawReasons : list ExplainReason
}.

Record ExplainSummary := {
  startSoc : Q;
  endSoc : Q;
  minSoc : Q;
  maxSoc : Q;
  totalGridImportKwhApprox : Q;
  totalGridExportKwhApprox : Q;
  totalBatteryChargeKwhApprox : Q;
  totalBatteryDischargeKwhApprox : Q
}.

Definition ExplainContext := StoryDay.Context.

Record BaseReason := { baseTitle : string; baseConfidence : Confidence }.

Definition reasonCatalog (code : ReasonCode) : BaseReason :=
  match code with
  | TBC_PEAK_AVOIDANCE =>
      {| baseTitle := "Peak avoidance in Time-Based Control"; baseConfidence := High |}
  | SOLAR_SURPLUS_CHARGE =>
      {| baseTitle := "Charging from solar surplus"; baseConfidence := High |}
  | BACKUP_RESERVE_PROTECTION =>
      {| baseTitle := "Reserve protection near backup threshold";
         baseConfidence := Medium |}
  | STORM_WATCH_PRECHARGE =>
      {| baseTitle := "Storm Watch pre-charge behavior"; baseConfidence := High |}
  | EXPORTING_SURPLUS =>
      {| baseTitle := "Exporting excess energy"; baseConfidence := Medium |}
  | HOLDING_CHARGE =>
      {| baseTitle := "Holding battery level"; baseConfidence := Low |}
  end.

Record Overlap := { overlaps : bool; overlapStart : Z; overlapEnd : Z }.

Definition overlapsWindow (startMin endMin : Z) (window : TimeWindow) : Overlap :=
  let overlapStart := Z.max startMin (StoryDay.startMin window) in
  let overlapEnd := Z.min endMin (StoryDay.endMin window) in
  {| overlaps := (overlapStart <? overlapEnd)%Z;
     overlapStart := overlapStart;
     overlapEnd := overlapEnd |}.

Definition average (samples : list StorySample) (picker : StorySample -> Q) : Q :=
  if (List.length samples =? 0)%nat then 0
  else fold_left (fun sum sample => sum + picker sample) samples 0
       / inject_Z (Z.of_nat (List.length samples)).

Definition buildReason (code : ReasonCode) (evidence : list string)
    (confidence : option Confidence) : ExplainReason :=
  let base := reasonCatalog code in
  {| code := code;
     reasonTitle := baseTitle base;
     confidence := match confidence with
                   | Some chosen => chosen
                   | None => baseConfidence base
                   end;
     evidence := firstn 3 evidence |}.

Definition findFirstSample (samples : list StorySample)
    (predicate : StorySample -> bool) (fallbackMin : Z) : Z :=
  match find predicate samples with
  | Some found => ts found
  | None => fallbackMin
  end.

(** The [for] loop of [hasConsecutiveGridExport], with its two variables. *)
Fixpoint exportScan (samples : list StorySample) (minRunLength run : Z)
    (runStart : option Z) : option Z :=
  match samples with
  | [] => None
  | sample :: rest =>
      if Qltb (gridKw sample) (- 0.6) then
        let run := (run + 1)%Z in
        let runStart :=
          match runStart with
          | None => Some (ts sample)
          | Some _ => runStart
          end in
        if (minRunLength <=? run)%Z then runStart
        else exportScan rest minRunLength run runStart
      else exportScan rest minRunLength 0%Z None
  end.

Definition hasConsecutiveGridExport (samples : list StorySample)
    (minRunLength : Z) : option Z :=
  exportScan samples minRunLength 0%Z None.

(** [while (usedTs.has(ts) && ts <= upperBound) ts += 5]. *)
Equations? probeForward (usedTs : ZSet.t) (upperBound ts : Z) : Z
  by wf (Z.to_nat (upperBound + 5 - ts)) lt :=
  probeForward usedTs upperBound ts with inspect (ZSet.mem ts usedTs && (ts <=? upperBound)%Z) => {
    | exist _ true _ := probeForward usedTs upperBound (ts + 5)%Z;
    | exist _ false _ := ts }.
Proof.
  apply andb_prop in e as [_ Hle]. apply Z.leb_le in Hle. lia.
Qed.

(** [while (usedTs.has(ts) && ts >= startMin) ts -= 5]. *)
Equations? probeBackward (usedTs : ZSet.t) (startMin ts : Z) : Z
  by wf (Z.to_nat (ts + 5 - startMin)) lt :=
  probeBackward usedTs startMin ts with inspect (ZSet.mem ts usedTs && (startMin <=? ts)%Z) => {
    | exist _ true _ := probeBackward usedTs startMin (ts - 5)%Z;
    | exist _ false _ := ts }.
Proof.
  apply andb_prop in e as [_ Hle]. apply Z.leb_le in Hle. lia.
Qed.

Definition ensureUniqueTimestamp (proposedTs : Z) (usedTs : ZSet.t)
    (startMin endMin : Z) : Z :=
  let upperBound := Z.max startMin (endMin - 5) in
  let ts := clampZ proposedTs startMin upperBound in
  let ts := probeForward usedTs upperBound ts in
  let ts := probeBackward usedTs startMin ts in
  clampZ ts startMin upperBound.

Definition getWindowSamples (samples : list StorySample) (startMin endMin : Z)
    : list StorySample :=
  let safeStart := Z.min startMin endMin in
  let safeEnd := Z.max startMin endMin in
  filter (fun sample => (safeStart <=? ts sample)%Z && (ts sample <? safeEnd)%Z)
    samples.

(** The running variables of the loop of [summarizeWindow]; [None] is the
    infinite start value of [minSoc] and of [maxSoc]. *)
Record SummaryVars := {
  gridImport : Q;
  gridExport : Q;
  batteryCharge : Q;
  batteryDischarge : Q;
  runMinSoc : option Q;
  runMaxSoc : option Q
}.

Definition summarizeStep (vars : SummaryVars) (sample : StorySample) : SummaryVars :=
  {| gridImport := gridImport vars + Qmax (gridKw sample) 0 * STEP_HOURS;
     gridExport := gridExport vars + Qmax (- gridKw sample) 0 * STEP_HOURS;
     batteryCharge := batteryCharge vars + Qmax (batteryKw sample) 0 * STEP_HOURS;
     batteryDischarge :=
       batteryDischarge vars + Qmax (- batteryKw sample) 0 * STEP_HOURS;
     runMinSoc := Some match runMinSoc vars with
                       | None => socPct sample
                       | Some least => Qmin least (socPct sample)
                       end;
     runMaxSoc := Some match runMaxSoc vars with
                       | None => socPct sample
                       | Some most => Qmax most (socPct sample)
                       end |}.

Definition roundedOr0 (value : option Q) (decimals : nat) : Q :=
  match value with
  | Some finite => round finite decimals
  | None => 0
  end.

Definition summarizeWindow (samples : list StorySample) (_context : ExplainContext)
    : ExplainSummary :=
  match samples with
  | [] =>
      {| startSoc := 0; endSoc := 0; minSoc := 0; maxSoc := 0;
         totalGridImportKwhApprox := 0; totalGridExportKwhApprox := 0;
         totalBatteryChargeKwhApprox := 0; totalBatteryDischargeKwhApprox := 0 |}
  | first :: _ =>
      let vars :=
        fold_left summarizeStep samples
          {| gridImport := 0; gridExport := 0; batteryCharge := 0;
             batteryDischarge := 0; runMinSoc := None; runMaxSoc := None |} in
      {| startSoc := round (socPct first) 1;
         endSoc := round (socPct (last samples first)) 1;
         minSoc := roundedOr0 (runMinSoc vars) 1;
         maxSoc := roundedOr0 (runMaxSoc vars) 1;
         totalGridImportKwhApprox := round (gridImport vars) 2;
         totalGridExportKwhApprox := round (gridExport vars) 2;
         totalBatteryChargeKwhApprox := round (batteryCharge vars) 2;
         totalBatteryDischargeKwhApprox := round (batteryDischarge vars) 2 |}
  end.

(** A template literal: the pieces in order. *)
Definition template (pieces : list string) : string := String.concat "" pieces.

(** U+2192, the arrow of the SOC evidence lines, in UTF-8. *)
Definition arrow : string :=
  String (ascii_of_nat 226) (String (ascii_of_nat 134)
    (String (ascii_of_nat 146) EmptyString)).

(** Stable insertion by timestamp: [Array.prototype.sort] with the
    comparator [a.tsMin - b.tsMin] keeps equal timestamps in input order. *)
Fixpoint insertByTs (event : ExplainEvent) (sorted : list ExplainEvent)
    : list ExplainEvent :=
  match sorted with
  | [] => [event]
  | next :: rest =>
      if (tsMin event <=? tsMin next)%Z then event :: sorted
      else next :: insertByTs event rest
  end.

Definition sortByTs (events : list ExplainEvent) : list ExplainEvent :=
  fold_right insertByTs [] events.

(** The first [map] of [buildExplainTimeline], with the set it fills. *)
Fixpoint normalizeEvents (rawEvents : list RawEvent) (index : Z)
    (usedTimestamps : ZSet.t) (startMin endMin : Z) : list ExplainEvent :=
  match rawEvents with
  | [] => []
  | event :: rest =>
      let tsMin :=
        ensureUniqueTimestamp (proposedTsMin event) usedTimestamps startMin endMin in
      let usedTimestamps := ZSet.add tsMin usedTimestamps in
      {| id := template [Time.intToString tsMin; "-"; Time.intToString index];
         tsMin := tsMin;
         title := rawTitle event;
         type := rawType event;
         whatHappened := rawWhatHappened event;
         reasons := rawReasons event |}
      :: normalizeEvents rest (index + 1)%Z usedTimestamps startMin endMin
  end.

Definition withEventTime (tsMin : Z) (reason : ExplainReason) : ExplainReason :=
  {| code := code reason;
     reasonTitle := reasonTitle reason;
     confidence := confidence reason;
     evidence :=
       firstn 3
         (evidence reason
          ++ [template ["Event time: "; Time.minutesToLabel tsMin; "."]])%list |}.

(** The last [map] of [buildExplainTimeline]. *)
Fixpoint finishEvents (events : list ExplainEvent) (index : Z) : list ExplainEvent :=
  match events with
  | [] => []
  | event :: rest =>
      {| id := template [typeName (type event); "-";
                         Time.intToString (tsMin event); "-";
                         Time.intToString index];
         tsMin := tsMin event;
         title := title event;
         type := type event;
         whatHappened := whatHappened event;
         reasons := map (withEventTime (tsMin event)) (reasons event) |}
      :: finishEvents rest (index + 1)%Z
  end.

Section Timeline.

(** The number-to-string conversion of the JavaScript runtime, which the
    template literals of the evidence lines apply to their numbers. *)
Variable numberToString : Q -> string.

Variable samplesAll : list StorySample.
Variable context : ExplainContext.
Variables startMin endMin : Z.

Let windowSamples := getWindowSamples samplesAll startMin endMin.
Let summary := summarizeWindow windowSamples context.
Let avgBatteryKw := average windowSamples batteryKw.
Let avgSolarKw := average windowSamples solarKw.
Let avgHomeKw := average windowSamples homeKw.
Let peakOverlap := overlapsWindow startMin endMin (peakWindow context).
Let stormOverlap := overlapsWindow startMin endMin (stormWatchWindow context).
Let peakLabel :=
  Time.formatWindow (StoryDay.startMin (peakWindow context))
                    (StoryDay.endMin (peakWindow context)).
Let stormLabel :=
  Time.formatWindow (StoryDay.startMin (stormWatchWindow context))
                    (StoryDay.endMin (stormWatchWindow context)).

Definition peakEvents : list RawEvent :=
  if overlaps peakOverlap then
    [ {| proposedTsMin := overlapStart peakOverlap;
         rawType := EvRate;
         rawTitle := "Peak rate period";
         rawWhatHappened :=
           "Peak period started. System prioritized reducing grid usage.";
         rawReasons :=
           [ buildReason TBC_PEAK_AVOIDANCE
               [ template ["Mode: "; mode context; "."];
                 template ["Selected window overlaps peak period ("; peakLabel; ")."];
                 template ["Battery average power was ";
                           numberToString (round avgBatteryKw 2);
                           " kW in this selection."] ]
               None ] |} ]
  else [].

Definition stormEvents : list RawEvent :=
  if overlaps stormOverlap && stormWatchEnabled context then
    [ {| proposedTsMin := overlapStart stormOverlap;
         rawType := EvStorm;
         rawTitle := "Storm Watch";
         rawWhatHappened :=
           "Storm Watch engaged. Powerwall increased charge to improve backup readiness.";
         rawReasons :=
           [ buildReason STORM_WATCH_PRECHARGE
               [ "Storm Watch is enabled in site settings.";
                 template ["Window overlaps Storm Watch ("; stormLabel; ")."];
                 template ["SOC moved "; numberToString (round (startSoc summary) 1);
                           "% "; arrow; " ";
                           numberToString (round (endSoc summary) 1);
                           "% in selection."] ]
               None ] |} ]
  else [].

Definition chargeReasons : list ExplainReason :=
  let reasons :=
    ((if overlaps stormOverlap && stormWatchEnabled context then
        [ buildReason STORM_WATCH_PRECHARGE
            [ "Charging occurred while Storm Watch interval was active.";
              template ["Average battery power was +";
                        numberToString (round avgBatteryKw 2); " kW."] ]
            None ]
      else [])
     ++
     (if Qltb (avgHomeKw + 0.3) avgSolarKw then
        [ buildReason SOLAR_SURPLUS_CHARGE
            [ template ["Average solar "; numberToString (round avgSolarKw 2);
                        " kW exceeded home load ";
                        numberToString (round avgHomeKw 2); " kW."];
              template ["Battery charged about ";
                        numberToString (totalBatteryChargeKwhApprox summary);
                        " kWh in this window."] ]
            (Some (if overlaps stormOverlap then Medium else High)) ]
      else []))%list in
  if (List.length reasons =? 0)%nat then
    [ buildReason HOLDING_CHARGE
        [ template ["Battery stayed net charging at +";
                    numberToString (round avgBatteryKw 2); " kW."];
          template ["SOC increased from "; numberToString (startSoc summary);
                    "% to "; numberToString (endSoc summary);
                    "% during the selected period."] ]
        None ]
  else reasons.

Definition chargeEvents : list RawEvent :=
  if Qltb 0.4 avgBatteryKw then
    let chargeStartTs :=
      findFirstSample windowSamples (fun sample => Qltb 0.4 (batteryKw sample))
        startMin in
    [ {| proposedTsMin := chargeStartTs;
         rawType := EvBattery;
         rawTitle := "Battery charging";
         rawWhatHappened :=
           "Powerwall was mostly charging during the selected period.";
         rawReasons := chargeReasons |} ]
  else [].

Definition dischargeReasons : list ExplainReason :=
  let reasons :=
    ((if overlaps peakOverlap then
        [ buildReason TBC_PEAK_AVOIDANCE
            [ template ["Selection overlaps peak period ("; peakLabel; ")."];
              template ["Battery average power was ";
                        numberToString (round avgBatteryKw 2);
                        " kW (discharging)."] ]
            None ]
      else [])
     ++
     (if Qle_bool (minSoc summary) (backupReservePct context + 2) then
        [ buildReason BACKUP_RESERVE_PROTECTION
            [ template ["Backup reserve is ";
                        numberToString (backupReservePct context); "%."];
              template ["SOC approached reserve. Minimum observed ";
                        numberToString (minSoc summary); "%."] ]
            (Some Medium) ]
      else []))%list in
  if (List.length reasons =? 0)%nat then
    [ buildReason HOLDING_CHARGE
        [ template ["Battery delivered about ";
                    numberToString (totalBatteryDischargeKwhApprox summary);
                    " kWh in this window."];
          template ["SOC declined "; numberToString (startSoc summary); "% ";
                    arrow; " "; numberToString (endSoc summary); "%."] ]
        None ]
  else reasons.

Definition dischargeEvents : list RawEvent :=
  if Qltb avgBatteryKw (- 0.4) then
    let dischargeStartTs :=
      findFirstSample windowSamples (fun sample => Qltb (batteryKw sample) (- 0.4))
        startMin in
    [ {| proposedTsMin := dischargeStartTs;
         rawType := EvBattery;
         rawTitle := "Battery discharging";
         rawWhatHappened :=
           "Powerwall supplied home demand to reduce grid dependence.";
         rawReasons := dischargeReasons |} ]
  else [].

Definition exportEvents : list RawEvent :=
  match hasConsecutiveGridExport windowSamples 3 with
  | Some exportRunStart =>
      [ {| proposedTsMin := exportRunStart;
           rawType := EvGrid;
           rawTitle := "Exporting to grid";
           rawWhatHappened :=
             "Solar production exceeded site demand and excess energy was exported.";
           rawReasons :=
             [ buildReason EXPORTING_SURPLUS
                 [ "At least 15 minutes of consecutive grid export was observed.";
                   template ["Average solar "; numberToString (round avgSolarKw 2);
                             " kW vs home "; numberToString (round avgHomeKw 2);
                             " kW."];
                   template ["Approx export in selection: ";
                             numberToString (totalGridExportKwhApprox summary);
                             " kWh."] ]
                 (Some (if Qltb 0.5 (totalGridExportKwhApprox summary)
                        then High else Medium)) ] |} ]
  | None => []
  end.

Definition holdEvents : list RawEvent :=
  if Qltb (Qabs avgBatteryKw) 0.25 && Qltb (avgHomeKw + 0.25) avgSolarKw then
    let holdTs := findFirstSample windowSamples (fun _ => true) startMin in
    [ {| proposedTsMin := holdTs;
         rawType := EvSolar;
         rawTitle := "Holding battery level";
         rawWhatHappened :=
           "Battery power stayed near neutral while solar carried most of the load.";
         rawReasons :=
           [ buildReason HOLDING_CHARGE
               [ template ["Average battery power stayed near ";
                           numberToString (round avgBatteryKw 2); " kW."];
                 template ["SOC remained within "; numberToString (minSoc summary);
                           "% to "; numberToString (maxSoc summary);
                           "% during this selection."];
                 template ["Solar remained above home load on average (";
                           numberToString (round avgSolarKw 2); " vs ";
                           numberToString (round avgHomeKw 2); " kW)."] ]
               (Some Medium) ] |} ]
  else [].

Definition fallbackEvent : RawEvent :=
  {| proposedTsMin := startMin;
     rawType := EvInfo;
     rawTitle := "Stable operation";
     rawWhatHappened := "No major state transitions were detected in this window.";
     rawReasons :=
       [ buildReason HOLDING_CHARGE
           [ template ["Window: "; Time.formatWindow startMin endMin; "."];
             template ["SOC changed "; numberToString (startSoc summary); "% ";
                       arrow; " "; numberToString (endSoc summary); "%."];
             template ["Average battery power ";
                       numberToString (round avgBatteryKw 2); " kW."] ]
           None ] |}.

(** The events pushed by the detectors, in the order of the pushes. *)
Definition detectedEvents : list RawEvent :=
  (peakEvents ++ stormEvents ++ chargeEvents ++ dischargeEvents
   ++ exportEvents ++ holdEvents)%list.

Definition rawEvents : list RawEvent :=
  if (List.length detectedEvents =? 0)%nat then [fallbackEvent] else detectedEvents.

Definition buildExplainTimeline : list ExplainEvent :=
  if (List.length windowSamples =? 0)%nat then []
  else
    let normalizedEvents :=
      firstn MAX_EVENTS
        (sortByTs (normalizeEvents rawEvents 0%Z ZSet.empty startMin endMin)) in
    finishEvents normalizedEvents 0%Z.

End Timeline.

End Explain.

(** ** The replay engine *)

Module Replay.

Local Open Scope Q_scope.

Definition STEP_HOURS : Q := 5 / 60.
Definition BATTERY_CAPACITY_KWH : Q := 13.5.
Definition MAX_CHARGE_KW : Q := 5.
Definition MAX_DISCHARGE_KW : Q := 5.
Definition STORM_TARGET_SOC_PCT : Q := 85.

(** ["Time-Based Control" | "Self-Powered"]; the context's mode string is
    cast to it. *)
Definition ReplayMode := string.

Record ReplayOverrides := {
  backupReservePct : option Q;
  mode : option ReplayMode;
  peakStartMin : option Z
}.

Record ReplaySummary := {
  startSoc : Q;
  endSoc : Q;
  totalGridImportKwhApprox : Q;
  totalGridExportKwhApprox : Q;
  totalBatteryChargeKwhApprox : Q;
  totalBatteryDischargeKwhApprox : Q
}.

Record Deltas := {
  endSocPct : Q;
  gridImportKwh : Q;
  batteryDischargeKwh : Q
}.

Record ReplayResult := {
  actual : ReplaySummary;
  replay : ReplaySummary;
  deltas : Deltas;
  modeUsed : ReplayMode;
  reserveUsed : Q
}.

Record RunningTotals := {
  gridImport : Q;
  gridExport : Q;
  batteryCharge : Q;
  batteryDischarge : Q
}.

Record EnergyBounds := { maxChargeKw : Q; maxDischargeKw : Q }.

Record Step := { nextSocPct : Q; gridKw : Q; batteryKw : Q }.

Definition computeEnergyBounds (socPct reservePct : Q) : EnergyBounds :=
  let maxChargeKwh := ((100 - socPct) / 100) * BATTERY_CAPACITY_KWH in
  let maxDischargeKwh := ((socPct - reservePct) / 100) * BATTERY_CAPACITY_KWH in
  {| maxChargeKw := Qmax 0 (maxChargeKwh / STEP_HOURS);
     maxDischargeKw := Qmax 0 (maxDischargeKwh / STEP_HOURS) |}.

Definition applyEnergyStep (batteryKw solarKw homeKw socPct reservePct : Q) : Step :=
  let boundedBatteryKw := clamp batteryKw (- MAX_DISCHARGE_KW) MAX_CHARGE_KW in
  let deltaSocPct := ((boundedBatteryKw * STEP_HOURS) / BATTERY_CAPACITY_KWH) * 100 in
  let nextSocPct := clamp (socPct + deltaSocPct) reservePct 100 in
  let gridKw := homeKw - solarKw + boundedBatteryKw in
  {| nextSocPct := nextSocPct; gridKw := gridKw; batteryKw := boundedBatteryKw |}.

Definition accumulateTotals (totals : RunningTotals) (batteryKw gridKw : Q)
    : RunningTotals :=
  {| gridImport := gridImport totals + Qmax gridKw 0 * STEP_HOURS;
     gridExport := gridExport totals + Qmax (- gridKw) 0 * STEP_HOURS;
     batteryCharge := batteryCharge totals + Qmax batteryKw 0 * STEP_HOURS;
     batteryDischarge := batteryDischarge totals + Qmax (- batteryKw) 0 * STEP_HOURS |}.

Definition simulateSelfPoweredStep (sample : StoryDay.StorySample)
    (socPct reservePct : Q) : Step :=
  let netSolarKw := StoryDay.solarKw sample - StoryDay.homeKw sample in
  let bounds := computeEnergyBounds socPct reservePct in
  let batteryKw :=
    if Qltb 0 netSolarKw && Qltb socPct 100 then
      Qmin (Qmin netSolarKw MAX_CHARGE_KW) (maxChargeKw bounds)
    else if Qltb netSolarKw 0 && Qltb reservePct socPct then
      let deficitKw := Qabs netSolarKw in
      - Qmin (Qmin deficitKw MAX_DISCHARGE_KW) (maxDischargeKw bounds)
    else 0 in
  applyEnergyStep batteryKw (StoryDay.solarKw sample) (StoryDay.homeKw sample)
    socPct reservePct.

Definition simulateTimeBasedStep (sample : StoryDay.StorySample)
    (context : Explain.ExplainContext) (socPct reservePct : Q) (peakStartMin : Z)
    : Step :=
  let inPeak :=
    ((peakStartMin <=? StoryDay.ts sample)
     && (StoryDay.ts sample <? StoryDay.endMin (StoryDay.peakWindow context)))%Z in
  let inStorm :=
    StoryDay.stormWatchEnabled context
    && (StoryDay.startMin (StoryDay.stormWatchWindow context) <=? StoryDay.ts sample)%Z
    && (StoryDay.ts sample <? StoryDay.endMin (StoryDay.stormWatchWindow context))%Z in
  let bounds := computeEnergyBounds socPct reservePct in
  let deficitKw := Qmax 0 (StoryDay.homeKw sample - StoryDay.solarKw sample) in
  if inPeak && Qltb reservePct socPct then
    let batteryKw :=
      - Qmin (Qmin (deficitKw + 0.35) MAX_DISCHARGE_KW) (maxDischargeKw bounds) in
    applyEnergyStep batteryKw (StoryDay.solarKw sample) (StoryDay.homeKw sample)
      socPct reservePct
  else if inStorm && Qltb socPct (Qmax reservePct STORM_TARGET_SOC_PCT) then
    let desiredChargeKw := Qmax 0 (deficitKw + 2.2) in
    let batteryKw :=
      Qmin (Qmin desiredChargeKw MAX_CHARGE_KW) (maxChargeKw bounds) in
    applyEnergyStep batteryKw (StoryDay.solarKw sample) (StoryDay.homeKw sample)
      socPct reservePct
  else simulateSelfPoweredStep sample socPct reservePct.

Definition finalizeSummary (startSoc endSoc : Q) (totals : RunningTotals)
    : ReplaySummary :=
  {| startSoc := round startSoc 1;
     endSoc := round endSoc 1;
     totalGridImportKwhApprox := round (gridImport totals) 2;
     totalGridExportKwhApprox := round (gridExport totals) 2;
     totalBatteryChargeKwhApprox := round (batteryCharge totals) 2;
     totalBatteryDischargeKwhApprox := round (batteryDischarge totals) 2 |}.

(** [overrides.x ?? fallback]. *)
Definition orElse {A : Type} (override : option A) (fallback : A) : A :=
  match override with
  | Some value => value
  | None => fallback
  end.

(** One turn of the [for] loop of [replayWindow] on its two variables. *)
Definition replayStep (context : Explain.ExplainContext) (modeUsed : ReplayMode)
    (reserveUsed : Q) (peakStartMin : Z) (vars : Q * RunningTotals)
    (sample : StoryDay.StorySample) : Q * RunningTotals :=
  let '(socPct, totals) := vars in
  let step :=
    if String.eqb modeUsed "Self-Powered"
    then simulateSelfPoweredStep sample socPct reserveUsed
    else simulateTimeBasedStep sample context socPct reserveUsed peakStartMin in
  (nextSocPct step, accumulateTotals totals (batteryKw step) (gridKw step)).

Definition replayWindow (samplesAll : list StoryDay.StorySample)
    (context : Explain.ExplainContext) (startMin endMin : Z)
    (overrides : ReplayOverrides) : ReplayResult :=
  let windowSamples := Explain.getWindowSamples samplesAll startMin endMin in
  let actualSummary := Explain.summarizeWindow windowSamples context in
  let modeUsed := orElse (mode overrides) (StoryDay.mode context) in
  let reserveUsed :=
    orElse (backupReservePct overrides) (StoryDay.backupReservePct context) in
  let peakStartMin :=
    orElse (peakStartMin overrides) (StoryDay.startMin (StoryDay.peakWindow context)) in
  match windowSamples with
  | [] =>
      let empty :=
        {| startSoc := 0; endSoc := 0;
           totalGridImportKwhApprox := 0; totalGridExportKwhApprox := 0;
           totalBatteryChargeKwhApprox := 0; totalBatteryDischargeKwhApprox := 0 |} in
      {| actual := empty; replay := empty;
         deltas := {| endSocPct := 0; gridImportKwh := 0; batteryDischargeKwh := 0 |};
         modeUsed := modeUsed; reserveUsed := reserveUsed |}
  | first :: _ =>
      let replayStartSoc := StoryDay.socPct first in
      let '(socPct, totals) :=
        fold_left (replayStep context modeUsed reserveUsed peakStartMin) windowSamples
          (replayStartSoc,
           {| gridImport := 0; gridExport := 0;
              batteryCharge := 0; batteryDischarge := 0 |}) in
      let replaySummary := finalizeSummary replayStartSoc socPct totals in
      {| actual :=
           {| startSoc := Explain.startSoc actualSummary;
              endSoc := Explain.endSoc actualSummary;
              totalGridImportKwhApprox := Explain.totalGridImportKwhApprox actualSummary;
              totalGridExportKwhApprox := Explain.totalGridExportKwhApprox actualSummary;
              totalBatteryChargeKwhApprox :=
                Explain.totalBatteryChargeKwhApprox actualSummary;
              totalBatteryDischargeKwhApprox :=
                Explain.totalBatteryDischargeKwhApprox actualSummary |};
         replay := replaySummary;
         deltas :=
           {| endSocPct := round (endSoc replaySummary - Explain.endSoc actualSummary) 1;
              gridImportKwh :=
                round (totalGridImportKwhApprox replaySummary
                       - Explain.totalGridImportKwhApprox actualSummary) 2;
              batteryDischargeKwh :=
                round (totalBatteryDischargeKwhApprox replaySummary
                       - Explain.totalBatteryDischargeKwhApprox actualSummary) 2 |};
         modeUsed := modeUsed; reserveUsed := reserveUsed |}
  end.

End Replay.

(** * screens/ExplainScreen: the expected changes of a replay *)

Module ExplainScreen.

Local Open Scope Q_scope.

Definition overlap (startMin endMin windowStart windowEnd : Z) : bool :=
  (Z.max startMin windowStart <? Z.min endMin windowEnd)%Z.

(** [bullets.push(line)] when the condition holds. *)
Definition pushWhen (condition : bool) (line : string) (bullets : list string)
    : list string :=
  if condition then (bullets ++ [line])%list else bullets.

Definition buildExpectedChanges (mode : Replay.ReplayMode) (reservePct : Q)
    (context : Explain.ExplainContext) (startMin endMin : Z)
    (deltas : Replay.Deltas) : list string :=
  let bullets : list string := [] in
  let stormOverlap :=
    overlap startMin endMin
      (StoryDay.startMin (StoryDay.stormWatchWindow context))
      (StoryDay.endMin (StoryDay.stormWatchWindow context)) in
  let peakOverlap :=
    overlap startMin endMin
      (StoryDay.startMin (StoryDay.peakWindow context))
      (StoryDay.endMin (StoryDay.peakWindow context)) in
  let bullets :=
    if String.eqb mode "Self-Powered" then
      pushWhen true
        "System would prioritize solar self-consumption over peak arbitrage."
        bullets
    else
      pushWhen peakOverlap
        "Time-Based mode would continue prioritizing peak-rate avoidance in this window."
        bullets in
  let bullets :=
    if Qltb (StoryDay.backupReservePct context) reservePct then
      pushWhen true
        "Higher reserve would reduce allowable discharge depth and preserve backup energy."
        bullets
    else
      pushWhen (Qltb reservePct (StoryDay.backupReservePct context))
        "Lower reserve would allow deeper discharge before grid support is needed."
        bullets in
  let bullets :=
    pushWhen
      (stormOverlap && StoryDay.stormWatchEnabled context
       && String.eqb mode "Time-Based Control")
      "Storm Watch overlap would bias charging behavior toward backup readiness."
      bullets in
  let bullets :=
    if Qltb 0.15 (Replay.gridImportKwh deltas) then
      pushWhen true "Grid import is expected to increase in this replay." bullets
    else
      pushWhen (Qltb (Replay.gridImportKwh deltas) (- 0.15))
        "Grid import is expected to decrease in this replay." bullets in
  let bullets :=
    if Qltb 1 (Replay.endSocPct deltas) then
      pushWhen true "Window is likely to end at a higher SOC." bullets
    else
      pushWhen (Qltb (Replay.endSocPct deltas) (- 1))
        "Window is likely to end at a lower SOC." bullets in
  let bullets :=
    pushWhen (List.length bullets <? 2)%nat
      "Replay is illustrative and uses the same solar/home profile for the selected window."
      bullets in
  firstn 4 bullets.

End ExplainScreen.

Import StoryDay Explain.

(** ** The window filter as the specification words it

    A half-open range filter whose bounds are snapped to the 5-minute grid
    (the nearest multiple of 5), clamped to the day and put in order. *)

Definition snapToGrid (minute : Z) : Z := 5 * ((minute + 2) / 5).

Definition snappedBound (minute : Z) : Z :=
  Z.max 0 (Z.min 1440 (snapToGrid minute)).

Definition snappedWindowFilter (samples : list StorySample) (startMin endMin : Z)
    : list StorySample :=
  let lower := Z.min (snappedBound startMin) (snappedBound endMin) in
  let upper := Z.max (snappedBound startMin) (snappedBound endMin) in
  filter (fun sample => (lower <=? ts sample) && (ts sample <? upper)) samples.

(** [Subsequence small big]: [small] is [big] with some elements left out,
    the others in their order. *)
Inductive Subsequence {A : Type} : list A -> list A -> Prop :=
  | Subsequence_nil : Subsequence [] []
  | Subsequence_keep x small big :
      Subsequence small big -> Subsequence (x :: small) (x :: big)
  | Subsequence_skip x small big :
      Subsequence small big -> Subsequence small (x :: big).

(** A sample at minute [t] with the given battery and grid power. *)
Definition sampleAt (t : Z) (battery grid : Q) : StorySample :=
  {| ts := t; solarKw := 0; homeKw := 1; batteryKw := battery;
     gridKw := grid; socPct := 50 |}.

(** ** The export run as the specification words it *)

Definition exporting (sample : StorySample) : Prop := (gridKw sample < - 0.6)%Q.

(** The energy exported to the grid over a list of samples, in kWh: the
    export part of each sample's grid power over its five minutes. *)
Definition gridExportKwh (samples : list StorySample) : Q :=
  fold_right
    (fun sample rest => (Qmax (- gridKw sample) 0 * STEP_HOURS + rest)%Q)
    0%Q samples.

(** Three consecutive exporting samples, the first at position [i]. *)
Definition exportRunAt (samples : list StorySample) (i : nat) : Prop :=
  exists a b c,
    nth_error samples i = Some a /\ nth_error samples (S i) = Some b
    /\ nth_error samples (S (S i)) = Some c
    /\ exporting a /\ exporting b /\ exporting c.

(** [first] is the first sample of the first run of three or more. *)
Definition firstExportRun (samples : list StorySample) (first : StorySample) : Prop :=
  exists i,
    exportRunAt samples i /\ nth_error samples i = Some first
    /\ forall j, (j < i)%nat -> ~ exportRunAt samples j.

(** ** Events and the detections they come from *)

(** [event] is the detection [raw] after the post-processing of
    [buildExplainTimeline]: the same title, type and text, the reasons with
    the event time line added to the evidence (cut at three), and the
    proposed timestamp passed through [ensureUniqueTimestamp]. *)
Definition realises (startMin endMin : Z) (event : ExplainEvent) (raw : RawEvent)
    : Prop :=
  title event = rawTitle raw
  /\ type event = rawType raw
  /\ whatHappened event = rawWhatHappened raw
  /\ reasons event = map (withEventTime (tsMin event)) (rawReasons raw)
  /\ exists usedTs,
       tsMin event = ensureUniqueTimestamp (proposedTsMin raw) usedTs startMin endMin.

(** The decimal expansion of a rational, at most 17 fractional digits: what
    the runtime prints for the decimals the evidence lines show. Used to run
    the timeline on concrete days. *)
Fixpoint fractionDigits (count : nat) (remainder denominator : Z) : string :=
  match count with
  | O => EmptyString
  | S count' =>
      if remainder =? 0 then EmptyString
      else append (Time.intToString (remainder * 10 / denominator))
             (fractionDigits count' ((remainder * 10) mod denominator) denominator)
  end.

Definition decimalToString (value : Q) : string :=
  let magnitude := Z.abs (Qnum value) in
  let denominator := Zpos (Qden value) in
  let fraction := fractionDigits 17 (magnitude mod denominator) denominator in
  append (if Qnum value <? 0 then "-" else "")
    (append (Time.intToString (magnitude / denominator))
       (if String.eqb fraction "" then "" else append "." fraction)).

Definition exportingb (sample : StorySample) : bool :=
  Qltb (gridKw sample) (- 0.6).

(** The scan without its counters: the timestamp at the first position
    where three exporting samples stand in a row. *)
Fixpoint firstRunStart (samples : list StorySample) : option Z :=
  match samples with
  | [] => None
  | a :: rest =>
      if exportingb a
         && match rest with
            | b :: c :: _ => exportingb b && exportingb c
            | _ => false
            end
      then Some (ts a)
      else firstRunStart rest
  end.

(** The line the last [map] adds to the evidence of each reason. *)
Definition eventTimeLine (tsMin : Z) : string :=
  template ["Event time: "; Time.minutesToLabel tsMin; "."].

(** A day of seven samples, 4:30 PM to 5:00 PM, idle until the battery
    discharges at 5 kW when the peak period starts. *)
Definition peakStartDay : list StorySample :=
  [ sampleAt 990 0 1; sampleAt 995 0 1; sampleAt 1000 0 1; sampleAt 1005 0 1;
    sampleAt 1010 0 1; sampleAt 1015 0 1; sampleAt 1020 (- 5) (- 4) ].

(** An hour of samples exporting 1 kW from 10:00 AM on. *)
Definition exportingDay : list StorySample :=
  map (fun t => sampleAt t 0 (- 1)) [600; 605; 610; 615; 620; 625]%Z.

(** Fifteen minutes exporting 2.01 kW from 10:00 AM on: 0.5025 kWh. *)
Definition exportEdgeDay : list StorySample :=
  map (fun t => sampleAt t 0 (- 2.01)) [600; 605; 610]%Z.

(** ** Replay with the ambient values as overrides *)

Definition ambientOverrides (context : ExplainContext) : Replay.ReplayOverrides :=
  {| Replay.backupReservePct := Some (backupReservePct context);
     Replay.mode := Some (mode context);
     Replay.peakStartMin := Some (startMin (peakWindow context)) |}.

Definition noOverrides : Replay.ReplayOverrides :=
  {| Replay.backupReservePct := None;
     Replay.mode := None;
     Replay.peakStartMin := None |}.

(** Deltas that are zero within rounding: at most one unit of the last
    decimal kept (0.1 point of SOC, 0.01 kWh). *)
Definition zeroWithinRounding (deltas : Replay.Deltas) : Prop :=
  (Qabs (Replay.endSocPct deltas) <= 0.1
   /\ Qabs (Replay.gridImportKwh deltas) <= 0.01
   /\ Qabs (Replay.batteryDischargeKwh deltas) <= 0.01)%Q.

(** A minute count on the 5-minute sample grid. *)
Definition onGrid (minute : Z) : Prop := minute mod 5 = 0.

(** ** De-duplication without the backward loop *)

(** [ensureUniqueTimestamp] with its second [while] loop left out. *)
Definition ensureUniqueForwardOnly (proposedTs : Z) (usedTs : ZSet.t)
    (startMin endMin : Z) : Z :=
  let upperBound := Z.max startMin (endMin - 5) in
  let ts := clampZ proposedTs startMin upperBound in
  let ts := probeForward usedTs upperBound ts in
  clampZ ts startMin upperBound.

(** [normalizeEvents] on [ensureUniqueForwardOnly]. *)
Fixpoint normalizeForwardOnly (rawEvents : list RawEvent) (index : Z)
    (usedTimestamps : ZSet.t) (startMin endMin : Z) : list ExplainEvent :=
  match rawEvents with
  | [] => []
  | event :: rest =>
      let tsMin :=
        ensureUniqueForwardOnly (proposedTsMin event) usedTimestamps
          startMin endMin in
      let usedTimestamps := ZSet.add tsMin usedTimestamps in
      {| id := template [Time.intToString tsMin; "-"; Time.intToString index];
         tsMin := tsMin;
         title := rawTitle event;
         type := rawType event;
         whatHappened := rawWhatHappened event;
         reasons := rawReasons event |}
      :: normalizeForwardOnly rest (index + 1)%Z usedTimestamps startMin endMin
  end.

(** ** Labels, loads and lines named in the properties *)

(** The clock part of a label, without AM or PM. *)
Definition clockOf (minute : Z) : string :=
  template
    [ Time.intToString (((minute mod 1440) / 60 + 11) mod 12 + 1); ":";
      Time.padStart2 (Time.intToString (minute mod 60)) ].

Definition meridiemOf (minute : Z) : string :=
  if minute mod 1440 <? 720 then "AM" else "PM".

(** The house load not covered by solar power over a list of samples, in
    kWh: negative when solar power exceeds the load. *)
Definition netLoadKwh (samples : list StorySample) : Q :=
  fold_right
    (fun sample rest =>
       ((homeKw sample - solarKw sample) * Replay.STEP_HOURS + rest)%Q)
    0%Q samples.

(** The line [buildExpectedChanges] adds to a list of fewer than two. *)
Definition illustrativeNote : string :=
  "Replay is illustrative and uses the same solar/home profile for the selected window.".

(** * Properties *)

(** ** Rounding *)

Section Rounding.

Local Open Scope Q_scope.

Lemma Qltb_lt (x y : Q) : Qltb x y = true <-> x < y.
Proof.
  unfold Qltb. rewrite negb_true_iff. split; intro H.
  - apply Qnot_le_lt. intro Hle. apply Qle_bool_iff in Hle. congruence.
  - destruct (Qle_bool y x) eqn:E; [|reflexivity].
    apply Qle_bool_iff in E. lra.
Qed.

Lemma Qltb_ge (x y : Q) : Qltb x y = false <-> y <= x.
Proof.
  unfold Qltb. rewrite negb_false_iff. apply Qle_bool_iff.
Qed.

Lemma floor_lower (x : Q) : x - 1 < inject_Z (Qfloor x).
Proof.
  pose proof (Qlt_floor x) as H. rewrite inject_Z_plus in H.
  change (inject_Z 1) with 1 in H. lra.
Qed.

Lemma nearest_bounds (x : Q) :
  x - 0.5 <= inject_Z (nearest x) <= x + 0.5.
Proof.
  unfold nearest. destruct (Qle_bool 0 x).
  - pose proof (Qfloor_le (x + 0.5)). pose proof (floor_lower (x + 0.5)).
    split; lra.
  - rewrite inject_Z_opp.
    pose proof (Qfloor_le (- x + 0.5)). pose proof (floor_lower (- x + 0.5)).
    split; lra.
Qed.

Lemma nearest_mono (x y : Q) : x <= y -> (nearest x <= nearest y)%Z.
Proof.
  intro Hxy. unfold nearest.
  destruct (Qle_bool 0 x) eqn:Ex, (Qle_bool 0 y) eqn:Ey.
  - apply Qfloor_resp_le. lra.
  - apply Qle_bool_iff in Ex.
    assert (~ 0 <= y) by (rewrite <- Qle_bool_iff; congruence). lra.
  - assert (0 <= Qfloor (- x + 0.5))%Z.
    { change 0%Z with (Qfloor 0). apply Qfloor_resp_le.
      assert (~ 0 <= x) by (rewrite <- Qle_bool_iff; congruence). lra. }
    assert (0 <= Qfloor (y + 0.5))%Z.
    { change 0%Z with (Qfloor 0). apply Qfloor_resp_le.
      apply Qle_bool_iff in Ey. lra. }
    lia.
  - assert (Qfloor (- y + 0.5) <= Qfloor (- x + 0.5))%Z
      by (apply Qfloor_resp_le; lra).
    lia.
Qed.

Lemma Qmake_le (n m : Z) (p : positive) : (n <= m)%Z -> n # p <= m # p.
Proof.
  intro H. unfold Qle. simpl. apply Z.mul_le_mono_nonneg_r; lia.
Qed.

Lemma Qmake_scale (n : Z) (p : positive) : n # p == inject_Z n * (1 # p).
Proof.
  unfold Qeq. simpl. lia.
Qed.

Lemma round_mono (x y : Q) (decimals : nat) :
  x <= y -> round x decimals <= round y decimals.
Proof.
  intro H. unfold round. apply Qmake_le, nearest_mono.
  apply Qmult_le_compat_r; [assumption|]. unfold Qle; simpl; lia.
Qed.

Lemma round2_error (x : Q) : Qabs (round x 2 - x) <= 0.005.
Proof.
  unfold round. change (pow10 2) with 100%positive.
  pose proof (nearest_bounds (x * (100 # 1))) as [Hlo Hhi].
  set (n := nearest (x * (100 # 1))) in *.
  rewrite (Qmake_scale n 100).
  apply Qabs_case; intros _; lra.
Qed.

End Rounding.

(** ** The generated day *)

Section GeneratedDay.

Local Open Scope Q_scope.

Variables solarCurve homeCurve : Z -> Z -> Q.

Lemma clamp_range (value lo hi : Q) :
  lo <= hi -> lo <= clamp value lo hi /\ clamp value lo hi <= hi.
Proof.
  intro H. unfold clamp.
  destruct (Q.max_spec lo value) as [[? Emax] | [? Emax]];
    destruct (Q.min_spec hi (Qmax lo value)) as [[? Emin] | [? Emin]];
    rewrite Emin; rewrite ?Emax in *; split; lra.
Qed.

Lemma round1_range (x lo hi : Q) :
  round lo 1 == lo -> round hi 1 == hi ->
  lo <= x <= hi -> lo <= round x 1 <= hi.
Proof.
  intros Hlo Hhi [H1 H2]. split.
  - rewrite <- Hlo. now apply round_mono.
  - rewrite <- Hhi. now apply round_mono.
Qed.

(** A property of what each turn of the loop pushes holds of the whole day. *)
Lemma storyLoop_Forall (P : StorySample -> Prop) :
  (forall index soc, P (fst (storyStep solarCurve homeCurve index soc))) ->
  forall count index soc,
    Forall P (storyLoop solarCurve homeCurve count index soc).
Proof.
  intros Hstep count. induction count as [|count IH]; intros index soc;
    cbn [storyLoop].
  - constructor.
  - pose proof (Hstep index soc) as Hhead.
    destruct (storyStep solarCurve homeCurve index soc) as [sample soc'].
    constructor; [exact Hhead | apply IH].
Qed.

Lemma storyStep_soc (index : Z) (soc : Q) :
  let '(sample, soc') := storyStep solarCurve homeCurve index soc in
  soc' = clamp (soc + ((batteryKw sample * ((5 # 1) / 60)) / 13.5) * 100)
               (backupReservePct storyDayContext) 100
  /\ socPct sample = round soc' 1.
Proof.
  split; reflexivity.
Qed.

End GeneratedDay.

(** X3. The day has its 288 samples, one every five minutes from
    midnight, whatever the two curves. *)
Lemma generated_day_timestamps (solarCurve homeCurve : Z -> Z -> Q) :
  map ts (buildStoryDaySamples solarCurve homeCurve)
  = map (fun k => 5 * Z.of_nat k) (seq 0 288).
Proof.
  reflexivity.
Qed.

(** C1. Every sample of the generated day satisfies the power balance
    within 0.01 kW: the stored grid power differs from
    [homeKw - solarKw + batteryKw], taken on the stored (rounded) components,
    by at most 0.01. *)
Theorem generated_power_balance (solarCurve homeCurve : Z -> Z -> Q) :
  Forall (fun sample =>
            (Qabs (gridKw sample
                   - (homeKw sample - solarKw sample + batteryKw sample))
             <= 0.01)%Q)
    (buildStoryDaySamples solarCurve homeCurve).
Proof.
  apply storyLoop_Forall. intros index soc.
  cbn [storyStep fst gridKw homeKw solarKw batteryKw].
  eapply Qle_trans; [apply round2_error | discriminate].
Qed.

(** C2. Every sample of the generated day has its state of charge within
    [reservePct, 100], where reservePct is the backup reserve of the context,
    30: each turn of the loop adds the battery power integrated over the
    5-minute step, clamps the sum into that interval and stores it rounded to
    one decimal. *)
Theorem generated_soc_in_range (solarCurve homeCurve : Z -> Z -> Q) :
  backupReservePct storyDayContext = 30%Q
  /\ Forall (fun sample =>
               (backupReservePct storyDayContext <= socPct sample
                /\ socPct sample <= 100)%Q)
       (buildStoryDaySamples solarCurve homeCurve)
  /\ forall index soc,
       let '(sample, soc') := storyStep solarCurve homeCurve index soc in
       soc' = clamp (soc + ((batteryKw sample * ((5 # 1) / 60)) / 13.5) * 100)%Q
                    (backupReservePct storyDayContext) 100
       /\ socPct sample = round soc' 1.
Proof.
  split; [reflexivity|]. split.
  - apply storyLoop_Forall. intros index soc.
    pose proof (storyStep_soc solarCurve homeCurve index soc) as H.
    destruct (storyStep solarCurve homeCurve index soc) as [sample soc'].
    destruct H as [Hsoc Hstored]. cbn [fst]. rewrite Hstored.
    apply round1_range; [reflexivity | reflexivity |].
    rewrite Hsoc. apply clamp_range. discriminate.
  - intros index soc. apply storyStep_soc.
Qed.

(** ** Window selection and summary *)

Lemma filter_idempotent {A : Type} (f : A -> bool) (l : list A) :
  filter f (filter f l) = filter f l.
Proof.
  induction l as [|x l IH]; simpl; [reflexivity|].
  destruct (f x) eqn:E; simpl; rewrite ?E, IH; reflexivity.
Qed.

Lemma filter_Subsequence {A : Type} (f : A -> bool) (l : list A) :
  Subsequence (filter f l) l.
Proof.
  induction l as [|x l IH]; simpl; [constructor|].
  destruct (f x); now constructor.
Qed.

Lemma clampToStep_nearest (minute : Z) :
  Time.clampToStep minute 5 = snapToGrid minute.
Proof.
  unfold Time.clampToStep, snapToGrid.
  change (5 <=? 0) with false. cbv iota.
  unfold Qfloor, Qdiv, Qmult, Qplus, Qinv.
  cbn -[Z.mul Z.div Z.add].
  Z.to_euclidean_division_equations. lia.
Qed.

Lemma snapToGrid_aligned (minute : Z) :
  minute mod 5 = 0 -> snapToGrid minute = minute.
Proof.
  unfold snapToGrid. intro H. Z.to_euclidean_division_equations. lia.
Qed.

Lemma snappedBound_fixed (minute : Z) :
  minute mod 5 = 0 -> 0 <= minute <= 1440 -> snappedBound minute = minute.
Proof.
  intros Hgrid Hday. unfold snappedBound.
  rewrite snapToGrid_aligned by assumption. lia.
Qed.

Lemma clampZ_day (value : Z) :
  clampZ value 0 1440 = Z.max 0 (Z.min 1440 value).
Proof.
  unfold clampZ. lia.
Qed.

Lemma getSamplesInWindow_snapped (day : list StorySample) (startMin endMin : Z) :
  getSamplesInWindow day startMin endMin = snappedWindowFilter day startMin endMin.
Proof.
  unfold getSamplesInWindow, snappedWindowFilter, snappedBound.
  change SAMPLE_STEP_MINUTES with 5. change MINUTES_PER_DAY with 1440.
  rewrite !clampToStep_nearest, !clampZ_day. reflexivity.
Qed.

(** C7. [summarizeWindow] of the empty sample list is the summary whose
    eight fields are zero, whatever the context. *)
Theorem summarizeWindow_empty (context : ExplainContext) :
  summarizeWindow [] context =
  {| startSoc := 0; endSoc := 0; minSoc := 0; maxSoc := 0;
     totalGridImportKwhApprox := 0; totalGridExportKwhApprox := 0;
     totalBatteryChargeKwhApprox := 0; totalBatteryDischargeKwhApprox := 0 |}.
Proof.
  reflexivity.
Qed.

(** C8, as stated, fails for [getWindowSamples]: on the one sample at
    minute 0 the window from 0 to 2 keeps the sample, while the snapped
    bounds, 0 and 0, keep nothing. *)
Lemma getWindowSamples_not_snapped :
  getWindowSamples [sampleAt 0 0 0] 0 2
  <> snappedWindowFilter [sampleAt 0 0 0] 0 2.
Proof.
  discriminate.
Qed.

(** C8, amended. [getSamplesInWindow], which filters the generated day,
    snaps its bounds to the 5-minute grid and clamps them to the day before
    filtering, for all integer bounds. [getWindowSamples], which takes the
    sample list, filters by the bounds as given, put in order; it agrees
    with the snapped filter when both bounds are multiples of 5 within
    0..1440. *)
Theorem window_filter_snapping (day samples : list StorySample) (startMin endMin : Z) :
  getSamplesInWindow day startMin endMin = snappedWindowFilter day startMin endMin
  /\ getWindowSamples samples startMin endMin =
     filter (fun sample => (Z.min startMin endMin <=? ts sample)
                           && (ts sample <? Z.max startMin endMin)) samples
  /\ (startMin mod 5 = 0 -> endMin mod 5 = 0 ->
      0 <= startMin <= 1440 -> 0 <= endMin <= 1440 ->
      getWindowSamples samples startMin endMin =
      snappedWindowFilter samples startMin endMin).
Proof.
  split; [apply getSamplesInWindow_snapped|]. split; [reflexivity|].
  intros Hs He Hsd Hed. unfold snappedWindowFilter, getWindowSamples.
  rewrite !snappedBound_fixed by assumption. reflexivity.
Qed.

Lemma window_filter_snapping_witness :
  getWindowSamples [sampleAt 0 0 0; sampleAt 5 0 0; sampleAt 10 0 0] 5 10 =
  snappedWindowFilter [sampleAt 0 0 0; sampleAt 5 0 0; sampleAt 10 0 0] 5 10.
Proof.
  apply (window_filter_snapping [] [sampleAt 0 0 0; sampleAt 5 0 0; sampleAt 10 0 0] 5 10);
    try reflexivity; lia.
Defined.

(** C9. The window filter is idempotent, keeps the samples in their input
    order, and is symmetric in its bounds: swapped bounds give the result of
    the bounds in order. This holds of [getWindowSamples] and of
    [getSamplesInWindow]. *)
Theorem window_filter_algebra (samples : list StorySample) (startMin endMin : Z) :
  (getWindowSamples (getWindowSamples samples startMin endMin) startMin endMin
   = getWindowSamples samples startMin endMin
   /\ Subsequence (getWindowSamples samples startMin endMin) samples
   /\ getWindowSamples samples endMin startMin
      = getWindowSamples samples startMin endMin
   /\ getWindowSamples samples startMin endMin
      = getWindowSamples samples (Z.min startMin endMin) (Z.max startMin endMin))
  /\
  (getSamplesInWindow (getSamplesInWindow samples startMin endMin) startMin endMin
   = getSamplesInWindow samples startMin endMin
   /\ Subsequence (getSamplesInWindow samples startMin endMin) samples
   /\ getSamplesInWindow samples endMin startMin
      = getSamplesInWindow samples startMin endMin).
Proof.
  split; [split; [|split; [|split]] | split; [|split]].
  - apply filter_idempotent.
  - apply filter_Subsequence.
  - unfold getWindowSamples. now rewrite Z.min_comm, Z.max_comm.
  - unfold getWindowSamples.
    replace (Z.min (Z.min startMin endMin) (Z.max startMin endMin))
      with (Z.min startMin endMin) by lia.
    replace (Z.max (Z.min startMin endMin) (Z.max startMin endMin))
      with (Z.max startMin endMin) by lia.
    reflexivity.
  - apply filter_idempotent.
  - apply filter_Subsequence.
  - unfold getSamplesInWindow.
    now rewrite Z.min_comm, Z.max_comm.
Qed.

(** ** The timeline: from detections to events *)

Lemma Forall2_In_r {A B : Type} (R : A -> B -> Prop) (l : list A) (l' : list B) :
  Forall2 R l l' -> forall y, In y l' -> exists x, In x l /\ R x y.
Proof.
  induction 1 as [|x y l l' Hxy _ IH]; intros z Hz; [contradiction|].
  destruct Hz as [<- | Hz].
  - exists x. split; [now left | assumption].
  - destruct (IH z Hz) as [x' [Hin HR]]. exists x'. split; [now right | assumption].
Qed.

Lemma Forall2_In_l {A B : Type} (R : A -> B -> Prop) (l : list A) (l' : list B) :
  Forall2 R l l' -> forall x, In x l -> exists y, In y l' /\ R x y.
Proof.
  induction 1 as [|x y l l' Hxy _ IH]; intros z Hz; [contradiction|].
  destruct Hz as [<- | Hz].
  - exists y. split; [now left | assumption].
  - destruct (IH z Hz) as [y' [Hin HR]]. exists y'. split; [now right | assumption].
Qed.

Lemma insertByTs_Permutation (event : ExplainEvent) (sorted : list ExplainEvent) :
  Permutation (event :: sorted) (insertByTs event sorted).
Proof.
  induction sorted as [|next rest IH]; simpl; [reflexivity|].
  destruct (tsMin event <=? tsMin next); [reflexivity|].
  rewrite perm_swap. now constructor.
Qed.

Lemma sortByTs_Permutation (events : list ExplainEvent) :
  Permutation events (sortByTs events).
Proof.
  induction events as [|event rest IH]; simpl; [constructor|].
  rewrite <- insertByTs_Permutation. now constructor.
Qed.

(** What the first [map] keeps of a detection. *)
Definition normalizes (startMin endMin : Z) (raw : RawEvent) (event : ExplainEvent)
    : Prop :=
  title event = rawTitle raw /\ type event = rawType raw
  /\ whatHappened event = rawWhatHappened raw
  /\ reasons event = rawReasons raw
  /\ exists usedTs,
       tsMin event = ensureUniqueTimestamp (proposedTsMin raw) usedTs startMin endMin.

Lemma normalizeEvents_Forall2 (startMin endMin : Z) (rawEvents : list RawEvent) :
  forall index usedTs,
    Forall2 (normalizes startMin endMin) rawEvents
      (normalizeEvents rawEvents index usedTs startMin endMin).
Proof.
  induction rawEvents as [|raw rest IH]; intros index usedTs; simpl.
  - constructor.
  - constructor; [|apply IH].
    repeat split; try reflexivity. now exists usedTs.
Qed.

(** What the last [map] keeps of a normalized event. *)
Definition finishes (before after : ExplainEvent) : Prop :=
  tsMin after = tsMin before /\ title after = title before
  /\ type after = type before /\ whatHappened after = whatHappened before
  /\ reasons after = map (withEventTime (tsMin before)) (reasons before).

Lemma finishEvents_Forall2 (events : list ExplainEvent) :
  forall index, Forall2 finishes events (finishEvents events index).
Proof.
  induction events as [|event rest IH]; intros index; simpl; constructor.
  - repeat split; reflexivity.
  - apply IH.
Qed.

Lemma Forall2_length_eq {A B : Type} (R : A -> B -> Prop) l l' :
  Forall2 R l l' -> List.length l = List.length l'.
Proof.
  induction 1; simpl; congruence.
Qed.

Section TimelineFacts.

Local Open Scope Q_scope.

Variable numberToString : Q -> string.
Variable samplesAll : list StorySample.
Variable context : ExplainContext.
Variables startMin endMin : Z.

Let windowSamples := getWindowSamples samplesAll startMin endMin.
Let detected := detectedEvents numberToString samplesAll context startMin endMin.
Let raws := rawEvents numberToString samplesAll context startMin endMin.
Let timeline := buildExplainTimeline numberToString samplesAll context startMin endMin.

Lemma peakEvents_length :
  (List.length (peakEvents numberToString samplesAll context startMin endMin) <= 1)%nat.
Proof.
  unfold peakEvents. destruct (overlaps _); simpl; lia.
Qed.

Lemma stormEvents_length :
  (List.length (stormEvents numberToString samplesAll context startMin endMin) <= 1)%nat.
Proof.
  unfold stormEvents. destruct (_ && _); simpl; lia.
Qed.

Lemma exportEvents_length :
  (List.length (exportEvents numberToString samplesAll context startMin endMin) <= 1)%nat.
Proof.
  unfold exportEvents. destruct (hasConsecutiveGridExport _ _); simpl; lia.
Qed.

(** Net charging, net discharging and holding steady exclude each other. *)
Lemma battery_events_length :
  (List.length (chargeEvents numberToString samplesAll context startMin endMin)
   + List.length (dischargeEvents numberToString samplesAll context startMin endMin)
   + List.length (holdEvents numberToString samplesAll context startMin endMin)
   <= 1)%nat.
Proof.
  unfold chargeEvents, dischargeEvents, holdEvents.
  set (avg := average (getWindowSamples samplesAll startMin endMin) batteryKw).
  destruct (Qltb 0.4 avg) eqn:Ec, (Qltb avg (- 0.4)) eqn:Ed,
    (Qltb (Qabs avg) 0.25) eqn:Eh;
    rewrite ?Qltb_lt in *; cbn [andb]; try (simpl; lia);
    try (exfalso; lra);
    try (exfalso; revert Eh; apply Qabs_case; intros; lra).
  all: match goal with |- context [if ?cond then _ else _] => destruct cond end;
    simpl; lia.
Qed.

Lemma detected_length : (List.length detected <= 4)%nat.
Proof.
  unfold detected, detectedEvents. rewrite !length_app.
  pose proof peakEvents_length. pose proof stormEvents_length.
  pose proof exportEvents_length. pose proof battery_events_length. lia.
Qed.

Lemma raws_length : (1 <= List.length raws <= 4)%nat.
Proof.
  pose proof detected_length as H. unfold raws, rawEvents. fold detected.
  destruct (List.length detected =? 0)%nat eqn:E.
  - simpl. lia.
  - apply Nat.eqb_neq in E. lia.
Qed.

Lemma timeline_empty_window : windowSamples = [] -> timeline = [].
Proof.
  unfold timeline, buildExplainTimeline. fold windowSamples.
  intros ->. reflexivity.
Qed.

(** On a window with samples the timeline holds one event for each
    detection, and nothing else. *)
Lemma timeline_realises :
  windowSamples <> [] ->
  List.length timeline = List.length raws
  /\ (forall event, In event timeline ->
        exists raw, In raw raws /\ realises startMin endMin event raw)
  /\ (forall raw, In raw raws ->
        exists event, In event timeline /\ realises startMin endMin event raw).
Proof.
  intro Hwindow.
  pose proof (normalizeEvents_Forall2 startMin endMin raws 0%Z ZSet.empty) as Hnorm.
  set (normalized := normalizeEvents raws 0%Z ZSet.empty startMin endMin) in *.
  pose proof (sortByTs_Permutation normalized) as Hperm.
  pose proof (finishEvents_Forall2 (sortByTs normalized) 0%Z) as Hfinish.
  assert (Hlen : List.length (sortByTs normalized) = List.length raws).
  { rewrite <- (Permutation_length Hperm).
    symmetry. exact (Forall2_length_eq _ _ _ Hnorm). }
  assert (Htimeline : timeline = finishEvents (sortByTs normalized) 0%Z).
  { unfold timeline, buildExplainTimeline. fold windowSamples.
    destruct windowSamples; [contradiction|]. cbn [List.length Nat.eqb].
    fold raws. fold normalized.
    rewrite firstn_all2; [reflexivity|].
    pose proof raws_length. unfold MAX_EVENTS. lia. }
  rewrite Htimeline. split; [|split].
  - rewrite <- (Forall2_length_eq _ _ _ Hfinish). exact Hlen.
  - intros event Hin.
    destruct (Forall2_In_r _ _ _ Hfinish event Hin) as [mid [Hmid Hf]].
    apply (Permutation_in _ (Permutation_sym Hperm)) in Hmid.
    destruct (Forall2_In_r _ _ _ Hnorm mid Hmid) as [raw [Hraw Hn]].
    exists raw. split; [assumption|].
    destruct Hf as (Hts & Ht & Hty & Hw & Hr).
    destruct Hn as (Ht' & Hty' & Hw' & Hr' & used & Hu).
    unfold realises. rewrite Ht, Hty, Hw, Hr, Hts, Ht', Hty', Hw', Hr'.
    repeat split. exists used. exact Hu.
  - intros raw Hraw.
    destruct (Forall2_In_l _ _ _ Hnorm raw Hraw) as [mid [Hmid Hn]].
    apply (Permutation_in _ Hperm) in Hmid.
    destruct (Forall2_In_l _ _ _ Hfinish mid Hmid) as [event [Hin Hf]].
    exists event. split; [assumption|].
    destruct Hf as (Hts & Ht & Hty & Hw & Hr).
    destruct Hn as (Ht' & Hty' & Hw' & Hr' & used & Hu).
    unfold realises. rewrite Ht, Hty, Hw, Hr, Hts, Ht', Hty', Hw', Hr'.
    repeat split. exists used. exact Hu.
Qed.

End TimelineFacts.

(** ** Timestamps *)

Lemma probeForward_unfold (usedTs : ZSet.t) (upperBound ts : Z) :
  probeForward usedTs upperBound ts =
  if ZSet.mem ts usedTs && (ts <=? upperBound)
  then probeForward usedTs upperBound (ts + 5)
  else ts.
Proof.
  funelim (probeForward usedTs upperBound ts);
    match goal with E : _ && _ = _ |- _ => rewrite E end; reflexivity.
Qed.

Lemma probeBackward_unfold (usedTs : ZSet.t) (startMin ts : Z) :
  probeBackward usedTs startMin ts =
  if ZSet.mem ts usedTs && (startMin <=? ts)
  then probeBackward usedTs startMin (ts - 5)
  else ts.
Proof.
  funelim (probeBackward usedTs startMin ts);
    match goal with E : _ && _ = _ |- _ => rewrite E end; reflexivity.
Qed.

Lemma clampZ_range (value lo hi : Z) : lo <= hi -> lo <= clampZ value lo hi <= hi.
Proof.
  unfold clampZ. lia.
Qed.

Lemma ensureUniqueTimestamp_range (proposedTs : Z) (usedTs : ZSet.t)
    (startMin endMin : Z) :
  startMin <= ensureUniqueTimestamp proposedTs usedTs startMin endMin
           <= Z.max startMin (endMin - 5).
Proof.
  unfold ensureUniqueTimestamp. apply clampZ_range. lia.
Qed.

(** A free timestamp is kept: the two loops do not run. *)
Lemma ensureUniqueTimestamp_free (proposedTs : Z) (usedTs : ZSet.t)
    (startMin endMin : Z) :
  ZSet.mem (clampZ proposedTs startMin (Z.max startMin (endMin - 5))) usedTs = false ->
  ensureUniqueTimestamp proposedTs usedTs startMin endMin
  = clampZ proposedTs startMin (Z.max startMin (endMin - 5)).
Proof.
  intro Hfree. unfold ensureUniqueTimestamp.
  rewrite probeForward_unfold, Hfree. cbn [andb].
  rewrite probeBackward_unfold, Hfree. cbn [andb].
  unfold clampZ. lia.
Qed.

(** ** The detections *)

Definition capped (reason : ExplainReason) : Prop :=
  (List.length (evidence reason) <= 3)%nat.

Lemma buildReason_capped code lines chosen : capped (buildReason code lines chosen).
Proof.
  unfold capped, buildReason. cbn [evidence]. apply firstn_le_length.
Qed.

Create HintDb timeline.
#[local] Hint Resolve buildReason_capped : timeline.

Ltac split_if_in H :=
  match type of H with
  | context [if ?cond then _ else _] => destruct cond eqn:?
  | context [match ?scrutinee with Some _ => _ | None => _ end] =>
      destruct scrutinee eqn:?
  end.

Ltac one_detection H :=
  repeat split_if_in H; cbn [In app List.length Nat.eqb] in H;
  repeat match type of H with
         | _ \/ _ => destruct H as [H | H]
         | False => contradiction
         end.

Section Detections.

Local Open Scope Q_scope.

Variable numberToString : Q -> string.
Variable samplesAll : list StorySample.
Variable context : ExplainContext.
Variables startMin endMin : Z.

Let windowSamples := getWindowSamples samplesAll startMin endMin.
Let raws := rawEvents numberToString samplesAll context startMin endMin.

Lemma raws_cases (raw : RawEvent) :
  In raw raws ->
  In raw (peakEvents numberToString samplesAll context startMin endMin)
  \/ In raw (stormEvents numberToString samplesAll context startMin endMin)
  \/ In raw (chargeEvents numberToString samplesAll context startMin endMin)
  \/ In raw (dischargeEvents numberToString samplesAll context startMin endMin)
  \/ In raw (exportEvents numberToString samplesAll context startMin endMin)
  \/ In raw (holdEvents numberToString samplesAll context startMin endMin)
  \/ raw = fallbackEvent numberToString samplesAll context startMin endMin.
Proof.
  unfold raws, rawEvents.
  destruct (List.length _ =? 0)%nat; intro H.
  - destruct H as [<- | []]. tauto.
  - unfold detectedEvents in H. rewrite !in_app_iff in H. tauto.
Qed.

Lemma exportEvents_in_raws (raw : RawEvent) :
  In raw (exportEvents numberToString samplesAll context startMin endMin) ->
  In raw raws.
Proof.
  intro H. unfold raws, rawEvents.
  assert (Hin : In raw (detectedEvents numberToString samplesAll context
                          startMin endMin)).
  { unfold detectedEvents. rewrite !in_app_iff. tauto. }
  destruct (detectedEvents numberToString samplesAll context startMin endMin);
    [contradiction | exact Hin].
Qed.

Lemma raws_capped (raw : RawEvent) (reason : ExplainReason) :
  In raw raws -> In reason (rawReasons raw) -> capped reason.
Proof.
  intros Hraw Hreason. apply raws_cases in Hraw.
  destruct Hraw as [H | [H | [H | [H | [H | [H | H]]]]]].
  - unfold peakEvents in H. one_detection H; subst raw;
      cbn [rawReasons In] in Hreason; destruct Hreason as [<- | []];
      auto with timeline.
  - unfold stormEvents in H. one_detection H; subst raw;
      cbn [rawReasons In] in Hreason; destruct Hreason as [<- | []];
      auto with timeline.
  - unfold chargeEvents in H. one_detection H; subst raw;
      cbn [rawReasons] in Hreason; unfold chargeReasons in Hreason;
      one_detection Hreason; subst reason; auto with timeline.
  - unfold dischargeEvents in H. one_detection H; subst raw;
      cbn [rawReasons] in Hreason; unfold dischargeReasons in Hreason;
      one_detection Hreason; subst reason; auto with timeline.
  - unfold exportEvents in H. one_detection H; subst raw;
      cbn [rawReasons In] in Hreason; destruct Hreason as [<- | []];
      auto with timeline.
  - unfold holdEvents in H. one_detection H; subst raw;
      cbn [rawReasons In] in Hreason; destruct Hreason as [<- | []];
      auto with timeline.
  - subst raw. cbn [fallbackEvent rawReasons In] in Hreason.
    destruct Hreason as [<- | []]. auto with timeline.
Qed.

(** The reasons of the two battery events are built with two evidence
    lines, all others with three. *)
Lemma raws_evidence_count (raw : RawEvent) (reason : ExplainReason) :
  In raw raws -> In reason (rawReasons raw) ->
  List.length (evidence reason)
  = match rawType raw with EvBattery => 2%nat | _ => 3%nat end.
Proof.
  intros Hraw Hreason. apply raws_cases in Hraw.
  destruct Hraw as [H | [H | [H | [H | [H | [H | H]]]]]].
  - unfold peakEvents in H. one_detection H; subst raw;
      cbn [rawReasons In] in Hreason; destruct Hreason as [<- | []];
      reflexivity.
  - unfold stormEvents in H. one_detection H; subst raw;
      cbn [rawReasons In] in Hreason; destruct Hreason as [<- | []];
      reflexivity.
  - unfold chargeEvents in H. one_detection H; subst raw;
      cbn [rawReasons] in Hreason; unfold chargeReasons in Hreason;
      one_detection Hreason; subst reason; reflexivity.
  - unfold dischargeEvents in H. one_detection H; subst raw;
      cbn [rawReasons] in Hreason; unfold dischargeReasons in Hreason;
      one_detection Hreason; subst reason; reflexivity.
  - unfold exportEvents in H. one_detection H; subst raw;
      cbn [rawReasons In] in Hreason; destruct Hreason as [<- | []];
      reflexivity.
  - unfold holdEvents in H. one_detection H; subst raw;
      cbn [rawReasons In] in Hreason; destruct Hreason as [<- | []];
      reflexivity.
  - subst raw. cbn [fallbackEvent rawReasons In] in Hreason.
    destruct Hreason as [<- | []]. reflexivity.
Qed.

(** Only the export-run detector gives the title "Exporting to grid". *)
Lemma export_title_only (raw : RawEvent) :
  In raw raws -> rawTitle raw = "Exporting to grid" ->
  In raw (exportEvents numberToString samplesAll context startMin endMin).
Proof.
  intros Hraw Htitle. apply raws_cases in Hraw.
  destruct Hraw as [H | [H | [H | [H | [H | [H | H]]]]]]; [| | | |exact H| |].
  - unfold peakEvents in H. one_detection H; subst raw; discriminate.
  - unfold stormEvents in H. one_detection H; subst raw; discriminate.
  - unfold chargeEvents in H. one_detection H; subst raw; discriminate.
  - unfold dischargeEvents in H. one_detection H; subst raw; discriminate.
  - unfold holdEvents in H. one_detection H; subst raw; discriminate.
  - subst raw. discriminate.
Qed.

End Detections.

(** ** The export-run scan *)

Lemma exportingb_spec (sample : StorySample) :
  exportingb sample = true <-> exporting sample.
Proof.
  apply Qltb_lt.
Qed.

Lemma firstRunStart_skip (x : StorySample) (rest : list StorySample) :
  exportingb x = false -> firstRunStart (x :: rest) = firstRunStart rest.
Proof.
  intro Ex. cbn [firstRunStart]. now rewrite Ex.
Qed.

Lemma firstRunStart_skip2 (a x : StorySample) (rest : list StorySample) :
  exportingb x = false -> firstRunStart (a :: x :: rest) = firstRunStart rest.
Proof.
  intro Ex. rewrite <- (firstRunStart_skip x rest Ex).
  change (firstRunStart (a :: x :: rest))
    with (if exportingb a
             && match rest with
                | c :: _ => exportingb x && exportingb c
                | [] => false
                end
          then Some (ts a) else firstRunStart (x :: rest)).
  destruct rest; rewrite ?Ex, ?andb_false_r; reflexivity.
Qed.

(** The counters of the loop stand for the exporting samples just read. *)
Lemma exportScan_carry (samples carried : list StorySample) :
  Forall (fun sample => exportingb sample = true) carried ->
  (List.length carried <= 2)%nat ->
  exportScan samples 3 (Z.of_nat (List.length carried))
    (option_map ts (hd_error carried))
  = firstRunStart (carried ++ samples)%list.
Proof.
  revert carried. induction samples as [|x rest IH]; intros carried Hall Hlen.
  - rewrite app_nil_r.
    destruct carried as [|a [|b [|c more]]]; cbn in *; try lia;
      rewrite ?andb_false_r; reflexivity.
  - cbn [exportScan]. fold (exportingb x).
    destruct (exportingb x) eqn:Ex.
    + destruct carried as [|a [|b [|c more]]]; cbn in Hlen; try lia.
      * apply (IH [x]); [repeat constructor; assumption | simpl; lia].
      * apply (IH [a; x]); [|simpl; lia].
        inversion Hall; subst. repeat constructor; assumption.
      * inversion Hall as [|? ? Ha Hall']; subst.
        inversion Hall' as [|? ? Hb _]; subst.
        cbn. rewrite Ha, Hb, Ex. reflexivity.
    + pose proof (IH [] (Forall_nil _) (Nat.le_0_l 2)) as Hrest.
      cbn in Hrest. rewrite Hrest.
      destruct carried as [|a [|b [|c more]]]; cbn in Hlen; try lia.
      * symmetry. now apply firstRunStart_skip.
      * symmetry. now apply firstRunStart_skip2.
      * symmetry.
        change (firstRunStart ([a; b] ++ x :: rest))
          with (if exportingb a && (exportingb b && exportingb x)
                then Some (ts a) else firstRunStart (b :: x :: rest)).
        rewrite Ex, !andb_false_r. now apply firstRunStart_skip2.
Qed.

Lemma hasConsecutiveGridExport_firstRunStart (samples : list StorySample) :
  hasConsecutiveGridExport samples 3 = firstRunStart samples.
Proof.
  apply (exportScan_carry samples []); [constructor | simpl; lia].
Qed.

Lemma exportRunAt_head (a : StorySample) (rest : list StorySample) :
  exportRunAt (a :: rest) 0
  <-> exportingb a
      && match rest with
         | b :: c :: _ => exportingb b && exportingb c
         | _ => false
         end = true.
Proof.
  split.
  - intros (a' & b & c & Ha & Hb & Hc & Ea & Eb & Ec).
    cbn in Ha. injection Ha as <-.
    destruct rest as [|b' [|c' more]]; cbn in Hb, Hc; try discriminate.
    injection Hb as <-. injection Hc as <-.
    apply exportingb_spec in Ea, Eb, Ec. now rewrite Ea, Eb, Ec.
  - intro H. apply andb_prop in H as [Ea H].
    destruct rest as [|b [|c more]]; try discriminate.
    apply andb_prop in H as [Eb Ec].
    exists a, b, c. rewrite <- !exportingb_spec. cbn. tauto.
Qed.

Lemma firstRunStart_spec (samples : list StorySample) :
  match firstRunStart samples with
  | Some t => exists first, firstExportRun samples first /\ ts first = t
  | None => forall i, ~ exportRunAt samples i
  end.
Proof.
  induction samples as [|a rest IH].
  - intros i (x & _ & _ & Hx & _). destruct i; discriminate.
  - cbn [firstRunStart].
    pose proof (exportRunAt_head a rest) as Hhead.
    destruct (exportingb a && _) eqn:E.
    + exists a. split; [|reflexivity].
      exists 0%nat. split; [now apply Hhead|]. split; [reflexivity|]. lia.
    + assert (Hno : ~ exportRunAt (a :: rest) 0)
        by (rewrite Hhead; discriminate).
      destruct (firstRunStart rest) as [t|].
      * destruct IH as (first & (i & Hrun & Hnth & Hleast) & Hts).
        exists first. split; [|exact Hts].
        exists (S i). split; [exact Hrun|]. split; [exact Hnth|].
        intros [|j] Hj; [exact Hno|]. apply (Hleast j). lia.
      * intros [|i]; [exact Hno | apply (IH i)].
Qed.

(** ** Events of the timeline *)

Section TimelineEvents.

Local Open Scope Q_scope.

Variable numberToString : Q -> string.
Variable samplesAll : list StorySample.
Variable context : ExplainContext.
Variables startMin endMin : Z.

Let windowSamples := getWindowSamples samplesAll startMin endMin.
Let raws := rawEvents numberToString samplesAll context startMin endMin.
Let timeline := buildExplainTimeline numberToString samplesAll context startMin endMin.

Lemma exportEvents_run (raw : RawEvent) :
  In raw (exportEvents numberToString samplesAll context startMin endMin) ->
  exists first,
    firstExportRun windowSamples first
    /\ proposedTsMin raw = ts first
    /\ rawTitle raw = "Exporting to grid"
    /\ rawType raw = EvGrid
    /\ exists reason,
         rawReasons raw = [reason] /\ code reason = EXPORTING_SURPLUS
         /\ confidence reason =
              if Qltb 0.5 (totalGridExportKwhApprox
                             (summarizeWindow windowSamples context))
              then High else Medium.
Proof.
  unfold exportEvents. fold windowSamples.
  rewrite hasConsecutiveGridExport_firstRunStart.
  pose proof (firstRunStart_spec windowSamples) as Hspec.
  destruct (firstRunStart windowSamples) as [t|]; [|contradiction].
  intros [<- | []]. destruct Hspec as (first & Hfirst & Hts).
  exists first. cbn [proposedTsMin rawTitle rawType rawReasons].
  repeat split; try assumption; [now symmetry|].
  eexists. split; [reflexivity|]. split; reflexivity.
Qed.

Lemma run_exportEvents (i : nat) :
  exportRunAt windowSamples i ->
  exists raw, In raw (exportEvents numberToString samplesAll context startMin endMin).
Proof.
  intro Hrun. unfold exportEvents. fold windowSamples.
  rewrite hasConsecutiveGridExport_firstRunStart.
  pose proof (firstRunStart_spec windowSamples) as Hspec.
  destruct (firstRunStart windowSamples) as [t|].
  - eexists. left. reflexivity.
  - exfalso. exact (Hspec i Hrun).
Qed.

Lemma export_event_details (event : ExplainEvent) :
  In event timeline -> title event = "Exporting to grid" ->
  exists first raw reason,
    firstExportRun windowSamples first
    /\ In raw raws
    /\ proposedTsMin raw = ts first
    /\ realises startMin endMin event raw
    /\ type event = EvGrid
    /\ reasons event = [reason]
    /\ code reason = EXPORTING_SURPLUS
    /\ confidence reason =
         if Qltb 0.5 (totalGridExportKwhApprox
                        (summarizeWindow windowSamples context))
         then High else Medium.
Proof.
  intros Hin Htitle.
  assert (Hwindow : windowSamples <> []).
  { intro Hnil. unfold timeline in Hin.
    rewrite timeline_empty_window in Hin by exact Hnil. contradiction. }
  destruct (timeline_realises numberToString samplesAll context startMin endMin
              Hwindow) as (_ & Hto & _).
  destruct (Hto event Hin) as (raw & Hraw & Hreal).
  pose proof Hreal as (Ht & Hty & _ & Hr & _).
  assert (Hexp : In raw (exportEvents numberToString samplesAll context
                           startMin endMin)).
  { apply export_title_only; [exact Hraw | congruence]. }
  destruct (exportEvents_run raw Hexp)
    as (first & Hfirst & Hts & _ & Hrty & built & Hbuilt & Hcode & Hconf).
  exists first, raw, (withEventTime (tsMin event) built).
  split; [exact Hfirst|]. split; [exact Hraw|]. split; [exact Hts|].
  split; [exact Hreal|]. split; [congruence|].
  split; [rewrite Hr, Hbuilt; reflexivity|].
  split; [exact Hcode | exact Hconf].
Qed.

Lemma export_event_iff_run :
  (exists i, exportRunAt windowSamples i)
  <-> exists event, In event timeline /\ title event = "Exporting to grid".
Proof.
  split.
  - intros [i Hrun].
    assert (Hwindow : windowSamples <> []).
    { intro Hnil. rewrite Hnil in Hrun.
      destruct Hrun as (a & _ & _ & Ha & _). destruct i; discriminate. }
    destruct (run_exportEvents i Hrun) as [raw Hexp].
    destruct (timeline_realises numberToString samplesAll context startMin endMin
                Hwindow) as (_ & _ & Hfrom).
    destruct (Hfrom raw (exportEvents_in_raws _ _ _ _ _ raw Hexp))
      as (event & Hin & Hreal).
    exists event. split; [exact Hin|].
    destruct Hreal as (Ht & _). rewrite Ht.
    destruct (exportEvents_run raw Hexp) as (_ & _ & _ & Htitle & _).
    exact Htitle.
  - intros (event & Hin & Htitle).
    destruct (export_event_details event Hin Htitle)
      as (first & _ & _ & (i & Hrun & _) & _).
    now exists i.
Qed.

(** The evidence of a reason of the timeline: the lines the detector gave
    it, then the event time line, cut at three. *)
Lemma timeline_evidence (event : ExplainEvent) (reason : ExplainReason) :
  In event timeline -> In reason (reasons event) ->
  exists raw built,
    In raw raws /\ realises startMin endMin event raw
    /\ In built (rawReasons raw)
    /\ code reason = code built /\ confidence reason = confidence built
    /\ evidence reason
       = firstn 3 (evidence built ++ [eventTimeLine (tsMin event)])%list.
Proof.
  intros Hin Hreason.
  assert (Hwindow : windowSamples <> []).
  { intro Hnil. unfold timeline in Hin.
    rewrite timeline_empty_window in Hin by exact Hnil. contradiction. }
  destruct (timeline_realises numberToString samplesAll context startMin endMin
              Hwindow) as (_ & Hto & _).
  destruct (Hto event Hin) as (raw & Hraw & Hreal).
  pose proof Hreal as (_ & _ & _ & Hr & _).
  rewrite Hr in Hreason. apply in_map_iff in Hreason as (built & <- & Hbuilt).
  exists raw, built.
  split; [exact Hraw|]. split; [exact Hreal|]. split; [exact Hbuilt|].
  repeat split.
Qed.

(** With no detection the timeline is the fallback event, at the window
    start. *)
Lemma timeline_fallback :
  windowSamples <> [] ->
  detectedEvents numberToString samplesAll context startMin endMin = [] ->
  exists event,
    timeline = [event]
    /\ title event = "Stable operation" /\ type event = EvInfo
    /\ tsMin event = startMin
    /\ realises startMin endMin event
         (fallbackEvent numberToString samplesAll context startMin endMin).
Proof.
  intros Hwindow Hnone.
  assert (Hts : ensureUniqueTimestamp startMin ZSet.empty startMin endMin = startMin).
  { rewrite ensureUniqueTimestamp_free by reflexivity. unfold clampZ. lia. }
  unfold timeline, buildExplainTimeline, rawEvents. fold windowSamples.
  rewrite Hnone. destruct windowSamples; [contradiction|].
  cbn [List.length Nat.eqb normalizeEvents sortByTs fold_right insertByTs
       MAX_EVENTS firstn finishEvents].
  eexists. split; [reflexivity|].
  cbn [title type tsMin whatHappened reasons fallbackEvent proposedTsMin rawTitle
       rawType].
  split; [reflexivity|]. split; [reflexivity|]. split; [exact Hts|].
  repeat split. exists ZSet.empty. reflexivity.
Qed.

End TimelineEvents.

Lemma firstn_3_appended {A : Type} (lines : list A) (line : A) :
  (List.length lines <= 3)%nat ->
  (List.length (firstn 3 (lines ++ [line])%list) <= 3)%nat
  /\ ((List.length lines < 3)%nat -> firstn 3 (lines ++ [line])%list = (lines ++ [line])%list)
  /\ (List.length lines = 3%nat -> firstn 3 (lines ++ [line])%list = lines).
Proof.
  intro Hcap. destruct lines as [|a [|b [|c [|d more]]]]; cbn in *;
    repeat split; intros; try reflexivity; lia.
Qed.

Section ExportTotal.

Local Open Scope Q_scope.

(** The export total of the summary loop is the exported energy. *)
Lemma summarize_gridExport (samples : list StorySample) :
  forall vars : SummaryVars,
    gridExport (fold_left summarizeStep samples vars)
    == gridExport vars + gridExportKwh samples.
Proof.
  induction samples as [|sample rest IH]; intro vars;
    cbn [fold_left gridExportKwh fold_right].
  - lra.
  - rewrite IH. cbn [summarizeStep gridExport]. fold (gridExportKwh rest). lra.
Qed.

(** The confidence test of the export reason against the exported energy:
    the total is rounded to two decimals before it is compared with 0.5. *)
Lemma export_total_threshold (samples : list StorySample) (context : ExplainContext) :
  (0.506 <= gridExportKwh samples ->
   Qltb 0.5 (totalGridExportKwhApprox (summarizeWindow samples context)) = true)
  /\ (gridExportKwh samples <= 0.504 ->
      Qltb 0.5 (totalGridExportKwhApprox (summarizeWindow samples context)) = false).
Proof.
  destruct samples as [|first rest].
  - split; intro H; [|reflexivity].
    cbn [gridExportKwh fold_right] in H. lra.
  - unfold summarizeWindow. cbn [totalGridExportKwhApprox].
    pose proof (summarize_gridExport (first :: rest)
                  {| gridImport := 0; gridExport := 0; batteryCharge := 0;
                     batteryDischarge := 0; runMinSoc := None;
                     runMaxSoc := None |}) as Htotal.
    cbn [gridExport] in Htotal.
    set (total := gridExport (fold_left summarizeStep (first :: rest) _)) in *.
    set (exported := gridExportKwh (first :: rest)) in *.
    clearbody total exported. split; intro H.
    + apply Qltb_lt. apply Qlt_le_trans with (round 0.506 2); [reflexivity|].
      apply round_mono. lra.
    + apply Qltb_ge. apply Qle_trans with (round 0.504 2); [|discriminate].
      apply round_mono. lra.
Qed.

End ExportTotal.

(** C5, as stated, fails: fifteen minutes exporting 2.01 kW export 0.5025
    kWh, more than 0.5 kWh, and the reason of the export event has
    confidence Medium. *)
Lemma export_confidence_medium_above_half :
  exists event reason,
    buildExplainTimeline decimalToString exportEdgeDay storyDayContext 600 615
    = [event]
    /\ title event = "Exporting to grid"
    /\ reasons event = [reason]
    /\ code reason = EXPORTING_SURPLUS
    /\ (0.5 < gridExportKwh (getWindowSamples exportEdgeDay 600 615))%Q
    /\ confidence reason = Medium.
Proof.
  eexists _, _. split; [vm_compute; reflexivity|].
  repeat split; reflexivity.
Qed.

(** C5, amended. The timeline holds an event titled "Exporting to grid" if
    and only if the samples of the window contain three consecutive samples
    with grid power below -0.6 kW. The detection behind that event proposes
    the timestamp of the first sample of the first such run; the event has
    type grid and one reason, of code EXPORTING_SURPLUS, whose confidence
    is High or Medium: High when the energy exported over the window is
    0.506 kWh or more, Medium when it is 0.504 kWh or less. The energy is
    rounded to two decimals before it is compared with 0.5, so the switch is
    at 0.505 kWh, not at 0.5. *)
Theorem export_event_for_export_run (numberToString : Q -> string)
    (samplesAll : list StorySample) (context : ExplainContext)
    (startMin endMin : Z) :
  let windowSamples := getWindowSamples samplesAll startMin endMin in
  let timeline :=
    buildExplainTimeline numberToString samplesAll context startMin endMin in
  ((exists i, exportRunAt windowSamples i)
   <-> exists event, In event timeline /\ title event = "Exporting to grid")
  /\ forall event,
       In event timeline -> title event = "Exporting to grid" ->
       exists first raw reason,
         firstExportRun windowSamples first
         /\ In raw (rawEvents numberToString samplesAll context startMin endMin)
         /\ proposedTsMin raw = ts first
         /\ realises startMin endMin event raw
         /\ type event = EvGrid
         /\ reasons event = [reason]
         /\ code reason = EXPORTING_SURPLUS
         /\ (confidence reason = High \/ confidence reason = Medium)
         /\ ((0.506 <= gridExportKwh windowSamples)%Q -> confidence reason = High)
         /\ ((gridExportKwh windowSamples <= 0.504)%Q -> confidence reason = Medium).
Proof.
  intros windowSamples timeline. split.
  - apply export_event_iff_run.
  - intros event Hin Htitle.
    destruct (export_event_details numberToString samplesAll context startMin
                endMin event Hin Htitle)
      as (first & raw & reason & Hfirst & Hraw & Hts & Hreal & Htype & Hreasons
          & Hcode & Hconfidence).
    exists first, raw, reason.
    split; [exact Hfirst|]. split; [exact Hraw|]. split; [exact Hts|].
    split; [exact Hreal|]. split; [exact Htype|]. split; [exact Hreasons|].
    split; [exact Hcode|].
    destruct (export_total_threshold windowSamples context) as [Hhigh Hmedium].
    fold windowSamples in Hconfidence.
    split; [|split].
    + rewrite Hconfidence. destruct (Qltb _ _); [now left | now right].
    + intro H. now rewrite Hconfidence, (Hhigh H).
    + intro H. now rewrite Hconfidence, (Hmedium H).
Qed.

Lemma export_event_for_export_run_witness :
  exists event,
    In event (buildExplainTimeline decimalToString exportingDay storyDayContext
                600 630)
    /\ title event = "Exporting to grid".
Proof.
  apply (export_event_for_export_run decimalToString exportingDay storyDayContext
           600 630).
  exists 0%nat. unfold exportRunAt, exporting.
  eexists _, _, _. repeat split; try reflexivity.
Defined.

(** C6, as stated, fails: the one event of this timeline has a reason built
    with three evidence lines, and its evidence after the post-processing
    is those three lines; the event time line is not among them. *)
Lemma time_label_dropped :
  exists event reason,
    buildExplainTimeline decimalToString [sampleAt 0 0 1] storyDayContext 0 5
    = [event]
    /\ reasons event = [reason]
    /\ List.length (evidence reason) = 3%nat
    /\ last (evidence reason) "" = "Average battery power 0 kW."
    /\ ~ In (eventTimeLine (tsMin event)) (evidence reason).
Proof.
  eexists _, _. split; [vm_compute; reflexivity|].
  split; [reflexivity|]. split; [reflexivity|]. split; [reflexivity|].
  cbn. intros [H | [H | [H | []]]]; discriminate.
Qed.

(** C6, amended. Every reason of every event of the timeline has at most 3
    evidence lines: the lines its detector built (at most 3), then the event
    time line, cut at three. When the detector built fewer than 3 lines the
    event time line is the last line; when it built 3, the cut drops the
    event time line and the evidence is the 3 built lines. The detectors
    build 2 lines for the reasons of the battery events and 3 for all
    others. *)
Theorem evidence_capped_time_label (numberToString : Q -> string)
    (samplesAll : list StorySample) (context : ExplainContext)
    (startMin endMin : Z) (event : ExplainEvent) (reason : ExplainReason) :
  In event (buildExplainTimeline numberToString samplesAll context startMin endMin) ->
  In reason (reasons event) ->
  exists raw built,
    In raw (rawEvents numberToString samplesAll context startMin endMin)
    /\ realises startMin endMin event raw
    /\ In built (rawReasons raw)
    /\ evidence reason
       = firstn 3 (evidence built ++ [eventTimeLine (tsMin event)])%list
    /\ (List.length (evidence reason) <= 3)%nat
    /\ ((List.length (evidence built) < 3)%nat ->
        evidence reason = (evidence built ++ [eventTimeLine (tsMin event)])%list)
    /\ (List.length (evidence built) = 3%nat -> evidence reason = evidence built)
    /\ List.length (evidence built)
       = match type event with EvBattery => 2%nat | _ => 3%nat end.
Proof.
  intros Hin Hreason.
  destruct (timeline_evidence numberToString samplesAll context startMin endMin
              event reason Hin Hreason)
    as (raw & built & Hraw & Hreal & Hbuilt & _ & _ & Hevidence).
  pose proof (raws_capped numberToString samplesAll context startMin endMin
                raw built Hraw Hbuilt) as Hcap.
  pose proof (raws_evidence_count numberToString samplesAll context startMin endMin
                raw built Hraw Hbuilt) as Hcount.
  destruct (firstn_3_appended (evidence built) (eventTimeLine (tsMin event)) Hcap)
    as (Hlen & Hshort & Hfull).
  pose proof Hreal as (_ & Hty & _).
  exists raw, built. rewrite Hevidence.
  split; [exact Hraw|]. split; [exact Hreal|]. split; [exact Hbuilt|].
  split; [reflexivity|]. split; [exact Hlen|]. split; [exact Hshort|].
  split; [exact Hfull|]. rewrite Hty. exact Hcount.
Qed.

Lemma evidence_capped_time_label_witness :
  let timeline :=
    buildExplainTimeline decimalToString peakStartDay storyDayContext 990 1025 in
  let event := nth 1 timeline (nth 0 timeline
                 {| id := ""; tsMin := 0; title := ""; type := EvInfo;
                    whatHappened := ""; reasons := [] |}) in
  exists reason raw built,
    reasons event = [reason]
    /\ In raw (rawEvents decimalToString peakStartDay storyDayContext 990 1025)
    /\ In built (rawReasons raw)
    /\ List.length (evidence built) = 2%nat
    /\ evidence reason = (evidence built ++ [eventTimeLine (tsMin event)])%list.
Proof.
  intros timeline event.
  assert (Hevent : In event timeline) by (vm_compute; right; left; reflexivity).
  assert (Hreasons : exists reason, reasons event = [reason])
    by (eexists; vm_compute; reflexivity).
  destruct Hreasons as [reason Hreasons].
  assert (Hreason : In reason (reasons event)) by (rewrite Hreasons; now left).
  destruct (evidence_capped_time_label decimalToString peakStartDay storyDayContext
              990 1025 event reason Hevent Hreason)
    as (raw & built & Hraw & _ & Hbuilt & _ & _ & Hshort & _ & Hcount).
  exists reason, raw, built.
  change (type event) with EvBattery in Hcount.
  repeat split; try assumption. apply Hshort. rewrite Hcount. lia.
Defined.

(** C10. The timeline is empty exactly when the window holds no sample.
    On a window with samples where no detector fires it is the single
    fallback event: "Stable operation", of type info, at the window
    start. *)
Theorem timeline_empty_iff_no_samples (numberToString : Q -> string)
    (samplesAll : list StorySample) (context : ExplainContext)
    (startMin endMin : Z) :
  (buildExplainTimeline numberToString samplesAll context startMin endMin = []
   <-> getWindowSamples samplesAll startMin endMin = [])
  /\ (getWindowSamples samplesAll startMin endMin <> [] ->
      detectedEvents numberToString samplesAll context startMin endMin = [] ->
      exists event,
        buildExplainTimeline numberToString samplesAll context startMin endMin
        = [event]
        /\ title event = "Stable operation" /\ type event = EvInfo
        /\ tsMin event = startMin
        /\ realises startMin endMin event
             (fallbackEvent numberToString samplesAll context startMin endMin)).
Proof.
  split; [split|].
  - intro Hnone.
    destruct (getWindowSamples samplesAll startMin endMin) as [|sample rest] eqn:E;
      [reflexivity|].
    assert (Hwindow : getWindowSamples samplesAll startMin endMin <> [])
      by (rewrite E; discriminate).
    destruct (timeline_realises numberToString samplesAll context startMin endMin
                Hwindow) as (Hlen & _).
    pose proof (raws_length numberToString samplesAll context startMin endMin).
    rewrite Hnone in Hlen. simpl in Hlen. lia.
  - apply timeline_empty_window.
  - apply timeline_fallback.
Qed.

Lemma timeline_empty_iff_no_samples_witness :
  exists event,
    buildExplainTimeline decimalToString [sampleAt 0 0 1] storyDayContext 0 5
    = [event]
    /\ title event = "Stable operation" /\ type event = EvInfo
    /\ tsMin event = 0
    /\ realises 0 5 event
         (fallbackEvent decimalToString [sampleAt 0 0 1] storyDayContext 0 5).
Proof.
  apply (timeline_empty_iff_no_samples decimalToString [sampleAt 0 0 1]
           storyDayContext 0 5).
  - discriminate.
  - reflexivity.
Defined.

(** C4, the defect. In the window 4:30 PM to 5:05 PM of [peakStartDay]
    the peak event and the discharge event are both proposed at 5:00 PM, the
    last slot of the window. [ensureUniqueTimestamp] steps forward to
    5:05 PM, which is free, so its backward loop does not run, and the final
    clamp returns 5:00 PM again: two events of the timeline share a
    timestamp. *)
Theorem duplicate_timestamps_at_peak_start :
  map tsMin
    (buildExplainTimeline decimalToString peakStartDay storyDayContext 990 1025)
  = [1020; 1020]
  /\ ensureUniqueTimestamp 1020 (ZSet.add 1020 ZSet.empty) 990 1025 = 1020.
Proof.
  split; vm_compute; reflexivity.
Qed.

(** The forward loop stops on a free timestamp or past the upper bound. *)
Lemma probeForward_exit (usedTs : ZSet.t) (upperBound ts : Z) :
  ZSet.mem (probeForward usedTs upperBound ts) usedTs
  && (probeForward usedTs upperBound ts <=? upperBound) = false.
Proof.
  funelim (probeForward usedTs upperBound ts); assumption.
Qed.

(** When no used timestamp lies past the upper bound, as in
    [buildExplainTimeline], the backward loop never runs. *)
Lemma probeBackward_idle (usedTs : ZSet.t) (startMin upperBound ts : Z) :
  (forall used, ZSet.In used usedTs -> used <= upperBound) ->
  probeBackward usedTs startMin (probeForward usedTs upperBound ts)
  = probeForward usedTs upperBound ts.
Proof.
  intro Hused. pose proof (probeForward_exit usedTs upperBound ts) as Hexit.
  set (reached := probeForward usedTs upperBound ts) in *.
  assert (Hfree : ZSet.mem reached usedTs = false).
  { destruct (ZSet.mem reached usedTs) eqn:E; [|reflexivity].
    apply ZSet.mem_spec, Hused in E. cbn [andb] in Hexit.
    apply Z.leb_gt in Hexit. lia. }
  rewrite probeBackward_unfold, Hfree. reflexivity.
Qed.

Lemma ensureUniqueTimestamp_forward_only (proposedTs : Z) (usedTs : ZSet.t)
    (startMin endMin : Z) :
  (forall used, ZSet.In used usedTs -> used <= Z.max startMin (endMin - 5)) ->
  ensureUniqueTimestamp proposedTs usedTs startMin endMin
  = ensureUniqueForwardOnly proposedTs usedTs startMin endMin.
Proof.
  intro Hused. unfold ensureUniqueTimestamp, ensureUniqueForwardOnly.
  cbv zeta. now rewrite probeBackward_idle.
Qed.

Lemma normalizeEvents_forward_only (startMin endMin : Z)
    (rawEvents : list RawEvent) :
  forall index usedTs,
    (forall used, ZSet.In used usedTs -> used <= Z.max startMin (endMin - 5)) ->
    normalizeEvents rawEvents index usedTs startMin endMin
    = normalizeForwardOnly rawEvents index usedTs startMin endMin.
Proof.
  induction rawEvents as [|raw rest IH]; intros index usedTs Hused;
    [reflexivity|].
  cbn [normalizeEvents normalizeForwardOnly].
  rewrite ensureUniqueTimestamp_forward_only by exact Hused.
  f_equal. apply IH. intros used Hin.
  apply ZSet.add_spec in Hin as [-> | Hin]; [|now apply Hused].
  unfold ensureUniqueForwardOnly. apply clampZ_range. lia.
Qed.

(** X2. The backward loop of [ensureUniqueTimestamp] is dead code in
    [buildExplainTimeline]: every timestamp of the set lies within the
    clamp, so the loop's test fails on the first turn, for every list of
    detections and every window. *)
Theorem backward_loop_never_runs (rawEvents : list RawEvent) (startMin endMin : Z) :
  normalizeEvents rawEvents 0 ZSet.empty startMin endMin
  = normalizeForwardOnly rawEvents 0 ZSet.empty startMin endMin.
Proof.
  apply normalizeEvents_forward_only. intros used Hin.
  now apply ZSet.empty_spec in Hin.
Qed.

(** *** The 5-minute grid *)

Lemma onGrid_clampZ (value lo hi : Z) :
  onGrid value -> onGrid lo -> onGrid hi -> onGrid (clampZ value lo hi).
Proof.
  intros Hv Hlo Hhi. unfold clampZ.
  apply Z.min_case; [assumption|]. now apply Z.max_case.
Qed.

Lemma onGrid_step (minute : Z) :
  onGrid minute -> onGrid (minute + 5) /\ onGrid (minute - 5).
Proof.
  unfold onGrid. intro H. split; Z.to_euclidean_division_equations; lia.
Qed.

Lemma onGrid_probeForward (usedTs : ZSet.t) (upperBound ts : Z) :
  onGrid ts -> onGrid (probeForward usedTs upperBound ts).
Proof.
  funelim (probeForward usedTs upperBound ts); intro Hts; [|assumption].
  match goal with IH : onGrid _ -> onGrid _ |- _ => apply IH end.
  now apply onGrid_step.
Qed.

Lemma onGrid_probeBackward (usedTs : ZSet.t) (startMin ts : Z) :
  onGrid ts -> onGrid (probeBackward usedTs startMin ts).
Proof.
  funelim (probeBackward usedTs startMin ts); intro Hts; [|assumption].
  match goal with IH : onGrid _ -> onGrid _ |- _ => apply IH end.
  now apply onGrid_step.
Qed.

Lemma onGrid_ensureUniqueTimestamp (proposedTs : Z) (usedTs : ZSet.t)
    (startMin endMin : Z) :
  onGrid proposedTs -> onGrid startMin -> onGrid endMin ->
  onGrid (ensureUniqueTimestamp proposedTs usedTs startMin endMin).
Proof.
  intros Hp Hs He. unfold ensureUniqueTimestamp.
  assert (Hupper : onGrid (Z.max startMin (endMin - 5))).
  { apply Z.max_case; [assumption | now apply onGrid_step]. }
  apply onGrid_clampZ; try assumption.
  apply onGrid_probeBackward, onGrid_probeForward.
  now apply onGrid_clampZ.
Qed.

Lemma onGrid_findFirstSample (samples : list StorySample)
    (predicate : StorySample -> bool) (fallbackMin : Z) :
  Forall (fun sample => onGrid (ts sample)) samples -> onGrid fallbackMin ->
  onGrid (findFirstSample samples predicate fallbackMin).
Proof.
  intros Hall Hfallback. unfold findFirstSample.
  destruct (find predicate samples) as [found|] eqn:E; [|assumption].
  apply find_some in E as [Hin _].
  rewrite Forall_forall in Hall. now apply Hall.
Qed.

Section GridAlignment.

Variable numberToString : Q -> string.
Variable samplesAll : list StorySample.
Variable context : ExplainContext.
Variables startMin endMin : Z.

Hypothesis samples_onGrid : Forall (fun sample => onGrid (ts sample)) samplesAll.
Hypothesis peak_onGrid : onGrid (StoryDay.startMin (peakWindow context)).
Hypothesis storm_onGrid : onGrid (StoryDay.startMin (stormWatchWindow context)).
Hypothesis start_onGrid : onGrid startMin.
Hypothesis end_onGrid : onGrid endMin.

Lemma window_onGrid :
  Forall (fun sample => onGrid (ts sample))
    (getWindowSamples samplesAll startMin endMin).
Proof.
  rewrite Forall_forall in *. intros sample Hin.
  apply filter_In in Hin as [Hin _]. now apply samples_onGrid.
Qed.

Lemma raws_onGrid (raw : RawEvent) :
  In raw (rawEvents numberToString samplesAll context startMin endMin) ->
  onGrid (proposedTsMin raw).
Proof.
  intro Hraw. pose proof window_onGrid as Hwindow.
  destruct (raws_cases _ _ _ _ _ raw Hraw)
    as [H | [H | [H | [H | [H | [H | H]]]]]].
  - unfold peakEvents in H. one_detection H; subst raw.
    cbn [proposedTsMin overlapsWindow overlapStart].
    now apply Z.max_case.
  - unfold stormEvents in H. one_detection H; subst raw.
    cbn [proposedTsMin overlapsWindow overlapStart].
    now apply Z.max_case.
  - unfold chargeEvents in H. one_detection H; subst raw.
    now apply onGrid_findFirstSample.
  - unfold dischargeEvents in H. one_detection H; subst raw.
    now apply onGrid_findFirstSample.
  - destruct (exportEvents_run _ _ _ _ _ raw H)
      as (first & (i & _ & Hnth & _) & -> & _).
    apply nth_error_In in Hnth.
    rewrite Forall_forall in Hwindow. now apply Hwindow.
  - unfold holdEvents in H. one_detection H; subst raw.
    now apply onGrid_findFirstSample.
  - subst raw. exact start_onGrid.
Qed.

Lemma timeline_onGrid (event : ExplainEvent) :
  In event (buildExplainTimeline numberToString samplesAll context startMin endMin) ->
  onGrid (tsMin event).
Proof.
  intro Hin.
  assert (Hwindow : getWindowSamples samplesAll startMin endMin <> []).
  { intro Hnil. rewrite timeline_empty_window in Hin by exact Hnil.
    contradiction. }
  destruct (timeline_realises numberToString samplesAll context startMin endMin
              Hwindow) as (_ & Hto & _).
  destruct (Hto event Hin) as (raw & Hraw & (_ & _ & _ & _ & usedTs & ->)).
  apply onGrid_ensureUniqueTimestamp;
    [now apply raws_onGrid | exact start_onGrid | exact end_onGrid].
Qed.

End GridAlignment.

(** X1. What holds of every timeline: at most 4 events, so never more
    than [MAX_EVENTS]; on a window with [startMin < endMin] every timestamp
    within the window; and with the window bounds, the sample timestamps and
    the starts of the peak and storm windows on the 5-minute grid, every
    timestamp on the grid. *)
Theorem timeline_bounded_in_window (numberToString : Q -> string)
    (samplesAll : list StorySample) (context : ExplainContext)
    (startMin endMin : Z) :
  let timeline :=
    buildExplainTimeline numberToString samplesAll context startMin endMin in
  (List.length timeline <= 4)%nat
  /\ (List.length timeline <= MAX_EVENTS)%nat
  /\ (startMin < endMin ->
      forall event, In event timeline -> startMin <= tsMin event < endMin)
  /\ (Forall (fun sample => onGrid (ts sample)) samplesAll ->
      onGrid (StoryDay.startMin (peakWindow context)) ->
      onGrid (StoryDay.startMin (stormWatchWindow context)) ->
      onGrid startMin -> onGrid endMin ->
      forall event, In event timeline -> onGrid (tsMin event)).
Proof.
  intro timeline.
  assert (Hlen : (List.length timeline <= 4)%nat).
  { destruct (getWindowSamples samplesAll startMin endMin) eqn:E.
    - unfold timeline. rewrite timeline_empty_window by exact E. simpl. lia.
    - assert (Hwindow : getWindowSamples samplesAll startMin endMin <> [])
        by (rewrite E; discriminate).
      destruct (timeline_realises numberToString samplesAll context startMin
                  endMin Hwindow) as (Hlen & _).
      pose proof (raws_length numberToString samplesAll context startMin endMin).
      unfold timeline. lia. }
  split; [exact Hlen|]. split; [unfold MAX_EVENTS; lia|]. split.
  - intros Horder event Hin.
    assert (Hwindow : getWindowSamples samplesAll startMin endMin <> []).
    { intro Hnil. unfold timeline in Hin.
      rewrite timeline_empty_window in Hin by exact Hnil. contradiction. }
    destruct (timeline_realises numberToString samplesAll context startMin endMin
                Hwindow) as (_ & Hto & _).
    destruct (Hto event Hin) as (raw & _ & (_ & _ & _ & _ & usedTs & Hts)).
    pose proof (ensureUniqueTimestamp_range (proposedTsMin raw) usedTs
                  startMin endMin).
    lia.
  - intros Hsamples Hpeak Hstorm Hstart Hend event Hin.
    now apply (timeline_onGrid numberToString samplesAll context startMin endMin).
Qed.

Lemma timeline_bounded_in_window_witness :
  Forall (fun event => 990 <= tsMin event < 1025)
    (buildExplainTimeline decimalToString peakStartDay storyDayContext 990 1025).
Proof.
  apply Forall_forall.
  apply (timeline_bounded_in_window decimalToString peakStartDay storyDayContext
           990 1025).
  lia.
Defined.

(** ** Replay against the generated day *)

Section ReplayFirstWindow.

Local Open Scope Q_scope.

Variables solarCurve homeCurve : Z -> Z -> Q.

Let day := buildStoryDaySamples solarCurve homeCurve.
Let sample0 := fst (storyStep solarCurve homeCurve 0 62).

Lemma storyLoop_unfold (count : nat) (index : Z) (soc : Q) :
  storyLoop solarCurve homeCurve (S count) index soc
  = fst (storyStep solarCurve homeCurve index soc)
    :: storyLoop solarCurve homeCurve count (index + 1)
         (snd (storyStep solarCurve homeCurve index soc)).
Proof.
  cbn [storyLoop]. now destruct (storyStep solarCurve homeCurve index soc).
Qed.

(** The first five minutes of the day hold its first sample alone. *)
Lemma first_window : getWindowSamples day 0 5 = [sample0].
Proof.
  unfold day, buildStoryDaySamples.
  change (Z.to_nat SAMPLE_COUNT) with (S 287).
  rewrite storyLoop_unfold. unfold getWindowSamples. cbn [filter].
  change (ts (fst (storyStep solarCurve homeCurve 0 SOC_START_PCT))) with 0%Z.
  cbn [Z.min Z.max Z.compare Z.leb Z.ltb andb].
  reflexivity.
Qed.

Lemma home0_range : 0.55 <= homeKw sample0 <= 3.6.
Proof.
  change (homeKw sample0) with (round (homeKwAt homeCurve 0 0) 2).
  split.
  - apply Qle_trans with (round 0.55 2); [discriminate|].
    apply round_mono, clamp_range. discriminate.
  - apply Qle_trans with (round 3.6 2); [|discriminate].
    apply round_mono, clamp_range. discriminate.
Qed.

(** The self-powered step covers the whole load of a sample without solar
    power from a battery at 61.9 %: the state of charge falls below 61.6. *)
Lemma selfPowered_first_step (sample : StorySample) :
  solarKw sample == 0 -> 0.55 <= homeKw sample ->
  Replay.nextSocPct (Replay.simulateSelfPoweredStep sample 61.9 30) <= 61.6.
Proof.
  intros Hsolar Hhome. unfold Replay.simulateSelfPoweredStep.
  set (net := solarKw sample - homeKw sample).
  assert (Hnet : net <= - 0.55) by (unfold net; lra).
  assert (E1 : Qltb 0 net = false) by (apply Qltb_ge; lra).
  assert (E2 : Qltb net 0 = true) by (apply Qltb_lt; lra).
  rewrite E1, E2. cbn [andb].
  change (Qltb 30 61.9) with true. cbv iota.
  set (covered := Qmin (Qmin (Qabs net) Replay.MAX_DISCHARGE_KW)
                    (Replay.maxDischargeKw (Replay.computeEnergyBounds 61.9 30))).
  assert (Hcovered : 0.55 <= covered).
  { unfold covered. apply Q.min_glb; [apply Q.min_glb|].
    - rewrite Qabs_neg by lra. lra.
    - discriminate.
    - discriminate. }
  unfold Replay.applyEnergyStep. cbn [Replay.nextSocPct].
  set (bounded := clamp (- covered) (- Replay.MAX_DISCHARGE_KW) Replay.MAX_CHARGE_KW).
  assert (Hbounded : bounded <= - 0.55).
  { unfold bounded, clamp.
    eapply Qle_trans; [apply Q.le_min_r|].
    apply Q.max_lub; [discriminate | lra]. }
  assert (Hdelta : bounded * Replay.STEP_HOURS / Replay.BATTERY_CAPACITY_KWH * 100
                   == bounded * (50 # 81)).
  { unfold Replay.STEP_HOURS, Replay.BATTERY_CAPACITY_KWH. field. }
  unfold clamp. eapply Qle_trans; [apply Q.le_min_r|].
  apply Q.max_lub; [discriminate|]. rewrite Hdelta. lra.
Qed.

(** With the ambient values as overrides the replay of the first five
    minutes ends at least 0.3 points of SOC below the generated day. *)
Lemma replay_first_window_delta :
  Replay.endSocPct
    (Replay.deltas
       (Replay.replayWindow day storyDayContext 0 5
          (ambientOverrides storyDayContext)))
  <= - 0.3.
Proof.
  unfold Replay.replayWindow. rewrite first_window.
  change (Replay.endSocPct _)
    with (round
            (round (Replay.nextSocPct
                      (Replay.simulateSelfPoweredStep sample0 61.9 30)) 1
             - round 61.9 1) 1).
  apply Qle_trans with (round (- 0.3) 1); [|discriminate].
  apply round_mono.
  assert (Hend : round (Replay.nextSocPct
                          (Replay.simulateSelfPoweredStep sample0 61.9 30)) 1
                 <= round 61.6 1).
  { apply round_mono, selfPowered_first_step;
      [reflexivity | apply home0_range]. }
  change (round 61.6 1) with 61.6 in Hend. change (round 61.9 1) with 61.9.
  lra.
Qed.

End ReplayFirstWindow.

Lemma replayWindow_used (samplesAll : list StorySample) (context : ExplainContext)
    (startMin endMin : Z) (overrides : Replay.ReplayOverrides) :
  Replay.modeUsed (Replay.replayWindow samplesAll context startMin endMin overrides)
  = Replay.orElse (Replay.mode overrides) (mode context)
  /\ Replay.reserveUsed
       (Replay.replayWindow samplesAll context startMin endMin overrides)
     = Replay.orElse (Replay.backupReservePct overrides) (backupReservePct context).
Proof.
  unfold Replay.replayWindow.
  destruct (getWindowSamples samplesAll startMin endMin); [split; reflexivity|].
  destruct (fold_left _ _ _). split; reflexivity.
Qed.

(** C3, as stated, fails on every generated day, whatever its two curves:
    the replay of the window of the first five minutes with the ambient
    values as overrides has an end-SOC delta of -0.3 or below. *)
Lemma replay_ambient_deltas_not_zero :
  ~ exists solarCurve homeCurve,
      forall startMin endMin,
        zeroWithinRounding
          (Replay.deltas
             (Replay.replayWindow (buildStoryDaySamples solarCurve homeCurve)
                storyDayContext startMin endMin
                (ambientOverrides storyDayContext))).
Proof.
  intros (solarCurve & homeCurve & Hzero).
  destruct (Hzero 0 5) as (Hsoc & _).
  pose proof (replay_first_window_delta solarCurve homeCurve) as Hdelta.
  revert Hsoc. apply Qabs_case; intros; lra.
Qed.

(** C3, amended. Overrides equal to the ambient values give the result of
    no overrides, with the ambient mode and reserve reported as used; on a
    window without samples the three deltas are zero. On windows with
    samples the replay policy is not the policy of the generator and the
    deltas are not zero in general: on the first five minutes of every
    generated day the end-SOC delta is -0.3 or below. *)
Theorem replay_ambient_overrides (solarCurve homeCurve : Z -> Z -> Q)
    (samplesAll : list StorySample) (context : ExplainContext)
    (startMin endMin : Z) :
  let ambient :=
    Replay.replayWindow samplesAll context startMin endMin
      (ambientOverrides context) in
  ambient = Replay.replayWindow samplesAll context startMin endMin noOverrides
  /\ Replay.modeUsed ambient = mode context
  /\ Replay.reserveUsed ambient = backupReservePct context
  /\ (getWindowSamples samplesAll startMin endMin = [] ->
      Replay.deltas ambient
      = {| Replay.endSocPct := 0; Replay.gridImportKwh := 0;
           Replay.batteryDischargeKwh := 0 |})
  /\ (Replay.endSocPct
        (Replay.deltas
           (Replay.replayWindow (buildStoryDaySamples solarCurve homeCurve)
              storyDayContext 0 5 (ambientOverrides storyDayContext)))
      <= - 0.3)%Q.
Proof.
  intro ambient. split; [reflexivity|].
  destruct (replayWindow_used samplesAll context startMin endMin
              (ambientOverrides context)) as [Hmode Hreserve].
  split; [exact Hmode|]. split; [exact Hreserve|]. split.
  - intro Hempty. unfold ambient, Replay.replayWindow. rewrite Hempty.
    reflexivity.
  - apply replay_first_window_delta.
Qed.

Lemma replay_ambient_overrides_witness :
  Replay.deltas
    (Replay.replayWindow exportingDay storyDayContext 0 5
       (ambientOverrides storyDayContext))
  = {| Replay.endSocPct := 0; Replay.gridImportKwh := 0;
       Replay.batteryDischargeKwh := 0 |}.
Proof.
  apply (replay_ambient_overrides (fun _ _ => 0%Q) (fun _ _ => 1%Q) exportingDay
           storyDayContext 0 5).
  reflexivity.
Defined.

(** * Further properties *)

(** ** Time labels and the step snap *)

Lemma normalizeMinute_mod (minute : Z) :
  Time.normalizeMinute minute = minute mod 1440.
Proof.
  unfold Time.normalizeMinute. change Time.MINUTES_PER_DAY with 1440.
  destruct (Z.rem minute 1440 <? 0) eqn:E;
    [apply Z.ltb_lt in E | apply Z.ltb_ge in E];
    Z.to_euclidean_division_equations; lia.
Qed.

(** The label written out: hour 12 for the hours 0 and 12, two-digit
    minutes, AM before noon and PM from noon on. *)
Lemma minutesToLabel_template (minute : Z) :
  Time.minutesToLabel minute
  = template
      [ Time.intToString (((minute mod 1440) / 60 + 11) mod 12 + 1); ":";
        Time.padStart2 (Time.intToString (minute mod 60)); " ";
        if minute mod 1440 <? 720 then "AM" else "PM" ].
Proof.
  unfold Time.minutesToLabel. rewrite normalizeMinute_mod.
  set (n := minute mod 1440).
  assert (Hn : 0 <= n < 1440) by (apply Z.mod_pos_bound; lia).
  assert (Hmins : Z.rem n 60 = minute mod 60).
  { rewrite Z.rem_mod_nonneg by lia. unfold n.
    Z.to_euclidean_division_equations. lia. }
  assert (Hhour : (if Z.rem (n / 60) 12 =? 0 then 12 else Z.rem (n / 60) 12)
                  = (n / 60 + 11) mod 12 + 1).
  { rewrite Z.rem_mod_nonneg by (try apply Z.div_pos; lia).
    destruct ((n / 60) mod 12 =? 0) eqn:E;
      [apply Z.eqb_eq in E | apply Z.eqb_neq in E];
      Z.to_euclidean_division_equations; lia. }
  assert (Hmer : (12 <=? n / 60) = negb (n <? 720)).
  { destruct (n <? 720) eqn:E;
      [apply Z.ltb_lt in E; apply Z.leb_gt | apply Z.ltb_ge in E; apply Z.leb_le];
      Z.to_euclidean_division_equations; lia. }
  rewrite Hmins, Hhour, Hmer.
  destruct (n <? 720); reflexivity.
Qed.

Lemma minutesToLabel_shift (minute days : Z) :
  Time.minutesToLabel (minute + days * 1440) = Time.minutesToLabel minute.
Proof.
  rewrite !minutesToLabel_template.
  rewrite Z.mod_add by lia.
  replace ((minute + days * 1440) mod 60) with (minute mod 60); [reflexivity|].
  replace (days * 1440) with (days * 24 * 60) by lia.
  now rewrite Z.mod_add by lia.
Qed.


Lemma below_1440 (check : Z -> bool) :
  forallb check (map Z.of_nat (seq 0 1440)) = true ->
  forall n, 0 <= n < 1440 -> check n = true.
Proof.
  intros Hall n Hn. rewrite forallb_forall in Hall. apply Hall.
  apply in_map_iff. exists (Z.to_nat n). split; [lia|].
  apply in_seq. lia.
Qed.

Lemma pair_eqb_eq (parts : string * string) (c d : string) :
  (String.eqb (fst parts) c && String.eqb (snd parts) d)%bool = true ->
  parts = (c, d).
Proof.
  destruct parts as [a b]. cbn [fst snd]. intro H.
  apply andb_prop in H as [H1 H2].
  apply String.eqb_eq in H1, H2. congruence.
Qed.

Lemma append_assoc (a b c : string) :
  append (append a b) c = append a (append b c).
Proof.
  induction a as [|ch rest IH]; cbn [append]; [reflexivity|].
  now rewrite IH.
Qed.

(** Splitting a label at its space gives the clock and AM or PM back. *)
Lemma splitLabel_minutesToLabel (minute : Z) :
  Time.splitLabel (Time.minutesToLabel minute) = (clockOf minute, meridiemOf minute).
Proof.
  assert (Hday : forall n, 0 <= n < 1440 ->
            Time.splitLabel (Time.minutesToLabel n) = (clockOf n, meridiemOf n)).
  { intros n Hn. apply pair_eqb_eq.
    revert n Hn.
    apply (below_1440
             (fun n =>
                let split := Time.splitLabel (Time.minutesToLabel n) in
                String.eqb (fst split) (clockOf n)
                && String.eqb (snd split) (meridiemOf n))%bool).
    vm_compute. reflexivity. }
  pose proof (Z.mod_pos_bound minute 1440 ltac:(lia)) as Hn.
  pose proof (Z.div_mod minute 1440 ltac:(lia)) as Hsplit.
  assert (Hlabel : Time.minutesToLabel minute
                   = Time.minutesToLabel (minute mod 1440)).
  { replace (minute mod 1440) with (minute + (- (minute / 1440)) * 1440) by lia.
    now rewrite minutesToLabel_shift. }
  rewrite Hlabel, (Hday _ Hn).
  unfold clockOf, meridiemOf.
  rewrite Z.mod_mod by lia.
  replace ((minute mod 1440) mod 60) with (minute mod 60); [reflexivity|].
  Z.to_euclidean_division_equations. lia.
Qed.

Lemma minutesToLabel_parts (minute : Z) :
  Time.minutesToLabel minute
  = append (clockOf minute) (append " " (meridiemOf minute)).
Proof.
  rewrite minutesToLabel_template. unfold clockOf, meridiemOf, template.
  cbn [String.concat]. rewrite !append_assoc. reflexivity.
Qed.

(** X4. [minutesToLabel] is the 12-hour clock label of the minute taken
    modulo 1440 (the floor remainder, so negative minutes wrap to the
    evening before): the clock, with hour 12 for the hours 0 and 12 and
    two-digit minutes, a space, and AM before noon or PM from noon on.
    [splitLabel] gives the clock and AM or PM back. *)
Theorem minutesToLabel_clock (minute : Z) :
  Time.minutesToLabel minute
  = append (clockOf minute) (append " " (meridiemOf minute))
  /\ Time.splitLabel (Time.minutesToLabel minute)
     = (clockOf minute, meridiemOf minute).
Proof.
  split.
  - apply minutesToLabel_parts.
  - apply splitLabel_minutesToLabel.
Qed.

(** X5. Labels repeat every day: shifting a minute by whole days, forward
    or backward, leaves its label unchanged, and so the label of a window
    whose two ends are shifted by whole days. *)
Theorem minutesToLabel_periodic (minute days startMin endMin startDays endDays : Z) :
  Time.minutesToLabel (minute + days * 1440) = Time.minutesToLabel minute
  /\ Time.formatWindow (startMin + startDays * 1440) (endMin + endDays * 1440)
     = Time.formatWindow startMin endMin.
Proof.
  split.
  - apply minutesToLabel_shift.
  - unfold Time.formatWindow. now rewrite !minutesToLabel_shift.
Qed.

(** X25. The window label is the two time labels joined by an en dash; when
    both times fall in the same half of the day the first is shown without
    its AM or PM. *)
Theorem formatWindow_labels (startMin endMin : Z) :
  Time.formatWindow startMin endMin
  = append
      (if Bool.eqb (startMin mod 1440 <? 720) (endMin mod 1440 <? 720)
       then clockOf startMin
       else Time.minutesToLabel startMin)
      (append Time.enDash (Time.minutesToLabel endMin)).
Proof.
  unfold Time.formatWindow.
  rewrite !splitLabel_minutesToLabel, !minutesToLabel_parts.
  unfold meridiemOf.
  destruct (startMin mod 1440 <? 720), (endMin mod 1440 <? 720);
    cbn [String.eqb Ascii.eqb Bool.eqb]; rewrite ?append_assoc; reflexivity.
Qed.

Lemma clampToStep_floor (minute : Z) (step : positive) :
  Time.clampToStep minute (Zpos step)
  = (2 * minute + Zpos step) / (2 * Zpos step) * Zpos step.
Proof.
  unfold Time.clampToStep. change (Zpos step <=? 0) with false. cbv iota.
  f_equal. unfold Qfloor, Qdiv, Qmult, Qplus, Qinv.
  cbn -[Z.mul Z.div Z.add Pos.mul].
  replace (minute * 1 * 10 + 5 * Zpos (1 * step)) with ((2 * minute + Zpos step) * 5)
    by lia.
  replace (Zpos (1 * step * 10)) with (2 * Zpos step * 5) by lia.
  apply Z.div_mul_cancel_r; lia.
Qed.

(** X6. For a positive step [clampToStep] returns the multiple of the step
    nearest to the minute: a multiple of the step, at most half a step away,
    and a minute already on the step grid is returned unchanged. With a step
    of zero or below the minute is returned as it is. *)
Theorem clampToStep_nearest_multiple (minute step : Z) :
  (0 < step ->
   Time.clampToStep minute step mod step = 0
   /\ 2 * Z.abs (Time.clampToStep minute step - minute) <= step
   /\ (minute mod step = 0 -> Time.clampToStep minute step = minute)
   /\ Time.clampToStep (Time.clampToStep minute step) step
      = Time.clampToStep minute step)
  /\ (step <= 0 -> Time.clampToStep minute step = minute).
Proof.
  split.
  - intro Hstep. destruct step as [|step|step]; try lia.
    assert (Hfixed : forall m, m mod Zpos step = 0 ->
                               Time.clampToStep m (Zpos step) = m).
    { intros m Hm. rewrite clampToStep_floor.
      apply Z.mod_divide in Hm; [|lia]. destruct Hm as [k ->].
      replace (2 * (k * Zpos step) + Zpos step)
        with (Zpos step + k * (2 * Zpos step)) by lia.
      rewrite Z.div_add by lia.
      rewrite (Z.div_small (Zpos step)) by lia. lia. }
    assert (Hmultiple : Time.clampToStep minute (Zpos step) mod Zpos step = 0).
    { rewrite clampToStep_floor. apply Z.mod_mul. lia. }
    split; [exact Hmultiple|]. split; [|split].
    + rewrite clampToStep_floor.
      pose proof (Z.mul_div_le (2 * minute + Zpos step) (2 * Zpos step)
                    ltac:(lia)) as Hlow.
      pose proof (Z.mul_succ_div_gt (2 * minute + Zpos step) (2 * Zpos step)
                    ltac:(lia)) as Hhigh.
      set (q := (2 * minute + Zpos step) / (2 * Zpos step)) in *. nia.
    + apply Hfixed.
    + apply Hfixed. exact Hmultiple.
  - intro Hstep. unfold Time.clampToStep.
    apply Z.leb_le in Hstep. now rewrite Hstep.
Qed.

Lemma clampToStep_nearest_multiple_witness :
  Time.clampToStep 1022 5 mod 5 = 0
  /\ 2 * Z.abs (Time.clampToStep 1022 5 - 1022) <= 5
  /\ (1022 mod 5 = 0 -> Time.clampToStep 1022 5 = 1022)
  /\ Time.clampToStep (Time.clampToStep 1022 5) 5 = Time.clampToStep 1022 5.
Proof.
  apply (clampToStep_nearest_multiple 1022 5). lia.
Defined.

(** ** The generator: rounding on the decimal grid *)

Section RoundingGrid.

Local Open Scope Q_scope.

Lemma nearest_comp (x y : Q) : x == y -> nearest x = nearest y.
Proof.
  intro E. unfold nearest.
  rewrite (Qleb_comp 0 0 (Qeq_refl 0) x y E).
  destruct (Qle_bool 0 y); [|f_equal]; apply Qfloor_comp; now rewrite E.
Qed.

Lemma nearest_inject_Z (k : Z) : nearest (inject_Z k) = k.
Proof.
  pose proof (nearest_bounds (inject_Z k)) as [Hlo Hhi].
  assert (Hlt : inject_Z (nearest (inject_Z k)) < inject_Z (k + 1))
    by (rewrite inject_Z_plus; change (inject_Z 1) with 1; lra).
  assert (Hgt : inject_Z (k - 1) < inject_Z (nearest (inject_Z k))).
  { unfold Z.sub. rewrite inject_Z_plus. change (inject_Z (- (1))) with (- (1)).
    lra. }
  rewrite <- Zlt_Qlt in Hlt, Hgt. lia.
Qed.

(** A value with [decimals] decimals is kept by [round]. *)
Lemma round_on_grid (x : Q) (k : Z) (decimals : nat) :
  x == k # pow10 decimals -> round x decimals == x.
Proof.
  intro E. unfold round.
  assert (Hk : x * (Zpos (pow10 decimals) # 1) == inject_Z k).
  { rewrite E. unfold Qeq, Qmult, inject_Z. cbn. lia. }
  rewrite (nearest_comp _ _ Hk), nearest_inject_Z. now symmetry.
Qed.

Lemma round_difference_on_grid (x y : Q) (decimals : nat) :
  round (round x decimals - round y decimals) decimals
  == round x decimals - round y decimals.
Proof.
  unfold round at 2 3 4 5.
  set (n := nearest (x * _)). set (m := nearest (y * _)).
  apply (round_on_grid _ (n - m)).
  unfold Qeq, Qminus, Qplus, Qopp. cbn -[Z.mul Z.add Z.opp Pos.mul].
  rewrite Pos2Z.inj_mul. ring.
Qed.

Lemma round_nonpos (x : Q) (decimals : nat) : x <= 0 -> round x decimals <= 0.
Proof.
  intro H. apply Qle_trans with (round 0 decimals); [now apply round_mono|].
  unfold round, nearest. cbn. unfold Qle. cbn. lia.
Qed.

Lemma round_nonneg (x : Q) (decimals : nat) : 0 <= x -> 0 <= round x decimals.
Proof.
  intro H. apply Qle_trans with (round 0 decimals); [|now apply round_mono].
  unfold round, nearest. cbn. unfold Qle. cbn. lia.
Qed.

End RoundingGrid.

(** ** The generator: ranges and physical limits *)

(** Case analysis on every [Qmin], [Qmax] and [Qabs] in sight, so that
    linear arithmetic can finish. *)
Ltac minmax_step :=
  let go spec term :=
    let m := fresh "m" in
    destruct spec as [[? ?] | [? ?]]; set (m := term) in *; clearbody m in
  match goal with
  | |- context [Qmin ?a ?b] => go (Q.min_spec a b) (Qmin a b)
  | |- context [Qmax ?a ?b] => go (Q.max_spec a b) (Qmax a b)
  | H : context [Qmin ?a ?b] |- _ => go (Q.min_spec a b) (Qmin a b)
  | H : context [Qmax ?a ?b] |- _ => go (Q.max_spec a b) (Qmax a b)
  end.

Ltac abs_step :=
  match goal with
  | |- context [Qabs ?a] =>
      let m := fresh "m" in
      let H := fresh in
      destruct (Qlt_le_dec a 0) as [H | H];
      [ pose proof (Qabs_neg a (Qlt_le_weak _ _ H))
      | pose proof (Qabs_pos a H) ];
      set (m := Qabs a) in *; clearbody m
  end.

Ltac cases_lra := repeat abs_step; repeat minmax_step; try split; lra.

Ltac split_conds :=
  repeat match goal with
         | |- context [if ?cond then _ else _] => destruct cond eqn:?
         end;
  repeat match goal with
         | H : _ && _ = true |- _ => apply andb_prop in H as [? ?]
         end;
  repeat match goal with
         | H : Qltb _ _ = true |- _ => apply Qltb_lt in H
         | H : Qltb _ _ = false |- _ => apply Qltb_ge in H
         | H : Qle_bool _ _ = true |- _ => apply Qle_bool_iff in H
         end.

Section GeneratorLimits.

Local Open Scope Q_scope.

Variables solarCurve homeCurve : Z -> Z -> Q.

Lemma solarKwAt_range (minute index : Z) :
  0 <= solarKwAt solarCurve minute index <= 7.
Proof.
  unfold solarKwAt. destruct (_ || _).
  - split; discriminate.
  - apply clamp_range. discriminate.
Qed.

Lemma solarKwAt_night (minute index : Z) :
  (minute < 420 \/ 1110 < minute)%Z -> solarKwAt solarCurve minute index = 0.
Proof.
  intro H. unfold solarKwAt.
  assert (E : ((minute <? 7 * 60) || (18 * 60 + 30 <? minute))%Z = true).
  { apply orb_true_iff. rewrite Z.ltb_lt, Z.ltb_lt. lia. }
  now rewrite E.
Qed.

(** The battery target of the policy lies between the peak discharge cap
    and the charge cap. *)
Lemma batteryTargetKw_range (minute : Z) (soc solar home : Q) :
  - 2.9 <= batteryTargetKw minute soc solar home <= 3.6.
Proof.
  unfold batteryTargetKw. split_conds; cases_lra.
Qed.

(** The physical clamp keeps the sign of the target and never enlarges it. *)
Lemma clampBatteryBySoc_shrinks (target soc : Q) :
  (0 <= target -> 0 <= clampBatteryBySoc target soc <= target)
  /\ (target <= 0 -> target <= clampBatteryBySoc target soc <= 0).
Proof.
  unfold clampBatteryBySoc. split_conds; split; intros; cases_lra.
Qed.

End GeneratorLimits.

(** X7. Every sample of the generated day, whatever the two curves, has its
    solar power within 0..7 kW and zero before 7:00 and after 18:30, its home
    load within 0.55..3.6 kW, and its battery power within -2.9..3.6 kW (the
    peak discharge cap and the solar charge cap). *)
Theorem generated_power_ranges (solarCurve homeCurve : Z -> Z -> Q) :
  Forall (fun sample =>
            (0 <= solarKw sample <= 7
             /\ ((ts sample < 420 \/ 1110 < ts sample)%Z -> solarKw sample == 0)
             /\ 0.55 <= homeKw sample <= 3.6
             /\ - 2.9 <= batteryKw sample <= 3.6)%Q)
    (buildStoryDaySamples solarCurve homeCurve).
Proof.
  unfold buildStoryDaySamples. apply storyLoop_Forall. intros index soc.
  cbn [storyStep fst solarKw homeKw batteryKw ts].
  split; [|split; [|split]].
  - pose proof (solarKwAt_range solarCurve (index * SAMPLE_STEP_MINUTES) index)
      as [Hlo Hhi].
    split; [now apply round_nonneg|].
    apply Qle_trans with (round 7 2); [now apply round_mono | discriminate].
  - intro Hnight. now rewrite solarKwAt_night.
  - split.
    + apply Qle_trans with (round 0.55 2); [discriminate|].
      apply round_mono, clamp_range. discriminate.
    + apply Qle_trans with (round 3.6 2); [|discriminate].
      apply round_mono, clamp_range. discriminate.
  - match goal with
    | |- (_ <= round (clampBatteryBySoc ?target _) 2 <= _)%Q =>
        set (capped := target)
    end.
    assert (Hcapped : (- 2.9 <= capped <= 3.6)%Q).
    { unfold capped.
      match goal with
      | |- context [batteryTargetKw ?m ?s ?a ?b] =>
          pose proof (batteryTargetKw_range m s a b);
          set (target := batteryTargetKw m s a b) in *; clearbody target
      end.
      split_conds; cases_lra. }
    destruct (clampBatteryBySoc_shrinks capped soc) as [Hpos Hneg].
    split.
    + apply Qle_trans with (round (- 2.9) 2); [discriminate|].
      apply round_mono.
      destruct (Qlt_le_dec capped 0) as [H | H];
        [destruct Hneg | destruct Hpos]; lra.
    + apply Qle_trans with (round 3.6 2); [|discriminate].
      apply round_mono.
      destruct (Qlt_le_dec capped 0) as [H | H];
        [destruct Hneg | destruct Hpos]; lra.
Qed.

(** X8. Outside the Storm Watch window the generated day never charges the
    battery from the grid: whenever a sample's battery power is positive it
    is at most the solar surplus [solarKw - homeKw], and the grid power of
    the sample is zero or an export. *)
Theorem generated_no_grid_charging (solarCurve homeCurve : Z -> Z -> Q) :
  Forall (fun sample =>
            isInWindow (ts sample) (stormWatchWindow storyDayContext) = false ->
            (0 < batteryKw sample ->
             batteryKw sample <= solarKw sample - homeKw sample
             /\ gridKw sample <= 0)%Q)
    (buildStoryDaySamples solarCurve homeCurve).
Proof.
  unfold buildStoryDaySamples. apply storyLoop_Forall. intros index soc.
  cbn [storyStep fst solarKw homeKw batteryKw gridKw ts].
  intro Hstorm. rewrite Hstorm. cbn [negb]. rewrite andb_true_r.
  set (solar := round (solarKwAt solarCurve (index * SAMPLE_STEP_MINUTES) index) 2).
  set (home := round (homeKwAt homeCurve (index * SAMPLE_STEP_MINUTES) index) 2).
  set (target := batteryTargetKw (index * SAMPLE_STEP_MINUTES) soc solar home).
  intro Hcharging.
  assert (Hsurplus : (solar - home == round (solar - home) 2)%Q)
    by (symmetry; apply round_difference_on_grid).
  assert (Hbattery :
            (round (clampBatteryBySoc
                      (if Qltb 0 target
                       then Qmin target (Qmax 0 (solar - home)) else target)
                      soc) 2 <= solar - home)%Q).
  { destruct (Qltb 0 target) eqn:Etarget.
    - apply Qltb_lt in Etarget.
      set (capped := Qmin target (Qmax 0 (solar - home))) in *.
      assert (Hcapped : (0 <= capped <= Qmax 0 (solar - home))%Q)
        by (unfold capped; cases_lra).
      destruct (clampBatteryBySoc_shrinks capped soc) as [Hpos _].
      specialize (Hpos (proj1 Hcapped)).
      destruct (Q.max_spec 0 (solar - home)) as [[Hlt Emax] | [Hle Emax]].
      + rewrite Hsurplus. apply round_mono. lra.
      + exfalso. apply (Qlt_irrefl 0).
        eapply Qlt_le_trans; [exact Hcharging|].
        apply round_nonpos. lra.
    - apply Qltb_ge in Etarget. exfalso. apply (Qlt_irrefl 0).
      eapply Qlt_le_trans; [exact Hcharging|].
      apply round_nonpos.
      destruct (clampBatteryBySoc_shrinks target soc) as [_ Hneg].
      destruct (Hneg Etarget). assumption. }
  split; [exact Hbattery|].
  apply round_nonpos. lra.
Qed.



(** ** Window overlap, averages and the summary *)

(** X10. [overlapsWindow] reports an overlap exactly when some minute lies
    in both half-open ranges, and its start and end bound exactly the
    minutes the two ranges share. *)
Theorem overlapsWindow_shared_minutes (startMin endMin : Z) (window : TimeWindow) :
  let overlap := overlapsWindow startMin endMin window in
  (overlaps overlap = true
   <-> exists minute,
         startMin <= minute < endMin
         /\ isInWindow minute window = true)
  /\ forall minute,
       (startMin <= minute < endMin /\ isInWindow minute window = true)
       <-> overlapStart overlap <= minute < overlapEnd overlap.
Proof.
  cbv zeta. unfold overlapsWindow, isInWindow.
  cbn [overlaps overlapStart overlapEnd].
  assert (Hshared : forall minute,
             (startMin <= minute < endMin
              /\ (StoryDay.startMin window <=? minute)
                 && (minute <? StoryDay.endMin window) = true)
             <-> Z.max startMin (StoryDay.startMin window) <= minute
                 < Z.min endMin (StoryDay.endMin window)).
  { intro minute. rewrite andb_true_iff, Z.leb_le, Z.ltb_lt. lia. }
  split; [|exact Hshared].
  rewrite Z.ltb_lt. split.
  - intro H. exists (Z.max startMin (StoryDay.startMin window)).
    apply Hshared. lia.
  - intros [minute H]. apply Hshared in H. lia.
Qed.

Section AverageSign.

Local Open Scope Q_scope.

Lemma fold_sum_nonneg (picker : StorySample -> Q) (samples : list StorySample) :
  Forall (fun sample => 0 <= picker sample) samples ->
  forall start,
    start <= fold_left (fun sum sample => sum + picker sample) samples start.
Proof.
  induction 1 as [|sample rest Hsample _ IH]; intro start; cbn [fold_left].
  - lra.
  - specialize (IH (start + picker sample)). lra.
Qed.

Lemma fold_sum_nonpos (picker : StorySample -> Q) (samples : list StorySample) :
  Forall (fun sample => picker sample <= 0) samples ->
  forall start,
    fold_left (fun sum sample => sum + picker sample) samples start <= start.
Proof.
  induction 1 as [|sample rest Hsample _ IH]; intro start; cbn [fold_left].
  - lra.
  - specialize (IH (start + picker sample)). lra.
Qed.

End AverageSign.

(** X11. [average] of no samples is 0 and of one sample is the picked value
    of that sample. It keeps the sign of the picked values: it is not
    negative when none of them is, and not positive when none of them is. *)
Theorem average_keeps_sign (samples : list StorySample)
    (picker : StorySample -> Q) :
  average [] picker = 0%Q
  /\ (forall sample, average [sample] picker == picker sample)%Q
  /\ (Forall (fun sample => 0 <= picker sample)%Q samples ->
      (0 <= average samples picker)%Q)
  /\ (Forall (fun sample => picker sample <= 0)%Q samples ->
      (average samples picker <= 0)%Q).
Proof.
  split; [reflexivity|]. split.
  { intro sample. unfold average. cbn [List.length Nat.eqb fold_left Z.of_nat].
    change (inject_Z (Z.of_nat 1)) with 1%Q. field. }
  assert (Hcount : forall first rest,
            (0 < inject_Z (Z.of_nat (List.length (first :: rest : list StorySample))))%Q).
  { intros first rest. change 0%Q with (inject_Z 0). rewrite <- Zlt_Qlt.
    cbn [List.length]. lia. }
  split; intro Hall; unfold average;
    (destruct samples as [|first rest]; [cbn; discriminate|]);
    change (List.length (first :: rest) =? 0)%nat with false; cbv iota;
    specialize (Hcount first rest);
    set (count := inject_Z (Z.of_nat (List.length (first :: rest)))) in *.
  - pose proof (fold_sum_nonneg picker (first :: rest) Hall 0%Q) as Hsum.
    set (total := fold_left _ _ _) in *. clearbody total count.
    apply Qle_shift_div_l; [exact Hcount | lra].
  - pose proof (fold_sum_nonpos picker (first :: rest) Hall 0%Q) as Hsum.
    set (total := fold_left _ _ _) in *. clearbody total count.
    apply Qle_shift_div_r; [exact Hcount | lra].
Qed.

Section SummaryOrder.

Local Open Scope Q_scope.

Lemma Qmin_pick (x y : Q) : Qmin x y = x \/ Qmin x y = y.
Proof.
  unfold Qmin, GenericMinMax.gmin. destruct (x ?= y); auto.
Qed.

Lemma Qmax_pick (x y : Q) : Qmax x y = x \/ Qmax x y = y.
Proof.
  unfold Qmax, GenericMinMax.gmax. destruct (x ?= y); auto.
Qed.

Definition zeroVars : SummaryVars :=
  {| gridImport := 0; gridExport := 0; batteryCharge := 0;
     batteryDischarge := 0; runMinSoc := None; runMaxSoc := None |}.

(** What the loop of [summarizeWindow] has established after [samples]. *)
Definition summarized (samples : list StorySample) (vars : SummaryVars) : Prop :=
  0 <= gridImport vars /\ 0 <= gridExport vars
  /\ 0 <= batteryCharge vars /\ 0 <= batteryDischarge vars
  /\ match samples with
     | [] => runMinSoc vars = None /\ runMaxSoc vars = None
     | _ :: _ =>
         exists least most,
           In least samples /\ In most samples
           /\ runMinSoc vars = Some (socPct least)
           /\ runMaxSoc vars = Some (socPct most)
           /\ Forall (fun sample =>
                        socPct least <= socPct sample <= socPct most) samples
     end.

Lemma summarizeStep_summarized (samples : list StorySample) (vars : SummaryVars)
    (sample : StorySample) :
  summarized samples vars ->
  summarized (samples ++ [sample]) (summarizeStep vars sample).
Proof.
  intros (Hi & He & Hc & Hd & Hsoc). unfold summarized, summarizeStep.
  cbn [gridImport gridExport batteryCharge batteryDischarge runMinSoc runMaxSoc].
  unfold STEP_HOURS, Qdiv. change (/ 60) with (1 # 60).
  split; [cases_lra|]. split; [cases_lra|]. split; [cases_lra|].
  split; [cases_lra|].
  destruct samples as [|first rest].
  - destruct Hsoc as [-> ->]. cbn [app].
    exists sample, sample. repeat split; try (now left).
    repeat constructor; lra.
  - destruct Hsoc as (least & most & Hleast & Hmost & -> & -> & Hall).
    change ((first :: rest) ++ [sample])%list
      with (first :: (rest ++ [sample]))%list.
    set (all := (first :: rest)) in *.
    change (first :: (rest ++ [sample]))%list with (all ++ [sample])%list.
    assert (Hl : socPct least <= socPct least <= socPct most).
    { rewrite Forall_forall in Hall. now apply Hall. }
    pose proof (Q.le_min_r (socPct least) (socPct sample)) as Hm.
    pose proof (Q.le_min_l (socPct least) (socPct sample)) as Hm'.
    pose proof (Q.le_max_r (socPct most) (socPct sample)) as HM.
    pose proof (Q.le_max_l (socPct most) (socPct sample)) as HM'.
    destruct (Qmin_pick (socPct least) (socPct sample)) as [Emin | Emin];
      destruct (Qmax_pick (socPct most) (socPct sample)) as [Emax | Emax];
      rewrite Emin, Emax in *;
      [ exists least, most | exists least, sample
      | exists sample, most | exists sample, sample ].
    all: (split; [apply in_or_app; first [now left | right; now left]|]).
    all: (split; [apply in_or_app; first [now left | right; now left]|]).
    all: (split; [reflexivity|]); (split; [reflexivity|]).
    all: apply Forall_app; split;
      [ eapply Forall_impl; [|exact Hall]; cbn; intros; lra
      | repeat constructor; lra ].
Qed.

Lemma fold_summarized (samples : list StorySample) :
  summarized samples (fold_left summarizeStep samples zeroVars).
Proof.
  induction samples as [|sample rest IH] using rev_ind.
  - cbn. repeat split; discriminate || reflexivity.
  - rewrite fold_left_app. cbn [fold_left].
    now apply summarizeStep_summarized.
Qed.

End SummaryOrder.

Lemma last_In {A : Type} (l : list A) (d : A) : l <> [] -> In (last l d) l.
Proof.
  induction l as [|x [|y rest] IH]; intro H; [contradiction | now left |].
  right. apply IH. discriminate.
Qed.

(** X12. The summary of a window with samples is ordered: its minimum and
    maximum SOC are the rounded SOC of two samples of the window and bound
    the rounded SOC of every sample, so also the start and end SOC; and its
    four energy totals are never negative. *)
Theorem summarizeWindow_ordered (samples : list StorySample)
    (context : ExplainContext) :
  samples <> [] ->
  let summary := summarizeWindow samples context in
  (Forall (fun sample =>
             minSoc summary <= round (socPct sample) 1 <= maxSoc summary) samples
   /\ minSoc summary <= startSoc summary <= maxSoc summary
   /\ minSoc summary <= endSoc summary <= maxSoc summary
   /\ (exists least most,
         In least samples /\ In most samples
         /\ minSoc summary = round (socPct least) 1
         /\ maxSoc summary = round (socPct most) 1)
   /\ 0 <= totalGridImportKwhApprox summary
   /\ 0 <= totalGridExportKwhApprox summary
   /\ 0 <= totalBatteryChargeKwhApprox summary
   /\ 0 <= totalBatteryDischargeKwhApprox summary)%Q.
Proof.
  intros Hsome summary.
  destruct samples as [|first rest]; [contradiction|].
  pose proof (fold_summarized (first :: rest))
    as (Hi & He & Hc & Hd & least & most & Hleast & Hmost & Emin & Emax & Hall).
  unfold summary, summarizeWindow.
  fold zeroVars. set (vars := fold_left summarizeStep (first :: rest) zeroVars) in *.
  cbn [minSoc maxSoc startSoc endSoc totalGridImportKwhApprox
       totalGridExportKwhApprox totalBatteryChargeKwhApprox
       totalBatteryDischargeKwhApprox].
  rewrite Emin, Emax. cbn [roundedOr0].
  assert (Hrounded :
            Forall (fun sample =>
                      (round (socPct least) 1 <= round (socPct sample) 1
                       <= round (socPct most) 1)%Q) (first :: rest)).
  { eapply Forall_impl; [|exact Hall]. cbn. intros sample [Hlo Hhi].
    split; now apply round_mono. }
  rewrite Forall_forall in Hrounded.
  split; [now apply Forall_forall|].
  split; [apply Hrounded; now left|].
  split; [apply Hrounded, last_In; discriminate|].
  split; [now exists least, most|].
  repeat split; now apply round_nonneg.
Qed.

Lemma summarizeWindow_ordered_witness :
  let summary := summarizeWindow peakStartDay storyDayContext in
  (minSoc summary <= startSoc summary <= maxSoc summary)%Q.
Proof.
  apply (summarizeWindow_ordered peakStartDay storyDayContext). discriminate.
Defined.

(** ** Nested windows *)

(** X13. Selecting a window inside a window is selecting the inner window:
    when the inner bounds, put in order, lie within the outer bounds, put in
    order, [getWindowSamples] of [getWindowSamples] gives the samples of the
    inner window. In general the two selections commute. *)
Theorem getWindowSamples_nested (samples : list StorySample)
    (outerStart outerEnd innerStart innerEnd : Z) :
  getWindowSamples (getWindowSamples samples outerStart outerEnd) innerStart innerEnd
  = getWindowSamples (getWindowSamples samples innerStart innerEnd)
      outerStart outerEnd
  /\ (Z.min outerStart outerEnd <= Z.min innerStart innerEnd ->
      Z.max innerStart innerEnd <= Z.max outerStart outerEnd ->
      getWindowSamples (getWindowSamples samples outerStart outerEnd)
        innerStart innerEnd
      = getWindowSamples samples innerStart innerEnd).
Proof.
  unfold getWindowSamples. split.
  - induction samples as [|sample rest IH]; [reflexivity|].
    cbn [filter].
    destruct ((Z.min outerStart outerEnd <=? ts sample)
              && (ts sample <? Z.max outerStart outerEnd)) eqn:Eo;
      destruct ((Z.min innerStart innerEnd <=? ts sample)
                && (ts sample <? Z.max innerStart innerEnd)) eqn:Ei;
      cbn [filter]; rewrite ?Eo, ?Ei, IH; reflexivity.
  - intros Hlo Hhi.
    induction samples as [|sample rest IH]; [reflexivity|].
    cbn [filter].
    destruct ((Z.min innerStart innerEnd <=? ts sample)
              && (ts sample <? Z.max innerStart innerEnd)) eqn:Ei.
    + assert (Eo : (Z.min outerStart outerEnd <=? ts sample)
                   && (ts sample <? Z.max outerStart outerEnd) = true).
      { apply andb_prop in Ei as [H1 H2].
        apply Z.leb_le in H1. apply Z.ltb_lt in H2.
        apply andb_true_intro. rewrite Z.leb_le, Z.ltb_lt. lia. }
      rewrite Eo. cbn [filter]. now rewrite Ei, IH.
    + destruct ((Z.min outerStart outerEnd <=? ts sample)
                && (ts sample <? Z.max outerStart outerEnd));
        cbn [filter]; rewrite ?Ei; exact IH.
Qed.

Lemma getWindowSamples_nested_witness :
  getWindowSamples (getWindowSamples peakStartDay 990 1025) 1000 1010
  = getWindowSamples peakStartDay 1000 1010.
Proof.
  apply (getWindowSamples_nested peakStartDay 990 1025 1000 1010); lia.
Defined.

(** ** Order of the timeline *)

Definition notLater (before after : ExplainEvent) : Prop :=
  tsMin before <= tsMin after.

Lemma insertByTs_sorted (event : ExplainEvent) (sorted : list ExplainEvent) :
  StronglySorted notLater sorted ->
  StronglySorted notLater (insertByTs event sorted).
Proof.
  induction 1 as [|next rest Hsorted IH Hnext]; cbn [insertByTs].
  - repeat constructor.
  - destruct (tsMin event <=? tsMin next) eqn:E.
    + apply Z.leb_le in E. constructor; [now constructor|].
      constructor; [exact E|].
      eapply Forall_impl; [|exact Hnext]. unfold notLater. intros. lia.
    + apply Z.leb_gt in E. constructor; [exact IH|].
      eapply Permutation_Forall; [apply insertByTs_Permutation|].
      constructor; [unfold notLater; lia | exact Hnext].
Qed.

Lemma sortByTs_sorted (events : list ExplainEvent) :
  StronglySorted notLater (sortByTs events).
Proof.
  induction events as [|event rest IH]; cbn; [constructor|].
  now apply insertByTs_sorted.
Qed.

Lemma firstn_sorted {A : Type} (R : A -> A -> Prop) (count : nat) (l : list A) :
  StronglySorted R l -> StronglySorted R (firstn count l).
Proof.
  intro H. revert count.
  induction H as [|x rest Hsorted IH Hx]; intros [|count]; cbn; try constructor.
  - apply IH.
  - rewrite Forall_forall in *. intros y Hy. apply Hx.
    apply (In_nth _ _ y) in Hy as (i & Hi & <-).
    rewrite length_firstn in Hi.
    rewrite nth_firstn.
    destruct (i <? count)%nat eqn:E; [|apply Nat.ltb_ge in E; lia].
    apply nth_In. lia.
Qed.

Lemma finishEvents_tsMin (events : list ExplainEvent) :
  forall index, map tsMin (finishEvents events index) = map tsMin events.
Proof.
  induction events as [|event rest IH]; intro index; cbn; [reflexivity|].
  now rewrite IH.
Qed.

Lemma StronglySorted_map_tsMin (events : list ExplainEvent) :
  StronglySorted notLater events -> StronglySorted Z.le (map tsMin events).
Proof.
  induction 1 as [|event rest _ IH Hall]; cbn; constructor; [exact IH|].
  now apply Forall_map.
Qed.

(** X14. The events of the timeline come in ascending order of their
    timestamps, for every sample list, context and window. *)
Theorem timeline_ascending (numberToString : Q -> string)
    (samplesAll : list StorySample) (context : ExplainContext)
    (startMin endMin : Z) :
  StronglySorted Z.le
    (map tsMin
       (buildExplainTimeline numberToString samplesAll context startMin endMin)).
Proof.
  unfold buildExplainTimeline.
  destruct (List.length _ =? 0)%nat; [constructor|].
  rewrite finishEvents_tsMin.
  apply StronglySorted_map_tsMin, firstn_sorted, sortByTs_sorted.
Qed.

(** ** Which detectors fire *)

Section DetectorEvents.

Local Open Scope Q_scope.

Variable numberToString : Q -> string.
Variable samplesAll : list StorySample.
Variable context : ExplainContext.
Variables startMin endMin : Z.

Let windowSamples := getWindowSamples samplesAll startMin endMin.
Let raws := rawEvents numberToString samplesAll context startMin endMin.
Let detected := detectedEvents numberToString samplesAll context startMin endMin.
Let timeline := buildExplainTimeline numberToString samplesAll context startMin endMin.
Let avgBatteryKw := average windowSamples batteryKw.
Let avgSolarKw := average windowSamples solarKw.
Let avgHomeKw := average windowSamples homeKw.

Lemma detected_in_raws (raw : RawEvent) : In raw detected -> In raw raws.
Proof.
  unfold raws, rawEvents. fold detected.
  destruct detected; [contradiction | auto].
Qed.

(** The title of a detection tells its detector. *)
Lemma raws_by_title (raw : RawEvent) :
  In raw raws ->
  (rawTitle raw = "Peak rate period" ->
   In raw (peakEvents numberToString samplesAll context startMin endMin))
  /\ (rawTitle raw = "Storm Watch" ->
      In raw (stormEvents numberToString samplesAll context startMin endMin))
  /\ (rawTitle raw = "Battery charging" ->
      In raw (chargeEvents numberToString samplesAll context startMin endMin))
  /\ (rawTitle raw = "Battery discharging" ->
      In raw (dischargeEvents numberToString samplesAll context startMin endMin))
  /\ (rawTitle raw = "Holding battery level" ->
      In raw (holdEvents numberToString samplesAll context startMin endMin)).
Proof.
  intro Hraw.
  destruct (raws_cases _ _ _ _ _ raw Hraw)
    as [H | [H | [H | [H | [H | [H | H]]]]]].
  - repeat split; try (intros _; exact H);
      unfold peakEvents in H; one_detection H; subst raw; discriminate.
  - repeat split; try (intros _; exact H);
      unfold stormEvents in H; one_detection H; subst raw; discriminate.
  - repeat split; try (intros _; exact H);
      unfold chargeEvents in H; one_detection H; subst raw; discriminate.
  - repeat split; try (intros _; exact H);
      unfold dischargeEvents in H; one_detection H; subst raw; discriminate.
  - repeat split;
      unfold exportEvents in H; one_detection H; subst raw; discriminate.
  - repeat split; try (intros _; exact H);
      unfold holdEvents in H; one_detection H; subst raw; discriminate.
  - subst raw. repeat split; discriminate.
Qed.

(** A detector's event is in the timeline exactly when the detector fired on
    a window with samples. *)
Lemma detector_event (found : list RawEvent) (name : string) :
  (forall raw, In raw found -> rawTitle raw = name /\ In raw detected) ->
  (forall raw, In raw raws -> rawTitle raw = name -> In raw found) ->
  ((exists event, In event timeline /\ title event = name)
   <-> windowSamples <> [] /\ found <> []).
Proof.
  intros Hfound Hname. split.
  - intros (event & Hin & Htitle).
    assert (Hwindow : windowSamples <> []).
    { intro Hnil. unfold timeline in Hin.
      rewrite timeline_empty_window in Hin by exact Hnil. contradiction. }
    split; [exact Hwindow|].
    destruct (timeline_realises numberToString samplesAll context startMin endMin
                Hwindow) as (_ & Hto & _).
    destruct (Hto event Hin) as (raw & Hraw & (Ht & _)).
    assert (Hin' : In raw found) by (apply Hname; [exact Hraw | congruence]).
    intro Hnil. rewrite Hnil in Hin'. contradiction.
  - intros [Hwindow Hsome].
    destruct found as [|raw rest]; [contradiction|].
    destruct (Hfound raw (or_introl eq_refl)) as [Htitle Hdetected].
    destruct (timeline_realises numberToString samplesAll context startMin endMin
                Hwindow) as (_ & _ & Hfrom).
    destruct (Hfrom raw (detected_in_raws raw Hdetected))
      as (event & Hin & (Ht & _)).
    exists event. split; [exact Hin | congruence].
Qed.

Ltac detector_facts D :=
  intros raw H; split;
  [ unfold D in H; one_detection H; subst raw; reflexivity
  | unfold detected, detectedEvents; rewrite !in_app_iff; tauto ].

Lemma peak_event_iff :
  (exists event, In event timeline /\ title event = "Peak rate period")
  <-> windowSamples <> []
      /\ overlaps (overlapsWindow startMin endMin (peakWindow context)) = true.
Proof.
  rewrite (detector_event
             (peakEvents numberToString samplesAll context startMin endMin)).
  - unfold peakEvents. destruct (overlaps _); split; intros [Hw H];
      (split; [exact Hw|]); congruence.
  - detector_facts peakEvents.
  - intros raw Hraw. apply (raws_by_title raw Hraw).
Qed.

Lemma storm_event_iff :
  (exists event, In event timeline /\ title event = "Storm Watch")
  <-> windowSamples <> []
      /\ overlaps (overlapsWindow startMin endMin (stormWatchWindow context)) = true
      /\ stormWatchEnabled context = true.
Proof.
  rewrite (detector_event
             (stormEvents numberToString samplesAll context startMin endMin)).
  - unfold stormEvents. rewrite <- andb_true_iff.
    destruct (overlaps _ && _); split; intros [Hw H];
      (split; [exact Hw|]); congruence.
  - detector_facts stormEvents.
  - intros raw Hraw. apply (raws_by_title raw Hraw).
Qed.

Lemma charge_event_iff :
  (exists event, In event timeline /\ title event = "Battery charging")
  <-> windowSamples <> [] /\ 0.4 < avgBatteryKw.
Proof.
  rewrite (detector_event
             (chargeEvents numberToString samplesAll context startMin endMin)).
  - unfold chargeEvents. fold windowSamples. fold avgBatteryKw.
    rewrite <- Qltb_lt.
    destruct (Qltb 0.4 avgBatteryKw); split; intros [Hw H];
      (split; [exact Hw|]); congruence.
  - detector_facts chargeEvents.
  - intros raw Hraw. apply (raws_by_title raw Hraw).
Qed.

Lemma discharge_event_iff :
  (exists event, In event timeline /\ title event = "Battery discharging")
  <-> windowSamples <> [] /\ avgBatteryKw < - 0.4.
Proof.
  rewrite (detector_event
             (dischargeEvents numberToString samplesAll context startMin endMin)).
  - unfold dischargeEvents. fold windowSamples. fold avgBatteryKw.
    rewrite <- Qltb_lt.
    destruct (Qltb avgBatteryKw (- 0.4)); split; intros [Hw H];
      (split; [exact Hw|]); congruence.
  - detector_facts dischargeEvents.
  - intros raw Hraw. apply (raws_by_title raw Hraw).
Qed.

Lemma hold_event_iff :
  (exists event, In event timeline /\ title event = "Holding battery level")
  <-> windowSamples <> []
      /\ Qabs avgBatteryKw < 0.25 /\ avgHomeKw + 0.25 < avgSolarKw.
Proof.
  rewrite (detector_event
             (holdEvents numberToString samplesAll context startMin endMin)).
  - unfold holdEvents. fold windowSamples.
    fold avgBatteryKw. fold avgSolarKw. fold avgHomeKw.
    rewrite <- !Qltb_lt, <- andb_true_iff.
    destruct (Qltb (Qabs avgBatteryKw) 0.25 && Qltb (avgHomeKw + 0.25) avgSolarKw);
      split; intros [Hw H]; (split; [exact Hw|]); congruence.
  - detector_facts holdEvents.
  - intros raw Hraw. apply (raws_by_title raw Hraw).
Qed.

End DetectorEvents.

(** X15. Which window events the timeline holds, by title: "Peak rate
    period" exactly when the window has samples and overlaps the peak
    window; "Storm Watch" exactly when it has samples, overlaps the Storm
    Watch window and Storm Watch is enabled. *)
Theorem timeline_detector_events (numberToString : Q -> string)
    (samplesAll : list StorySample) (context : ExplainContext)
    (startMin endMin : Z) :
  let windowSamples := getWindowSamples samplesAll startMin endMin in
  let timeline :=
    buildExplainTimeline numberToString samplesAll context startMin endMin in
  let shown name := exists event, In event timeline /\ title event = name in
  (shown "Peak rate period"
   <-> windowSamples <> []
       /\ overlaps (overlapsWindow startMin endMin (peakWindow context)) = true)
  /\ (shown "Storm Watch"
      <-> windowSamples <> []
          /\ overlaps (overlapsWindow startMin endMin (stormWatchWindow context))
             = true
          /\ stormWatchEnabled context = true).
Proof.
  cbv zeta. split.
  - apply peak_event_iff.
  - apply storm_event_iff.
Qed.

(** X16. The timeline never holds two of the three battery-state events:
    "Battery charging", "Battery discharging" and "Holding battery level"
    exclude each other. *)
Theorem timeline_one_battery_state (numberToString : Q -> string)
    (samplesAll : list StorySample) (context : ExplainContext)
    (startMin endMin : Z) :
  let timeline :=
    buildExplainTimeline numberToString samplesAll context startMin endMin in
  let shown name := exists event, In event timeline /\ title event = name in
  ~ (shown "Battery charging" /\ shown "Battery discharging")
  /\ ~ (shown "Battery charging" /\ shown "Holding battery level")
  /\ ~ (shown "Battery discharging" /\ shown "Holding battery level").
Proof.
  cbv zeta.
  rewrite (charge_event_iff numberToString samplesAll context startMin endMin).
  rewrite (discharge_event_iff numberToString samplesAll context startMin endMin).
  rewrite (hold_event_iff numberToString samplesAll context startMin endMin).
  set (avg := average (getWindowSamples samplesAll startMin endMin) batteryKw).
  repeat split.
  - intros [[_ H1] [_ H2]]. lra.
  - intros [[_ H1] [_ [H2 _]]]. revert H2. apply Qabs_case; intros; lra.
  - intros [[_ H1] [_ [H2 _]]]. revert H2. apply Qabs_case; intros; lra.
Qed.

(** ** Distinct timestamps away from the end of the window *)

(** With at most three timestamps taken and fifteen minutes of room above
    the proposed one, the forward loop stops on a free timestamp. *)
Lemma ensureUniqueTimestamp_fresh (proposedTs : Z) (usedTs : ZSet.t)
    (startMin endMin : Z) (taken : list Z) :
  (forall t, ZSet.In t usedTs -> In t taken) ->
  (List.length taken <= 3)%nat ->
  clampZ proposedTs startMin (Z.max startMin (endMin - 5)) + 15
    <= Z.max startMin (endMin - 5) ->
  ~ ZSet.In (ensureUniqueTimestamp proposedTs usedTs startMin endMin) usedTs.
Proof.
  intros Htaken Hlen Hroom. unfold ensureUniqueTimestamp. cbv zeta.
  set (upper := Z.max startMin (endMin - 5)) in *.
  set (ts0 := clampZ proposedTs startMin upper) in *.
  assert (Hlo : startMin <= ts0) by (unfold ts0, clampZ, upper; lia).
  assert (Hstop : forall ts,
            startMin <= ts <= upper -> ZSet.mem ts usedTs = false ->
            ~ ZSet.In (clampZ (probeBackward usedTs startMin ts) startMin upper)
                usedTs).
  { intros ts Hrange Hfree.
    assert (Hback : probeBackward usedTs startMin ts = ts).
    { rewrite probeBackward_unfold, Hfree. reflexivity. }
    rewrite Hback.
    replace (clampZ ts startMin upper) with ts by (unfold clampZ; lia).
    intro Hin. apply ZSet.mem_spec in Hin. congruence. }
  rewrite probeForward_unfold.
  destruct (ZSet.mem ts0 usedTs) eqn:E0; [|cbn [andb]; apply Hstop; [lia | exact E0]].
  replace (ts0 <=? upper) with true by (symmetry; apply Z.leb_le; lia).
  cbn [andb]. rewrite probeForward_unfold.
  destruct (ZSet.mem (ts0 + 5) usedTs) eqn:E1; [|cbn [andb]; apply Hstop; [lia | exact E1]].
  replace (ts0 + 5 <=? upper) with true by (symmetry; apply Z.leb_le; lia).
  cbn [andb]. rewrite probeForward_unfold.
  destruct (ZSet.mem (ts0 + 5 + 5) usedTs) eqn:E2;
    [|cbn [andb]; apply Hstop; [lia | exact E2]].
  replace (ts0 + 5 + 5 <=? upper) with true by (symmetry; apply Z.leb_le; lia).
  cbn [andb]. rewrite probeForward_unfold.
  destruct (ZSet.mem (ts0 + 5 + 5 + 5) usedTs) eqn:E3;
    [|cbn [andb]; apply Hstop; [lia | exact E3]].
  exfalso.
  apply ZSet.mem_spec in E0, E1, E2, E3.
  assert (Hfour : NoDup [ts0; ts0 + 5; ts0 + 5 + 5; ts0 + 5 + 5 + 5]).
  { repeat constructor; cbn [In]; lia. }
  apply (NoDup_incl_length (l' := taken)) in Hfour.
  - cbn [List.length] in Hfour. lia.
  - intros t Ht. apply Htaken. cbn [In] in Ht.
    destruct Ht as [<- | [<- | [<- | [<- | []]]]]; assumption.
Qed.

(** The first [map] of [buildExplainTimeline] gives distinct timestamps when
    no more than four are asked for and each has room. *)
Lemma normalizeEvents_distinct (startMin endMin : Z) (rawEvents : list RawEvent) :
  forall (index : Z) (usedTs : ZSet.t) (taken : list Z),
    (forall t, ZSet.In t usedTs -> In t taken) ->
    (List.length taken + List.length rawEvents <= 4)%nat ->
    Forall (fun raw =>
              clampZ (proposedTsMin raw) startMin (Z.max startMin (endMin - 5)) + 15
              <= Z.max startMin (endMin - 5)) rawEvents ->
    let events := normalizeEvents rawEvents index usedTs startMin endMin in
    NoDup (map tsMin events)
    /\ Forall (fun event => ~ ZSet.In (tsMin event) usedTs) events.
Proof.
  induction rawEvents as [|raw rest IH];
    intros index usedTs taken Htaken Hlen Hroom; cbn [normalizeEvents].
  - split; constructor.
  - cbn [List.length] in Hlen. inversion Hroom as [|? ? Hraw Hrest]; subst.
    set (stamp := ensureUniqueTimestamp (proposedTsMin raw) usedTs startMin endMin).
    assert (Hfresh : ~ ZSet.In stamp usedTs).
    { apply (ensureUniqueTimestamp_fresh _ _ _ _ taken);
        [exact Htaken | lia | exact Hraw]. }
    destruct (IH (index + 1) (ZSet.add stamp usedTs) (stamp :: taken))
      as [Hnodup Hout].
    + intros t Ht. apply ZSet.add_spec in Ht. cbn [In].
      destruct Ht as [-> | Ht]; [now left | right; now apply Htaken].
    + cbn [List.length]. lia.
    + exact Hrest.
    + cbv zeta. cbn [map tsMin]. split.
      * constructor; [|exact Hnodup].
        rewrite in_map_iff. intros (event & Hts & Hin).
        rewrite Forall_forall in Hout. apply (Hout event Hin).
        apply ZSet.add_spec. left. exact Hts.
      * constructor; [exact Hfresh|].
        eapply Forall_impl; [|exact Hout]. cbv beta.
        intros event Hnot Hin. apply Hnot. apply ZSet.add_spec. now right.
Qed.

(** X17. When the window is at least 20 minutes long and every detection is
    anchored at least 20 minutes before its end, the events of the timeline
    have pairwise distinct timestamps. *)
Theorem timeline_distinct_timestamps (numberToString : Q -> string)
    (samplesAll : list StorySample) (context : ExplainContext)
    (startMin endMin : Z) :
  startMin + 20 <= endMin ->
  Forall (fun raw => proposedTsMin raw + 20 <= endMin)
    (rawEvents numberToString samplesAll context startMin endMin) ->
  NoDup (map tsMin
           (buildExplainTimeline numberToString samplesAll context startMin endMin)).
Proof.
  intros Hwindow Hroom.
  unfold buildExplainTimeline.
  destruct (List.length (getWindowSamples samplesAll startMin endMin) =? 0)%nat;
    [constructor|].
  cbv zeta. rewrite finishEvents_tsMin.
  set (raws := rawEvents numberToString samplesAll context startMin endMin) in *.
  set (normalized := normalizeEvents raws 0 ZSet.empty startMin endMin).
  assert (Hlen : (List.length raws <= 4)%nat)
    by apply (raws_length numberToString samplesAll context startMin endMin).
  destruct (normalizeEvents_distinct startMin endMin raws 0 ZSet.empty [])
    as [Hnodup _].
  - intros t Ht. exfalso. revert Ht. apply ZSet.empty_spec.
  - cbn [List.length]. lia.
  - eapply Forall_impl; [|exact Hroom]. cbv beta.
    intros raw Hraw. unfold clampZ. lia.
  - fold normalized in Hnodup.
    pose proof (sortByTs_Permutation normalized) as Hperm.
    rewrite firstn_all2.
    + apply (Permutation_NoDup (Permutation_map tsMin Hperm)). exact Hnodup.
    + rewrite <- (Permutation_length Hperm). unfold normalized.
      rewrite <- (Forall2_length_eq _ _ _
                    (normalizeEvents_Forall2 startMin endMin raws 0 ZSet.empty)).
      unfold MAX_EVENTS. lia.
Qed.

Lemma timeline_distinct_timestamps_witness :
  map tsMin (buildExplainTimeline decimalToString peakStartDay storyDayContext 990 1050)
  = [1020; 1025]
  /\ NoDup (map tsMin
              (buildExplainTimeline decimalToString peakStartDay storyDayContext
                 990 1050)).
Proof.
  split; [vm_compute; reflexivity|].
  apply timeline_distinct_timestamps; [lia|].
  vm_compute. repeat constructor; discriminate.
Defined.

(** ** The replay engine *)

Section ReplaySteps.

Local Open Scope Q_scope.

Import Replay.

(** The two energy bounds, as multiples of the distance to full and to the
    reserve: 13.5 kWh per 100 % over a twelfth of an hour. *)
Lemma computeEnergyBounds_values (soc reserve : Q) :
  Replay.maxChargeKw (computeEnergyBounds soc reserve)
  = Qmax 0 ((100 - soc) / 100 * Replay.BATTERY_CAPACITY_KWH / Replay.STEP_HOURS)
  /\ (100 - soc) / 100 * Replay.BATTERY_CAPACITY_KWH / Replay.STEP_HOURS
     == (100 - soc) * (81 # 50)
  /\ Replay.maxDischargeKw (computeEnergyBounds soc reserve)
     = Qmax 0 ((soc - reserve) / 100 * Replay.BATTERY_CAPACITY_KWH
               / Replay.STEP_HOURS)
  /\ (soc - reserve) / 100 * Replay.BATTERY_CAPACITY_KWH / Replay.STEP_HOURS
     == (soc - reserve) * (81 # 50).
Proof.
  unfold computeEnergyBounds, Replay.BATTERY_CAPACITY_KWH, Replay.STEP_HOURS.
  cbn [Replay.maxChargeKw Replay.maxDischargeKw].
  repeat split; try reflexivity; field.
Qed.

(** A battery power within the power limits and the energy bounds passes
    [applyEnergyStep] unchanged, and the state of charge moves by exactly the
    energy it carries. *)
Lemma applyEnergyStep_exact (battery solar home soc reserve : Q) :
  reserve <= soc <= 100 ->
  - 5 <= battery <= 5 ->
  - ((soc - reserve) * (81 # 50)) <= battery <= (100 - soc) * (81 # 50) ->
  let step := applyEnergyStep battery solar home soc reserve in
  Replay.batteryKw step == battery
  /\ Replay.gridKw step == home - solar + battery
  /\ nextSocPct step == soc + battery * (50 # 81)
  /\ reserve <= nextSocPct step <= 100.
Proof.
  intros Hsoc Hpower Henergy. unfold applyEnergyStep. cbv zeta.
  cbn [Replay.batteryKw Replay.gridKw nextSocPct].
  assert (Hbounded : clamp battery (- MAX_DISCHARGE_KW) MAX_CHARGE_KW == battery)
    by (unfold clamp, MAX_DISCHARGE_KW, MAX_CHARGE_KW; cases_lra).
  set (bounded := clamp battery (- MAX_DISCHARGE_KW) MAX_CHARGE_KW) in *.
  clearbody bounded.
  assert (Hdelta : bounded * Replay.STEP_HOURS / Replay.BATTERY_CAPACITY_KWH * 100
                   == bounded * (50 # 81))
    by (unfold Replay.STEP_HOURS, Replay.BATTERY_CAPACITY_KWH; field).
  set (delta := bounded * Replay.STEP_HOURS / Replay.BATTERY_CAPACITY_KWH * 100) in *.
  clearbody delta.
  split; [exact Hbounded|]. split; [lra|].
  unfold clamp. cases_lra.
Qed.

(** The power a policy asks for, before [applyEnergyStep]. *)
Definition withinLimits (battery soc reserve : Q) : Prop :=
  - 5 <= battery <= 5
  /\ - ((soc - reserve) * (81 # 50)) <= battery <= (100 - soc) * (81 # 50).

Lemma selfPowered_request (net soc reserve : Q) :
  reserve <= soc <= 100 ->
  let bounds := computeEnergyBounds soc reserve in
  let battery :=
    if Qltb 0 net && Qltb soc 100 then
      Qmin (Qmin net MAX_CHARGE_KW) (Replay.maxChargeKw bounds)
    else if Qltb net 0 && Qltb reserve soc then
      - Qmin (Qmin (Qabs net) MAX_DISCHARGE_KW) (Replay.maxDischargeKw bounds)
    else 0 in
  withinLimits battery soc reserve
  /\ (0 <= net -> 0 <= battery <= net)
  /\ (net <= 0 -> net <= battery <= 0).
Proof.
  intros Hsoc. cbv zeta.
  destruct (computeEnergyBounds_values soc reserve) as (-> & Hc & -> & Hd).
  set (charge := (100 - soc) / 100 * Replay.BATTERY_CAPACITY_KWH / Replay.STEP_HOURS)
    in *.
  set (discharge :=
         (soc - reserve) / 100 * Replay.BATTERY_CAPACITY_KWH / Replay.STEP_HOURS) in *.
  clearbody charge discharge.
  unfold withinLimits, MAX_CHARGE_KW, MAX_DISCHARGE_KW.
  split_conds; repeat abs_step; repeat minmax_step;
    (split; [split; split; lra | split; intro; split; lra]).
Qed.

Lemma timeBased_peak_request (deficit soc reserve : Q) :
  reserve <= soc <= 100 -> 0 <= deficit ->
  let bounds := computeEnergyBounds soc reserve in
  let battery :=
    - Qmin (Qmin (deficit + 0.35) MAX_DISCHARGE_KW) (Replay.maxDischargeKw bounds) in
  withinLimits battery soc reserve /\ battery <= 0.
Proof.
  intros Hsoc Hdeficit. cbv zeta.
  destruct (computeEnergyBounds_values soc reserve) as (_ & _ & -> & Hd).
  set (discharge :=
         (soc - reserve) / 100 * Replay.BATTERY_CAPACITY_KWH / Replay.STEP_HOURS) in *.
  clearbody discharge.
  unfold withinLimits, MAX_DISCHARGE_KW.
  repeat minmax_step; (split; [split; split; lra | lra]).
Qed.

Lemma timeBased_storm_request (deficit soc reserve : Q) :
  reserve <= soc <= 100 -> 0 <= deficit ->
  let bounds := computeEnergyBounds soc reserve in
  let battery :=
    Qmin (Qmin (Qmax 0 (deficit + 2.2)) MAX_CHARGE_KW) (Replay.maxChargeKw bounds) in
  withinLimits battery soc reserve /\ 0 <= battery.
Proof.
  intros Hsoc Hdeficit. cbv zeta.
  destruct (computeEnergyBounds_values soc reserve) as (-> & Hc & _ & _).
  set (charge := (100 - soc) / 100 * Replay.BATTERY_CAPACITY_KWH / Replay.STEP_HOURS)
    in *.
  clearbody charge.
  unfold withinLimits, MAX_CHARGE_KW.
  repeat minmax_step; (split; [split; split; lra | lra]).
Qed.

(** What one step of either policy does to a state of charge between the
    reserve and 100: the power balance holds, the battery stays within 5 kW,
    and the state of charge moves by the energy of the battery, 50/81 points
    per kW over five minutes, without leaving the range. *)
Definition exactStep (sample : StorySample) (soc reserve : Q) (step : Step) : Prop :=
  - 5 <= Replay.batteryKw step <= 5
  /\ Replay.gridKw step == homeKw sample - solarKw sample + Replay.batteryKw step
  /\ nextSocPct step == soc + Replay.batteryKw step * (50 # 81)
  /\ reserve <= nextSocPct step <= 100.

Lemma applyEnergyStep_exactStep (sample : StorySample) (battery soc reserve : Q) :
  reserve <= soc <= 100 ->
  withinLimits battery soc reserve ->
  exactStep sample soc reserve
    (applyEnergyStep battery (solarKw sample) (homeKw sample) soc reserve).
Proof.
  intros Hsoc [Hpower Henergy].
  destruct (applyEnergyStep_exact battery (solarKw sample) (homeKw sample)
              soc reserve Hsoc Hpower Henergy) as (Hb & Hg & Hn & Hr).
  unfold exactStep. repeat split; lra.
Qed.

Lemma simulateSelfPoweredStep_exact (sample : StorySample) (soc reserve : Q) :
  reserve <= soc <= 100 ->
  exactStep sample soc reserve (simulateSelfPoweredStep sample soc reserve).
Proof.
  intro Hsoc. unfold simulateSelfPoweredStep. cbv zeta.
  apply applyEnergyStep_exactStep; [exact Hsoc|].
  apply (selfPowered_request (solarKw sample - homeKw sample) soc reserve Hsoc).
Qed.

Lemma simulateTimeBasedStep_exact (sample : StorySample) (context : ExplainContext)
    (soc reserve : Q) (peakStartMin : Z) :
  reserve <= soc <= 100 ->
  exactStep sample soc reserve
    (simulateTimeBasedStep sample context soc reserve peakStartMin).
Proof.
  intro Hsoc. unfold simulateTimeBasedStep. cbv zeta.
  assert (Hdeficit : 0 <= Qmax 0 (homeKw sample - solarKw sample))
    by apply Q.le_max_l.
  destruct (_ && Qltb reserve soc).
  - apply applyEnergyStep_exactStep; [exact Hsoc|].
    apply (timeBased_peak_request _ soc reserve Hsoc Hdeficit).
  - destruct (_ && Qltb soc _).
    + apply applyEnergyStep_exactStep; [exact Hsoc|].
      apply (timeBased_storm_request _ soc reserve Hsoc Hdeficit).
    + now apply simulateSelfPoweredStep_exact.
Qed.


(** The account of the replay loop against its state on entry. *)
Definition accounted (samples : list StorySample) (reserve : Q)
    (before after : Q * RunningTotals) : Prop :=
  let charged := batteryCharge (snd after) - batteryCharge (snd before) in
  let discharged := batteryDischarge (snd after) - batteryDischarge (snd before) in
  reserve <= fst after <= 100
  /\ fst after - fst before == (charged - discharged) * (200 # 27)
  /\ (gridImport (snd after) - gridImport (snd before))
     - (gridExport (snd after) - gridExport (snd before))
     == netLoadKwh samples + charged - discharged
  /\ gridImport (snd before) <= gridImport (snd after)
  /\ gridExport (snd before) <= gridExport (snd after)
  /\ batteryCharge (snd before) <= batteryCharge (snd after)
  /\ batteryDischarge (snd before) <= batteryDischarge (snd after).

Lemma STEP_HOURS_value : Replay.STEP_HOURS == 1 # 12.
Proof.
  unfold Replay.STEP_HOURS. field.
Qed.

Lemma replayStep_accounted (context : ExplainContext) (modeUsed : ReplayMode)
    (reserve : Q) (peakStartMin : Z) (vars : Q * RunningTotals)
    (sample : StorySample) :
  reserve <= fst vars <= 100 ->
  accounted [sample] reserve vars
    (replayStep context modeUsed reserve peakStartMin vars sample).
Proof.
  destruct vars as [soc totals]. cbn [fst]. intro Hsoc.
  unfold replayStep.
  set (step := if String.eqb modeUsed "Self-Powered"
               then simulateSelfPoweredStep sample soc reserve
               else simulateTimeBasedStep sample context soc reserve peakStartMin).
  assert (Hstep : exactStep sample soc reserve step).
  { unfold step. destruct (String.eqb _ _).
    - now apply simulateSelfPoweredStep_exact.
    - now apply simulateTimeBasedStep_exact. }
  clearbody step. destruct Hstep as (Hpower & Hgrid & Hnext & Hrange).
  unfold accounted, netLoadKwh, accumulateTotals.
  cbn [fst snd fold_right gridImport gridExport batteryCharge batteryDischarge].
  rewrite !STEP_HOURS_value.
  set (battery := Replay.batteryKw step) in *.
  set (grid := Replay.gridKw step) in *.
  set (next := nextSocPct step) in *.
  clearbody battery grid next.
  repeat minmax_step; repeat split; lra.
Qed.

Lemma accounted_trans (first : StorySample) (rest : list StorySample) (reserve : Q)
    (before middle after : Q * RunningTotals) :
  accounted [first] reserve before middle ->
  accounted rest reserve middle after ->
  accounted (first :: rest) reserve before after.
Proof.
  unfold accounted, netLoadKwh. cbn [fold_right].
  fold (netLoadKwh rest).
  set (load := netLoadKwh rest). clearbody load.
  rewrite !STEP_HOURS_value.
  intros H1 H2. repeat split; lra.
Qed.

Lemma replay_loop_accounted (context : ExplainContext) (modeUsed : ReplayMode)
    (reserve : Q) (peakStartMin : Z) (samples : list StorySample) :
  forall vars : Q * RunningTotals,
    reserve <= fst vars <= 100 ->
    accounted samples reserve vars
      (fold_left (replayStep context modeUsed reserve peakStartMin) samples vars).
Proof.
  induction samples as [|sample rest IH]; intros vars Hsoc; cbn [fold_left].
  - unfold accounted, netLoadKwh. cbn [fold_right]. repeat split; lra.
  - pose proof (replayStep_accounted context modeUsed reserve peakStartMin vars
                  sample Hsoc) as Hfirst.
    apply (accounted_trans sample rest reserve vars _ _ Hfirst).
    apply IH. destruct Hfirst as [Hrange _]. exact Hrange.
Qed.

End ReplaySteps.

(** The replay of a window with samples is the rounded end of its loop. *)
Lemma replayWindow_loop (samplesAll : list StorySample) (context : ExplainContext)
    (startMin endMin : Z) (overrides : Replay.ReplayOverrides)
    (first : StorySample) (rest : list StorySample) :
  getWindowSamples samplesAll startMin endMin = first :: rest ->
  let result := Replay.replayWindow samplesAll context startMin endMin overrides in
  let final :=
    fold_left
      (Replay.replayStep context (Replay.modeUsed result) (Replay.reserveUsed result)
         (Replay.orElse (Replay.peakStartMin overrides) (StoryDay.startMin (peakWindow context))))
      (first :: rest)
      (socPct first,
       {| Replay.gridImport := 0; Replay.gridExport := 0;
          Replay.batteryCharge := 0; Replay.batteryDischarge := 0 |}) in
  Replay.replay result = Replay.finalizeSummary (socPct first) (fst final) (snd final).
Proof.
  intro Hwindow. cbv zeta.
  destruct (replayWindow_used samplesAll context startMin endMin overrides)
    as [-> ->].
  unfold Replay.replayWindow. rewrite Hwindow. cbv zeta.
  destruct (fold_left _ _ _) as [soc totals]. reflexivity.
Qed.



(** Whatever the state of charge on entry, one step of either policy leaves
    it between the reserve and 100. *)
Lemma replayStep_range (context : ExplainContext) (modeUsed : Replay.ReplayMode)
    (reserve : Q) (peakStartMin : Z) (vars : Q * Replay.RunningTotals)
    (sample : StorySample) :
  (reserve <= 100 ->
   reserve <= fst (Replay.replayStep context modeUsed reserve peakStartMin vars sample)
   <= 100)%Q.
Proof.
  intro Hreserve. destruct vars as [soc totals].
  unfold Replay.replayStep. cbn [fst].
  unfold Replay.simulateTimeBasedStep, Replay.simulateSelfPoweredStep. cbv zeta.
  repeat match goal with
         | |- context [if ?cond then _ else _] => destruct cond
         end;
    unfold Replay.applyEnergyStep; cbn [Replay.nextSocPct];
    apply clamp_range; exact Hreserve.
Qed.

(** X19. With a reserve of at most 100, the replay of a window with samples
    ends at a state of charge between the reserve used (rounded to one
    decimal) and 100, whatever the state of charge of the first sample, and
    none of its four energy totals is negative. *)
Theorem replay_end_soc_in_range (samplesAll : list StorySample)
    (context : ExplainContext) (startMin endMin : Z)
    (overrides : Replay.ReplayOverrides) :
  let result := Replay.replayWindow samplesAll context startMin endMin overrides in
  getWindowSamples samplesAll startMin endMin <> [] ->
  (Replay.reserveUsed result <= 100)%Q ->
  (round (Replay.reserveUsed result) 1 <= Replay.endSoc (Replay.replay result) <= 100
   /\ 0 <= Replay.totalGridImportKwhApprox (Replay.replay result)
   /\ 0 <= Replay.totalGridExportKwhApprox (Replay.replay result)
   /\ 0 <= Replay.totalBatteryChargeKwhApprox (Replay.replay result)
   /\ 0 <= Replay.totalBatteryDischargeKwhApprox (Replay.replay result))%Q.
Proof.
  intros result Hwindow Hreserve.
  destruct (getWindowSamples samplesAll startMin endMin) as [|first rest] eqn:E;
    [contradiction|].
  pose proof (replayWindow_loop samplesAll context startMin endMin overrides
                first rest E) as Hloop.
  cbv zeta in Hloop. fold result in Hloop. rewrite Hloop.
  cbn [fold_left Replay.finalizeSummary Replay.endSoc
       Replay.totalGridImportKwhApprox Replay.totalGridExportKwhApprox
       Replay.totalBatteryChargeKwhApprox Replay.totalBatteryDischargeKwhApprox].
  set (step := Replay.replayStep context (Replay.modeUsed result)
                 (Replay.reserveUsed result)
                 (Replay.orElse (Replay.peakStartMin overrides)
                    (StoryDay.startMin (peakWindow context)))).
  set (zero := {| Replay.gridImport := 0; Replay.gridExport := 0;
                  Replay.batteryCharge := 0; Replay.batteryDischarge := 0 |}).
  set (middle := step (socPct first, zero) first).
  assert (Hmiddle : (Replay.reserveUsed result <= fst middle <= 100)%Q)
    by (apply replayStep_range; exact Hreserve).
  assert (Hzero : (0 <= Replay.gridImport (snd middle)
                   /\ 0 <= Replay.gridExport (snd middle)
                   /\ 0 <= Replay.batteryCharge (snd middle)
                   /\ 0 <= Replay.batteryDischarge (snd middle))%Q).
  { unfold middle, step, Replay.replayStep, Replay.accumulateTotals.
    cbn [snd Replay.gridImport Replay.gridExport Replay.batteryCharge
         Replay.batteryDischarge zero].
    rewrite !STEP_HOURS_value.
    repeat minmax_step; repeat split; lra. }
  pose proof (replay_loop_accounted context (Replay.modeUsed result)
                (Replay.reserveUsed result)
                (Replay.orElse (Replay.peakStartMin overrides)
                   (StoryDay.startMin (peakWindow context)))
                rest middle Hmiddle) as Haccount.
  fold step in Haccount. unfold accounted in Haccount.
  destruct Haccount as ((Hlo & Hhi) & _ & _ & Hi & He & Hc & Hd).
  split; [split|].
  - now apply round_mono.
  - apply Qle_trans with (round 100 1); [now apply round_mono | discriminate].
  - repeat split; apply round_nonneg; lra.
Qed.

Lemma replay_end_soc_in_range_witness :
  (80 <= Replay.endSoc
           (Replay.replay
              (Replay.replayWindow peakStartDay storyDayContext 990 1025
                 {| Replay.backupReservePct := Some 80%Q;
                    Replay.mode := None;
                    Replay.peakStartMin := None |}))
   <= 100)%Q.
Proof.
  apply (replay_end_soc_in_range peakStartDay storyDayContext 990 1025
           {| Replay.backupReservePct := Some 80%Q;
              Replay.mode := None;
              Replay.peakStartMin := None |});
    discriminate.
Defined.

(** X20. The Self-Powered policy follows the solar surplus, at any state of
    charge and reserve: with a surplus the battery charges with no more than
    the surplus and the site does not import; with a deficit it discharges
    no more than the deficit and the site does not export. The battery power
    stays within 5 kW either way. *)
Theorem selfPowered_follows_surplus (sample : StorySample) (soc reserve : Q) :
  let step := Replay.simulateSelfPoweredStep sample soc reserve in
  let surplus := (solarKw sample - homeKw sample)%Q in
  ((0 <= surplus ->
    0 <= Replay.batteryKw step <= surplus /\ - surplus <= Replay.gridKw step <= 0)
   /\ (surplus <= 0 ->
       surplus <= Replay.batteryKw step <= 0
       /\ 0 <= Replay.gridKw step <= - surplus)
   /\ - 5 <= Replay.batteryKw step <= 5)%Q.
Proof.
  cbv zeta. unfold Replay.simulateSelfPoweredStep, Replay.applyEnergyStep.
  cbv zeta. cbn [Replay.batteryKw Replay.gridKw].
  pose proof (Q.le_max_l 0
                ((100 - soc) / 100 * Replay.BATTERY_CAPACITY_KWH / Replay.STEP_HOURS))
    as Hcharge.
  pose proof (Q.le_max_l 0
                ((soc - reserve) / 100 * Replay.BATTERY_CAPACITY_KWH
                 / Replay.STEP_HOURS))
    as Hdischarge.
  unfold Replay.computeEnergyBounds. cbv zeta.
  cbn [Replay.maxChargeKw Replay.maxDischargeKw].
  set (maxCharge :=
         Qmax 0 ((100 - soc) / 100 * Replay.BATTERY_CAPACITY_KWH / Replay.STEP_HOURS))
    in *.
  set (maxDischarge :=
         Qmax 0 ((soc - reserve) / 100 * Replay.BATTERY_CAPACITY_KWH
                 / Replay.STEP_HOURS)) in *.
  clearbody maxCharge maxDischarge.
  set (surplus := (solarKw sample - homeKw sample)%Q).
  assert (Hgrid : (homeKw sample - solarKw sample == - surplus)%Q)
    by (unfold surplus; lra).
  set (load := (homeKw sample - solarKw sample)%Q) in *.
  clearbody surplus load.
  unfold clamp, Replay.MAX_CHARGE_KW, Replay.MAX_DISCHARGE_KW.
  split_conds; repeat abs_step; repeat minmax_step;
    (split; [intro; split; split; lra | split; [intro; split; split; lra |]]);
    split; lra.
Qed.

(** X21. A reserve above the state of charge: when the state of charge is
    below a reserve of at most 100 and solar power does not exceed the
    house load, the Self-Powered step leaves the battery idle and still
    moves the state of charge up to the reserve. *)
Theorem selfPowered_lifts_to_reserve (sample : StorySample) (soc reserve : Q) :
  (soc <= reserve -> reserve <= 100 -> solarKw sample <= homeKw sample ->
   let step := Replay.simulateSelfPoweredStep sample soc reserve in
   Replay.batteryKw step == 0
   /\ Replay.gridKw step == homeKw sample - solarKw sample
   /\ Replay.nextSocPct step == reserve)%Q.
Proof.
  intros Hsoc Hreserve Hsolar. cbv zeta.
  unfold Replay.simulateSelfPoweredStep. cbv zeta.
  assert (E1 : Qltb 0 (solarKw sample - homeKw sample) = false)
    by (apply Qltb_ge; lra).
  assert (E2 : Qltb reserve soc = false) by (apply Qltb_ge; lra).
  rewrite E1, E2, andb_false_r. cbn [andb].
  unfold Replay.applyEnergyStep. cbv zeta.
  cbn [Replay.batteryKw Replay.gridKw Replay.nextSocPct].
  assert (Hidle : (clamp 0 (- Replay.MAX_DISCHARGE_KW) Replay.MAX_CHARGE_KW == 0)%Q)
    by reflexivity.
  set (idle := clamp 0 (- Replay.MAX_DISCHARGE_KW) Replay.MAX_CHARGE_KW) in *.
  clearbody idle.
  assert (Hdelta : (idle * Replay.STEP_HOURS / Replay.BATTERY_CAPACITY_KWH * 100
                    == 0)%Q).
  { unfold Replay.STEP_HOURS, Replay.BATTERY_CAPACITY_KWH. rewrite Hidle. field. }
  set (delta := (idle * Replay.STEP_HOURS / Replay.BATTERY_CAPACITY_KWH * 100)%Q) in *.
  clearbody delta.
  split; [exact Hidle|]. split; [lra|].
  unfold clamp. cases_lra.
Qed.

Lemma selfPowered_lifts_to_reserve_witness :
  (Replay.nextSocPct (Replay.simulateSelfPoweredStep (sampleAt 990 0 1) 50 80) == 80)%Q.
Proof.
  apply (selfPowered_lifts_to_reserve (sampleAt 990 0 1) 50 80); discriminate.
Defined.

Lemma fold_left_agree {A B : Type} (f g : A -> B -> A) (l : list B) :
  (forall a b, f a b = g a b) -> forall a, fold_left f l a = fold_left g l a.
Proof.
  intro Hfg. induction l as [|b rest IH]; intro a; cbn [fold_left];
    [reflexivity|].
  rewrite Hfg. apply IH.
Qed.

(** X22. In Self-Powered mode the replay does not depend on the peak start
    override, nor on the peak and Storm Watch windows of the context. *)
Theorem selfPowered_ignores_peak_and_storm (samplesAll : list StorySample)
    (context : ExplainContext) (startMin endMin : Z) (reserve : option Q)
    (peakStart peakStart' : option Z) (peak storm : TimeWindow) (enabled : bool) :
  Replay.replayWindow samplesAll context startMin endMin
    {| Replay.backupReservePct := reserve;
       Replay.mode := Some "Self-Powered";
       Replay.peakStartMin := peakStart |}
  = Replay.replayWindow samplesAll
      {| mode := mode context;
         backupReservePct := backupReservePct context;
         peakWindow := peak;
         stormWatchWindow := storm;
         stormWatchEnabled := enabled |}
      startMin endMin
      {| Replay.backupReservePct := reserve;
         Replay.mode := Some "Self-Powered";
         Replay.peakStartMin := peakStart' |}.
Proof.
  unfold Replay.replayWindow. cbv zeta.
  cbn [Replay.mode Replay.backupReservePct Replay.peakStartMin Replay.orElse
       mode backupReservePct].
  destruct (getWindowSamples samplesAll startMin endMin) as [|first rest];
    [reflexivity|].
  rewrite (fold_left_agree
             (Replay.replayStep context "Self-Powered" _ _)
             (Replay.replayStep
                {| mode := mode context;
                   backupReservePct := backupReservePct context;
                   peakWindow := peak;
                   stormWatchWindow := storm;
                   stormWatchEnabled := enabled |}
                "Self-Powered"
                (Replay.orElse reserve (backupReservePct context))
                (Replay.orElse peakStart' (StoryDay.startMin peak)))).
  - reflexivity.
  - intros [soc totals] sample. reflexivity.
Qed.

(** ** The reasons and the anchor of the first detection *)

(** What the timeline keeps of a reason. *)
Definition wellFormedReasons (reasons : list ExplainReason) : Prop :=
  (1 <= List.length reasons <= 2)%nat
  /\ NoDup (map code reasons)
  /\ Forall (fun reason => reasonTitle reason = baseTitle (reasonCatalog (code reason)))
       reasons.

Lemma wellFormedReasons_withEventTime (tsMin : Z) (reasons : list ExplainReason) :
  wellFormedReasons reasons ->
  wellFormedReasons (map (withEventTime tsMin) reasons).
Proof.
  unfold wellFormedReasons. intros (Hlen & Hcodes & Htitles).
  rewrite length_map, map_map. cbn [withEventTime code].
  split; [exact Hlen|]. split; [exact Hcodes|].
  apply Forall_map. exact Htitles.
Qed.

Section Reasons.

Local Open Scope Q_scope.

Variable numberToString : Q -> string.
Variable samplesAll : list StorySample.
Variable context : ExplainContext.
Variables startMin endMin : Z.

Let raws := rawEvents numberToString samplesAll context startMin endMin.
Let timeline := buildExplainTimeline numberToString samplesAll context startMin endMin.

Lemma raws_wellFormed (raw : RawEvent) :
  In raw raws -> wellFormedReasons (rawReasons raw).
Proof.
  intro Hraw.
  assert (Hshape : forall reasons : list ExplainReason,
            (1 <= List.length reasons <= 2)%nat ->
            NoDup (map code reasons) ->
            Forall (fun reason =>
                      reasonTitle reason = baseTitle (reasonCatalog (code reason)))
              reasons ->
            wellFormedReasons reasons)
    by (intros; split; [|split]; assumption).
  destruct (raws_cases _ _ _ _ _ raw Hraw)
    as [H | [H | [H | [H | [H | [H | H]]]]]];
    [ unfold peakEvents in H | unfold stormEvents in H
    | unfold chargeEvents in H | unfold dischargeEvents in H
    | unfold exportEvents in H | unfold holdEvents in H | ];
    try one_detection H; subst raw; cbn [rawReasons fallbackEvent];
    unfold chargeReasons, dischargeReasons; cbv zeta;
    repeat match goal with
           | |- context [if ?cond then [_] else []] => destruct cond
           end;
    cbn [app List.length Nat.eqb];
    (apply Hshape;
     [ cbn [List.length]; lia
     | cbn [map code buildReason];
       repeat constructor; cbn [In]; intuition discriminate
     | repeat constructor ]).
Qed.

Lemma timeline_wellFormed (event : ExplainEvent) :
  In event timeline -> wellFormedReasons (reasons event).
Proof.
  intro Hin.
  destruct (getWindowSamples samplesAll startMin endMin) as [|first rest] eqn:E.
  - unfold timeline in Hin.
    rewrite timeline_empty_window in Hin by exact E. contradiction.
  - assert (Hwindow : getWindowSamples samplesAll startMin endMin <> [])
      by (rewrite E; discriminate).
    destruct (timeline_realises numberToString samplesAll context startMin endMin
                Hwindow) as (_ & Hto & _).
    destruct (Hto event Hin) as (raw & Hraw & (_ & _ & _ & Hreasons & _)).
    rewrite Hreasons. apply wellFormedReasons_withEventTime.
    now apply raws_wellFormed.
Qed.

End Reasons.

(** X23. Every event of the timeline carries one or two reasons, with
    different codes, and each reason is titled as the catalog titles its
    code. *)
Theorem timeline_reasons_from_catalog (numberToString : Q -> string)
    (samplesAll : list StorySample) (context : ExplainContext)
    (startMin endMin : Z) :
  Forall (fun event =>
            (1 <= List.length (reasons event) <= 2)%nat
            /\ NoDup (map code (reasons event))
            /\ Forall (fun reason =>
                         reasonTitle reason = baseTitle (reasonCatalog (code reason)))
                 (reasons event))
    (buildExplainTimeline numberToString samplesAll context startMin endMin).
Proof.
  apply Forall_forall. intros event Hin.
  apply (timeline_wellFormed numberToString samplesAll context startMin endMin
           event Hin).
Qed.

Lemma firstn_subset {A : Type} (count : nat) (l : list A) (x : A) :
  In x (firstn count l) -> In x l.
Proof.
  revert l. induction count as [|count IH]; intros [|y rest]; cbn [firstn In];
    try tauto.
  intros [-> | H]; [now left | right; now apply IH].
Qed.

Section PeakAnchor.

Variable numberToString : Q -> string.
Variable samplesAll : list StorySample.
Variable context : ExplainContext.
Variables startMin endMin : Z.

Let windowSamples := getWindowSamples samplesAll startMin endMin.
Let raws := rawEvents numberToString samplesAll context startMin endMin.
Let timeline := buildExplainTimeline numberToString samplesAll context startMin endMin.

(** Each event of the timeline is an event of the first [map], finished. *)
Lemma timeline_from_normalized (event : ExplainEvent) :
  In event timeline ->
  exists mid,
    In mid (normalizeEvents raws 0 ZSet.empty startMin endMin)
    /\ finishes mid event.
Proof.
  unfold timeline, buildExplainTimeline.
  destruct (List.length _ =? 0)%nat; [contradiction|]. cbv zeta.
  fold raws. set (normalized := normalizeEvents raws 0 ZSet.empty startMin endMin).
  intro Hin.
  destruct (Forall2_In_r _ _ _ (finishEvents_Forall2 _ 0) event Hin)
    as [mid [Hmid Hf]].
  exists mid. split; [|exact Hf].
  apply (Permutation_in _ (Permutation_sym (sortByTs_Permutation normalized))).
  revert Hmid. apply firstn_subset.
Qed.

(** Only the peak detector gives the title of the peak event. *)
Lemma other_detections_title (raw : RawEvent) :
  In raw (stormEvents numberToString samplesAll context startMin endMin
          ++ chargeEvents numberToString samplesAll context startMin endMin
          ++ dischargeEvents numberToString samplesAll context startMin endMin
          ++ exportEvents numberToString samplesAll context startMin endMin
          ++ holdEvents numberToString samplesAll context startMin endMin)%list ->
  rawTitle raw <> "Peak rate period".
Proof.
  rewrite !in_app_iff. intros [H | [H | [H | [H | H]]]];
    [ unfold stormEvents in H | unfold chargeEvents in H
    | unfold dischargeEvents in H | unfold exportEvents in H
    | unfold holdEvents in H ];
    one_detection H; subst raw; discriminate.
Qed.

Lemma peak_event_anchor (event : ExplainEvent) :
  In event timeline -> title event = "Peak rate period" ->
  tsMin event
  = clampZ (Z.max startMin (StoryDay.startMin (peakWindow context))) startMin
      (Z.max startMin (endMin - 5))
  /\ type event = EvRate.
Proof.
  intros Hin Htitle.
  destruct (proj1 (peak_event_iff numberToString samplesAll context startMin endMin))
    as [_ Hoverlap]; [exists event; split; assumption|].
  destruct (timeline_from_normalized event Hin)
    as (mid & Hmid & Hts & Ht & Hty & _).
  rewrite Hts, Hty. rewrite Ht in Htitle. clear Hts Ht Hty Hin event.
  revert Hmid. unfold raws, rawEvents, detectedEvents.
  unfold peakEvents at 1 2. cbv zeta. rewrite Hoverlap.
  cbn [app List.length Nat.eqb normalizeEvents proposedTsMin rawType rawTitle
       overlapStart overlapsWindow In].
  intros [Hhead | Htail].
  - subst mid. cbn [tsMin type]. split; [|reflexivity].
    apply ensureUniqueTimestamp_free. reflexivity.
  - exfalso.
    match type of Htail with
    | In mid (normalizeEvents ?others ?index ?used _ _) =>
        destruct (Forall2_In_r _ _ _
                    (normalizeEvents_Forall2 startMin endMin others index used)
                    mid Htail) as (raw & Hraw & (Ht & _))
    end.
    apply (other_detections_title raw Hraw). congruence.
Qed.

End PeakAnchor.

(** X24. The peak-rate event is never moved by the de-duplication of
    timestamps: it is stamped at the start of the overlap of the window and
    the peak window, clamped between the window start and five minutes
    before the window end, and its type is "rate". In particular it is
    stamped at the start of the overlap itself when that lies at least five
    minutes before the window end. *)
Theorem peak_event_at_overlap_start (numberToString : Q -> string)
    (samplesAll : list StorySample) (context : ExplainContext)
    (startMin endMin : Z) :
  Forall (fun event =>
            title event = "Peak rate period" ->
            let anchor := Z.max startMin (StoryDay.startMin (peakWindow context)) in
            tsMin event = clampZ anchor startMin (Z.max startMin (endMin - 5))
            /\ (anchor + 5 <= endMin -> tsMin event = anchor)
            /\ type event = EvRate)
    (buildExplainTimeline numberToString samplesAll context startMin endMin).
Proof.
  apply Forall_forall. intros event Hin Htitle anchor.
  destruct (peak_event_anchor numberToString samplesAll context startMin endMin
              event Hin Htitle) as [Hts Htype].
  fold anchor in Hts.
  split; [exact Hts|]. split; [|exact Htype].
  intro Hroom. rewrite Hts. unfold clampZ, anchor. lia.
Qed.

(** ** The expected changes shown with a replay *)


Lemma not_In_by_eqb (line : string) (lines : list string) :
  existsb (String.eqb line) lines = false -> ~ In line lines.
Proof.
  intros Hnone Hin.
  assert (Hsome : existsb (String.eqb line) lines = true).
  { apply existsb_exists. exists line. split; [exact Hin | apply String.eqb_refl]. }
  congruence.
Qed.

(** The cases of the conditions of [buildExpectedChanges]; what is left
    after them is closed. *)
Ltac bullet_cases :=
  unfold ExplainScreen.buildExpectedChanges; cbv zeta;
  repeat match goal with
         | |- context [ExplainScreen.pushWhen _ ?line _] =>
             tryif is_var line then fail
             else (let l := fresh "line" in set (l := line))
         end;
  repeat match goal with
         | |- context [if ?cond then _ else _] =>
             tryif is_var cond then fail
             else (let c := fresh "c" in set (c := cond); clearbody c)
         | |- context [ExplainScreen.pushWhen ?cond _ _] =>
             lazymatch cond with
             | true => fail
             | (_ <? _)%nat => fail
             | _ => tryif is_var cond then fail
                    else (let c := fresh "c" in set (c := cond); clearbody c)
             end
         end;
  unfold ExplainScreen.pushWhen;
  repeat match goal with
         | |- context [if ?cond then _ else _] => is_var cond; destruct cond
         end.

(** X26. The expected-changes list of the Explain screen holds between one
    and four lines. The illustrative note is added exactly when fewer than
    two other lines apply, so it comes last, in a list of at most two lines,
    and a list of one line is the note alone. In Self-Powered mode the first
    line is the one on solar self-consumption, and neither the peak-rate
    line nor the Storm Watch line is shown. *)
Theorem buildExpectedChanges_lines (mode : Replay.ReplayMode) (reservePct : Q)
    (context : ExplainContext) (startMin endMin : Z) (deltas : Replay.Deltas) :
  let bullets :=
    ExplainScreen.buildExpectedChanges mode reservePct context startMin endMin
      deltas in
  (1 <= List.length bullets <= 4)%nat
  /\ (In illustrativeNote bullets ->
      (List.length bullets <= 2)%nat /\ last bullets "" = illustrativeNote)
  /\ (List.length bullets = 1%nat -> bullets = [illustrativeNote])
  /\ (mode = "Self-Powered" ->
      hd_error bullets
      = Some "System would prioritize solar self-consumption over peak arbitrage."
      /\ ~ In "Time-Based mode would continue prioritizing peak-rate avoidance in this window."
             bullets
      /\ ~ In "Storm Watch overlap would bias charging behavior toward backup readiness."
             bullets).
Proof.
  cbv zeta. split; [|split; [|split]].
  - bullet_cases; vm_compute; lia.
  - bullet_cases; intro H;
      first [ split; [vm_compute; lia | reflexivity]
            | exfalso; revert H; apply not_In_by_eqb; vm_compute; reflexivity ].
  - bullet_cases; intro H; first [reflexivity | vm_compute in H; discriminate H].
  - intros ->. unfold ExplainScreen.buildExpectedChanges. cbv zeta.
    change (String.eqb "Self-Powered" "Self-Powered") with true.
    change (String.eqb "Self-Powered" "Time-Based Control") with false.
    rewrite andb_false_r.
    cbn [ExplainScreen.pushWhen app].
    bullet_cases;
      (split; [reflexivity | split; apply not_In_by_eqb; vm_compute; reflexivity]).
Qed.
